(** * lookout-sdk-ml: the data-access layer of [lookout.core]

    A shallow embedding of [lookout/core/data_requests.py] and of
    [lookout/core/helpers/analyzer_context_manager.py], together with the
    properties of the connection session ([DataService]), of the request
    composer ([request_files] / [request_changes]), of the decorator error
    wrapper ([_handle_rpc_errors]), of the driver version check and of the
    analyzer context manager.

    Python objects with mutable attributes become records threaded through a
    state-and-exception monad; [threading.local()] becomes a finite map keyed
    by the calling thread; exceptions are values of type [Exception]. *)

From stdpp Require Import base option list gmap strings pretty.
From Stdlib Require Import Lia Ascii.

Open Scope string_scope.
Open Scope list_scope.
Set Warnings "-register-all".

(** ** Exceptions and results *)

(** The exception classes that the two modules raise or catch.  A class tag
    stands for "is an instance of": [RpcError] is every [grpc.RpcError]. *)
Inductive ExcClass :=
  | RpcError
  | UnsatisfiedDriverVersionError
  | ValueError
  | AttributeError
  | InvalidRequirement
  | InvalidVersion
  | OtherError (name : string).

(** The Python values found in [Exception.args]. *)
Inductive PyVal :=
  | PStr (s : string)
  | PTuple (items : list PyVal)
  | PList (items : list PyVal).

(** An exception object: its class and its [args].  The traceback and the
    chaining attributes ([__cause__], [__context__]) are display metadata and
    are not represented, so [raise e from None] re-raises the value [e]. *)
Record Exception := mkException {
  exc_class : ExcClass;
  exc_args : list PyVal
}.

Inductive Result (A : Type) :=
  | Ok (a : A)
  | Raise (e : Exception).
Arguments Ok {A} a.
Arguments Raise {A} e.

Definition is_ok {A} (r : Result A) : bool :=
  match r with Ok _ => true | Raise _ => false end.

#[global] Instance ExcClass_eq_dec : EqDecision ExcClass.
Proof. solve_decision. Defined.

(** [except grpc.RpcError as e] catches exactly the instances of the class. *)
Definition is_rpc_error (e : Exception) : bool :=
  bool_decide (exc_class e = RpcError).

(** ** The connection session *)

(** Threads are named by natural numbers. *)
Abbreviation Tid := nat (only parsing).

(** A gRPC channel object.  Python compares channels by identity;
    [chan_id] is that identity, [chan_target] the address it was created for. *)
Record Channel := mkChannel {
  chan_id : nat;
  chan_target : string
}.

#[global] Instance Channel_eq_dec : EqDecision Channel.
Proof. solve_decision. Defined.

(** [DataStub(channel)] and [bblfsh.aliases.ProtocolServiceStub(channel)]:
    a stub remembers the channel it was built on. *)
Record DataStub := mkDataStub { data_stub_channel : Channel }.
Record ProtocolServiceStub := mkProtocolServiceStub { bblfsh_stub_channel : Channel }.

#[global] Instance DataStub_eq_dec : EqDecision DataStub.
Proof. solve_decision. Defined.
#[global] Instance ProtocolServiceStub_eq_dec : EqDecision ProtocolServiceStub.
Proof. solve_decision. Defined.

(** The attributes one thread sees on [self._data_request_local].  Every read
    in the source is [getattr(..., None)], so a missing attribute and an
    attribute set to [None] are both [None] here. *)
Record Local := mkLocal {
  channel : option Channel;
  data_stub : option DataStub;
  bblfsh_stub : option ProtocolServiceStub
}.

Definition empty_local : Local := mkLocal None None None.

Definition set_channel (v : option Channel) (l : Local) : Local :=
  mkLocal v (data_stub l) (bblfsh_stub l).
Definition set_data_stub (v : option DataStub) (l : Local) : Local :=
  mkLocal (channel l) v (bblfsh_stub l).
Definition set_bblfsh_stub (v : option ProtocolServiceStub) (l : Local) : Local :=
  mkLocal (channel l) (data_stub l) v.

(** What [self._log.info] receives. *)
Inductive LogRecord :=
  | LogShuttingDown
  | LogDisposed (c : Channel)
  | LogOpened (c : Channel).

(** The observable history of a session: channels handed out by
    [create_channel], [channel.close()] calls and log records, oldest first. *)
Inductive Event :=
  | EvOpened (t : Tid) (c : Channel)
  | EvClosed (c : Channel)
  | EvLog (r : LogRecord).

#[global] Instance LogRecord_eq_dec : EqDecision LogRecord.
Proof. solve_decision. Defined.
#[global] Instance Event_eq_dec : EqDecision Event.
Proof. solve_decision. Defined.

(** The public methods of [DataService], for the call log. *)
Inductive Method :=
  | MGetData
  | MGetBblfsh
  | MCheckVersions
  | MShutdown
  | MCloseChannel.

#[global] Instance Method_eq_dec : EqDecision Method.
Proof. solve_decision. Defined.

(** A [DataService] instance and the transport it talks to.

    - the first three fields are the attributes set by [__init__];
    - [next_channel_id] and [transport_faults] belong to [create_channel]:
      the identity of the next channel object, and the outcome of the coming
      [create_channel] calls ([Some e]: that call raises [e]; [None] or an
      exhausted list: it returns a channel);
    - [trace] is the history defined above;
    - [calls] is a ghost log of the public methods entered, by thread. *)
Record State := mkState {
  _data_request_local : gmap nat Local;
  _data_request_channels : list Channel;
  _data_request_address : string;
  next_channel_id : nat;
  transport_faults : list (option Exception);
  trace : list Event;
  calls : list (nat * Method)
}.

(** The state-and-exception monad of the methods.  A raised exception keeps
    the state changes made before it, as in Python. *)
Definition M (A : Type) : Type := State -> Result A * State.

#[global] Instance M_ret : MRet M := fun A a s => (Ok a, s).
#[global] Instance M_bind : MBind M := fun A B k m s =>
  match m s with
  | (Ok a, s') => k a s'
  | (Raise e, s') => (Raise e, s')
  end.

Definition raise {A} (e : Exception) : M A := fun s => (Raise e, s).
Definition gets {A} (f : State -> A) : M A := fun s => (Ok (f s), s).
Definition modify (f : State -> State) : M unit := fun s => (Ok tt, f s).

(** State updates, one per field that the code writes. *)
Definition with_local (f : gmap nat Local -> gmap nat Local) (s : State) : State :=
  mkState (f (_data_request_local s)) (_data_request_channels s)
          (_data_request_address s) (next_channel_id s) (transport_faults s)
          (trace s) (calls s).
Definition with_channels (f : list Channel -> list Channel) (s : State) : State :=
  mkState (_data_request_local s) (f (_data_request_channels s))
          (_data_request_address s) (next_channel_id s) (transport_faults s)
          (trace s) (calls s).
Definition with_trace (f : list Event -> list Event) (s : State) : State :=
  mkState (_data_request_local s) (_data_request_channels s)
          (_data_request_address s) (next_channel_id s) (transport_faults s)
          (f (trace s)) (calls s).
Definition with_calls (f : list (nat * Method) -> list (nat * Method)) (s : State) : State :=
  mkState (_data_request_local s) (_data_request_channels s)
          (_data_request_address s) (next_channel_id s) (transport_faults s)
          (trace s) (f (calls s)).

Definition emit (ev : Event) : M unit := modify (with_trace (fun tr => tr ++ [ev])).
Definition log_info (r : LogRecord) : M unit := emit (EvLog r).
Definition enter (t : Tid) (m : Method) : M unit :=
  modify (with_calls (fun cs => cs ++ [(t, m)])).

(** [getattr(self._data_request_local, name, None)] in thread [t]. *)
Definition local_of (t : Tid) (s : State) : Local :=
  default empty_local (_data_request_local s !! t).
Definition getattr_local {A} (field : Local -> option A) (t : Tid) : M (option A) :=
  gets (fun s => field (local_of t s)).

(** [self._data_request_local.name = v] in thread [t]. *)
Definition setattr_local (set : Local -> Local) (t : Tid) : M unit :=
  modify (fun s => with_local (fun m => <[t := set (local_of t s)]> m) s).

(** [DataService.__init__(address)], on a transport that has handed out no
    channel yet and will follow the fault script [faults]. *)
Definition DataService__init__ (address : string) (faults : list (option Exception)) : State :=
  mkState ∅ [] address 0 faults [] [].

(** [lookout.sdk.grpc.create_channel(address)], called by thread [t]: either
    raises the scripted fault or returns a channel object never seen before. *)
Definition create_channel (t : Tid) (address : string) : M Channel := fun s =>
  let rest := tail (transport_faults s) in
  let s1 := mkState (_data_request_local s) (_data_request_channels s)
                    (_data_request_address s) (next_channel_id s) rest
                    (trace s) (calls s) in
  match transport_faults s with
  | Some e :: _ => (Raise e, s1)
  | _ =>
      let c := mkChannel (next_channel_id s) address in
      (Ok c, mkState (_data_request_local s) (_data_request_channels s)
                     (_data_request_address s) (S (next_channel_id s)) rest
                     (trace s ++ [EvOpened t c]) (calls s))
  end.

(** The exception that the next [create_channel] call raises, if any. *)
Definition next_fault (s : State) : option Exception :=
  match transport_faults s with
  | Some e :: _ => Some e
  | _ => None
  end.

(** [channel.close()]. *)
Definition channel_close (c : Channel) : M unit := emit (EvClosed c).

(** [list.remove(x)]: drops the first element equal to [x]; [None] stands for
    the [ValueError] raised when there is none. *)
Fixpoint py_list_remove (x : Channel) (l : list Channel) : option (list Channel) :=
  match l with
  | [] => None
  | y :: l' =>
      if decide (y = x) then Some l'
      else match py_list_remove x l' with
           | Some r => Some (y :: r)
           | None => None
           end
  end.

Definition remove_error : Exception :=
  mkException ValueError [PStr "list.remove(x): x not in list"].

(** [DataService._get_channel], lines 121-127. *)
Definition _get_channel (t : Tid) : M Channel :=
  ch ← getattr_local channel t;
  match ch with
  | Some c => mret c
  | None =>
      addr ← gets _data_request_address;
      c ← create_channel t addr;
      setattr_local (set_channel (Some c)) t;;
      modify (with_channels (fun l => l ++ [c]));;
      log_info (LogOpened c);;
      mret c
  end.

(** [DataService.get_data], lines 53-60. *)
Definition get_data (t : Tid) : M DataStub :=
  enter t MGetData;;
  stub ← getattr_local data_stub t;
  match stub with
  | Some st => mret st
  | None =>
      c ← _get_channel t;
      let st := mkDataStub c in
      setattr_local (set_data_stub (Some st)) t;;
      mret st
  end.

(** [DataService.get_bblfsh], lines 62-70. *)
Definition get_bblfsh (t : Tid) : M ProtocolServiceStub :=
  enter t MGetBblfsh;;
  stub ← getattr_local bblfsh_stub t;
  match stub with
  | Some st => mret st
  | None =>
      c ← _get_channel t;
      let st := mkProtocolServiceStub c in
      setattr_local (set_bblfsh_stub (Some st)) t;;
      mret st
  end.

(** The [for channel in self._data_request_channels: channel.close()] loop. *)
Fixpoint close_all (l : list Channel) : M unit :=
  match l with
  | [] => mret tt
  | c :: l' => channel_close c;; close_all l'
  end.

(** [DataService.shutdown], lines 98-106.  The new [threading.local()] has no
    attribute in any thread. *)
Definition shutdown (t : Tid) : M unit :=
  enter t MShutdown;;
  log_info LogShuttingDown;;
  l ← gets _data_request_channels;
  close_all l;;
  modify (with_channels (fun _ => []));;
  modify (with_local (fun _ => ∅)).

(** [DataService.close_channel], lines 108-119. *)
Definition close_channel (t : Tid) : M unit :=
  enter t MCloseChannel;;
  ch ← getattr_local channel t;
  match ch with
  | None => mret tt
  | Some c =>
      l ← gets _data_request_channels;
      match py_list_remove c l with
      | None => raise remove_error
      | Some l' =>
          modify (with_channels (fun _ => l'));;
          setattr_local (set_channel None) t;;
          setattr_local (set_data_stub None) t;;
          setattr_local (set_bblfsh_stub None) t;;
          channel_close c;;
          log_info (LogDisposed c)
      end
  end.

(** The end of a thread: the interpreter drops its [threading.local] data. *)
Definition thread_exit (t : Tid) (s : State) : State :=
  with_local (delete t) s.

(** ** Runs of a session *)

(** What the threads of a process can do to one session. *)
Inductive Op :=
  | OpGetData
  | OpGetBblfsh
  | OpCloseChannel
  | OpShutdown
  | OpThreadExit.

Definition exec (t : Tid) (o : Op) (s : State) : State :=
  match o with
  | OpGetData => snd (get_data t s)
  | OpGetBblfsh => snd (get_bblfsh t s)
  | OpCloseChannel => snd (close_channel t s)
  | OpShutdown => snd (shutdown t s)
  | OpThreadExit => thread_exit t s
  end.

(** A run: the calls of all threads, one after the other, oldest first. *)
Definition run (ops : list (nat * Op)) (s : State) : State :=
  foldl (fun s' p => exec (fst p) (snd p) s') s ops.

Definition reachable (s : State) : Prop :=
  exists address faults ops, s = run ops (DataService__init__ address faults).

(** ** Reading the history *)

(** How many times [c.close()] has been called. *)
Definition closed_count (c : Channel) (tr : list Event) : nat :=
  length (filter (fun ev => ev = EvClosed c) tr).

(** [create_channel] has returned [c] to some thread. *)
Definition opened (c : Channel) (tr : list Event) : Prop :=
  exists t, EvOpened t c ∈ tr.

(** How many times thread [t] has entered method [m]. *)
Definition call_count (t : Tid) (m : Method) (cs : list (nat * Method)) : nat :=
  length (filter (fun p => p = (t, m)) cs).

(** The slot of thread [t] holds nothing. *)
Definition slot_empty (t : Tid) (s : State) : Prop :=
  local_of t s = empty_local.

(** The slot of thread [t] holds a channel and both stubs. *)
Definition slot_full (t : Tid) (s : State) : Prop :=
  exists c, local_of t s =
    mkLocal (Some c) (Some (mkDataStub c)) (Some (mkProtocolServiceStub c)).

(** Every stub in the slot was built on the slot's channel; with no channel
    there is no stub. *)
Definition slot_coherent (l : Local) : Prop :=
  (forall st, data_stub l = Some st -> channel l = Some (data_stub_channel st)) /\
  (forall st, bblfsh_stub l = Some st -> channel l = Some (bblfsh_stub_channel st)).

(** The invariant of a session. *)
Record session_inv (s : State) : Prop := mk_session_inv {
  inv_nodup : NoDup (_data_request_channels s);
  inv_registry_opened :
    forall c, c ∈ _data_request_channels s -> opened c (trace s);
  inv_registry_live :
    forall c, c ∈ _data_request_channels s -> closed_count c (trace s) = 0;
  inv_opened_id :
    forall t c, EvOpened t c ∈ trace s ->
      chan_id c < next_channel_id s /\ chan_target c = _data_request_address s;
  inv_closed_opened :
    forall c, EvClosed c ∈ trace s -> opened c (trace s);
  inv_accounted :
    forall c, opened c (trace s) ->
      (c ∈ _data_request_channels s) \/ closed_count c (trace s) = 1;
  inv_slot_registered :
    forall t c, channel (local_of t s) = Some c -> c ∈ _data_request_channels s;
  inv_slot_coherent :
    forall t, slot_coherent (local_of t s);
  inv_slot_private :
    forall t1 t2 c, channel (local_of t1 s) = Some c ->
      channel (local_of t2 s) = Some c -> t1 = t2
}.

(** ** The request composer *)

(** A server stream as the consumer sees it: records one at a time, until the
    stream ends or the transport raises. *)
Inductive Stream (A : Type) :=
  | SDone
  | SYield (a : A) (rest : Stream A)
  | SRaise (e : Exception).
Arguments SDone {A}.
Arguments SYield {A} a rest.
Arguments SRaise {A} e.

(** The builtin [map(f, it)] on such a stream: lazy, one element at a time,
    and an exception of [it] comes out where [it] raised it. *)
Fixpoint py_map {A B} (f : A -> B) (it : Stream A) : Stream B :=
  match it with
  | SDone => SDone
  | SYield a rest => SYield (f a) (py_map f rest)
  | SRaise e => SRaise e
  end.

(** The records a consumer receives before the stream ends or raises. *)
Fixpoint yielded {A} (it : Stream A) : list A :=
  match it with
  | SDone => []
  | SYield a rest => a :: yielded rest
  | SRaise _ => []
  end.

(** How the stream terminates: normally, or with an exception. *)
Fixpoint stream_end {A} (it : Stream A) : option Exception :=
  match it with
  | SDone => None
  | SYield _ rest => stream_end rest
  | SRaise e => Some e
  end.

(** [FilesRequest] and [ChangesRequest] of [service_data_pb2], with the
    fields that the composer sets; [P] is the protobuf reference pointer. *)
Record FilesRequest (P : Type) := mkFilesRequest {
  fr_revision : P;
  fr_exclude_pattern : string;
  fr_exclude_vendored : bool;
  fr_want_contents : bool;
  fr_want_language : bool;
  fr_want_uast : bool
}.
Arguments mkFilesRequest {P}.
Arguments fr_revision {P}.
Arguments fr_exclude_pattern {P}.
Arguments fr_exclude_vendored {P}.
Arguments fr_want_contents {P}.
Arguments fr_want_language {P}.
Arguments fr_want_uast {P}.

Record ChangesRequest (P : Type) := mkChangesRequest {
  cr_base : P;
  cr_head : P;
  cr_exclude_pattern : string;
  cr_exclude_vendored : bool;
  cr_want_contents : bool;
  cr_want_language : bool;
  cr_want_uast : bool
}.
Arguments mkChangesRequest {P}.
Arguments cr_base {P}.
Arguments cr_head {P}.
Arguments cr_exclude_pattern {P}.
Arguments cr_exclude_vendored {P}.
Arguments cr_want_contents {P}.
Arguments cr_want_language {P}.
Arguments cr_want_uast {P}.

(** What the composer imports from the rest of [lookout.core] and from the
    data service: the pointer type and its [to_pb], the garbage pattern, the
    record types, the two Unicode converters and the two streaming calls of a
    [DataStub] (a call either raises or hands back a stream). *)
Class DataApi := {
  ReferencePointer : Type;
  PbReferencePointer : Type;
  to_pb : ReferencePointer -> PbReferencePointer;
  GARBAGE_PATTERN : string;
  File : Type;
  Change : Type;
  convert_file : File -> File;
  convert_change : Change -> Change;
  GetFiles : DataStub -> FilesRequest PbReferencePointer -> Result (Stream File);
  GetChanges : DataStub -> ChangesRequest PbReferencePointer -> Result (Stream Change)
}.

(** Python's [a or b] on two [bool]s. *)
Definition py_or (a b : bool) : bool := if a then a else b.

(** The request that [request_changes] sends, lines 317-322: the constructor
    call, then the five assignments in their order. *)
Definition changes_request `{DataApi} (ptr_from ptr_to : ReferencePointer)
    (contents uast : bool) : ChangesRequest PbReferencePointer :=
  let request := mkChangesRequest (to_pb ptr_from) (to_pb ptr_to) "" false false false false in
  let request := mkChangesRequest (cr_base request) (cr_head request) GARBAGE_PATTERN
                   (cr_exclude_vendored request) (cr_want_contents request)
                   (cr_want_language request) (cr_want_uast request) in
  let request := mkChangesRequest (cr_base request) (cr_head request)
                   (cr_exclude_pattern request) true (cr_want_contents request)
                   (cr_want_language request) (cr_want_uast request) in
  let request := mkChangesRequest (cr_base request) (cr_head request)
                   (cr_exclude_pattern request) (cr_exclude_vendored request) contents
                   (cr_want_language request) (cr_want_uast request) in
  let request := mkChangesRequest (cr_base request) (cr_head request)
                   (cr_exclude_pattern request) (cr_exclude_vendored request)
                   (cr_want_contents request) (py_or contents uast) (cr_want_uast request) in
  mkChangesRequest (cr_base request) (cr_head request)
    (cr_exclude_pattern request) (cr_exclude_vendored request)
    (cr_want_contents request) (cr_want_language request) uast.

(** [request_changes], lines 309-326. *)
Definition request_changes `{DataApi} (stub : DataStub) (ptr_from ptr_to : ReferencePointer)
    (contents uast unicode : bool) : Result (Stream Change) :=
  let request := changes_request ptr_from ptr_to contents uast in
  match GetChanges stub request with
  | Raise e => Raise e
  | Ok changes =>
      let changes := if unicode then py_map convert_change changes else changes in
      Ok changes
  end.

(** The request that [request_files] sends, lines 336-341. *)
Definition files_request `{DataApi} (ptr : ReferencePointer)
    (contents uast : bool) : FilesRequest PbReferencePointer :=
  let request := mkFilesRequest (to_pb ptr) "" false false false false in
  let request := mkFilesRequest (fr_revision request) GARBAGE_PATTERN
                   (fr_exclude_vendored request) (fr_want_contents request)
                   (fr_want_language request) (fr_want_uast request) in
  let request := mkFilesRequest (fr_revision request)
                   (fr_exclude_pattern request) true (fr_want_contents request)
                   (fr_want_language request) (fr_want_uast request) in
  let request := mkFilesRequest (fr_revision request)
                   (fr_exclude_pattern request) (fr_exclude_vendored request) contents
                   (fr_want_language request) (fr_want_uast request) in
  let request := mkFilesRequest (fr_revision request)
                   (fr_exclude_pattern request) (fr_exclude_vendored request)
                   (fr_want_contents request) (py_or contents uast) (fr_want_uast request) in
  mkFilesRequest (fr_revision request)
    (fr_exclude_pattern request) (fr_exclude_vendored request)
    (fr_want_contents request) (fr_want_language request) uast.

(** [request_files], lines 329-345. *)
Definition request_files `{DataApi} (stub : DataStub) (ptr : ReferencePointer)
    (contents uast unicode : bool) : Result (Stream File) :=
  let request := files_request ptr contents uast in
  match GetFiles stub request with
  | Raise e => Raise e
  | Ok files =>
      let files := if unicode then py_map convert_file files else files in
      Ok files
  end.

(** Applies a function to the value of a [Result] that is not an exception. *)
Definition result_map {A B} (f : A -> B) (r : Result A) : Result B :=
  match r with
  | Ok a => Ok (f a)
  | Raise e => Raise e
  end.

(** A [Result] computed without touching the session, inside [M]. *)
Definition lift_result {A} (r : Result A) : M A := fun s => (r, s).

(** ** The decorators *)

(** [_handle_rpc_errors], lines 130-140.  The four positional parameters are
    those of the wrapped method; [data_service] is the session in the monad
    and [t] the thread that makes the call. *)
Definition _handle_rpc_errors {A B C D R} (func : Tid -> A -> B -> C -> D -> M R)
    (t : Tid) (cls : A) (ptr : B) (config : C) (data : D) : M R := fun s =>
  match func t cls ptr config data s with
  | (Ok r, s') => (Ok r, s')
  | (Raise e, s') =>
      if is_rpc_error e
      then (close_channel t;; raise e) s'
      else (Raise e, s')
  end.

Section Decorators.
Context `{DataApi}.
Context {Self Cls Config Data Comments Model : Type}.

(** An [Analyzer.analyze()] implementation: [self], the two pointers, the
    [changes] keyword and the remaining [**data]. *)
Definition AnalyzeFn : Type :=
  Tid -> Self -> ReferencePointer -> ReferencePointer -> Stream Change -> Data -> M Comments.

(** An [Analyzer.train()] implementation: [cls], the pointer, the config,
    the [files] keyword and the remaining [**data]. *)
Definition TrainFn : Type :=
  Tid -> Cls -> ReferencePointer -> Config -> Stream File -> Data -> M Model.

(** The body shared by the three "changed" decorators, lines 161-164. *)
Definition wrapped_changes (contents uast unicode : bool) (func : AnalyzeFn)
    (t : Tid) (self : Self) (ptr_from ptr_to : ReferencePointer) (data : Data) : M Comments :=
  stub ← get_data t;
  changes ← lift_result (request_changes stub ptr_from ptr_to contents uast unicode);
  func t self ptr_from ptr_to changes data.

(** The body shared by the three "files" decorators, lines 245-247. *)
Definition wrapped_files (contents uast unicode : bool) (func : TrainFn)
    (t : Tid) (cls : Cls) (ptr : ReferencePointer) (config : Config) (data : Data) : M Model :=
  stub ← get_data t;
  files ← lift_result (request_files stub ptr contents uast unicode);
  func t cls ptr config files data.

Definition with_changed_uasts (unicode : bool) (func : AnalyzeFn) :=
  _handle_rpc_errors (wrapped_changes false true unicode func).
Definition with_changed_contents (unicode : bool) (func : AnalyzeFn) :=
  _handle_rpc_errors (wrapped_changes true false unicode func).
Definition with_changed_uasts_and_contents (unicode : bool) (func : AnalyzeFn) :=
  _handle_rpc_errors (wrapped_changes true true unicode func).
Definition with_uasts (unicode : bool) (func : TrainFn) :=
  _handle_rpc_errors (wrapped_files false true unicode func).
Definition with_contents (unicode : bool) (func : TrainFn) :=
  _handle_rpc_errors (wrapped_files true false unicode func).
Definition with_uasts_and_contents (unicode : bool) (func : TrainFn) :=
  _handle_rpc_errors (wrapped_files true true unicode func).
End Decorators.

(** *** A small data service for the examples

    Pointers, files and changes are strings; the Unicode converters put a
    mark in front of a record; the two calls answer as told. *)
Module SampleData.

Definition api (files : Result (Stream string)) (changes : Result (Stream string)) : DataApi := {|
  ReferencePointer := string;
  PbReferencePointer := string;
  to_pb := fun p => p;
  GARBAGE_PATTERN := "garbage";
  File := string;
  Change := string;
  convert_file := fun f => String.append "u:" f;
  convert_change := fun c => String.append "u:" c;
  GetFiles := fun _ _ => files;
  GetChanges := fun _ _ => changes
|}.

Definition unavailable : Exception := mkException RpcError [PStr "UNAVAILABLE"].

(** A [train()] that reads the whole stream: it returns the records, or
    raises what the stream raises. *)
Definition consume {A} (it : Stream A) : M (list A) :=
  match stream_end it with
  | Some e => raise e
  | None => mret (yielded it)
  end.

Definition train_all `{DataApi} : @TrainFn _ unit unit unit (list File) :=
  fun _ _ _ _ files _ => consume files.

(** A wrapped call that gets the data stub and then fails in the transport. *)
Definition failing_call (t : Tid) (_ _ _ _ : unit) : M unit :=
  get_data t;; raise unavailable.

End SampleData.

(** ** The driver version check *)

(** An entry of the [SupportedLanguages] response. *)
Record Driver := mkDriver {
  language : string;
  version : string
}.

(** [packaging.requirements.Requirement]: the two attributes the check reads;
    [S] is [packaging.specifiers.SpecifierSet]. *)
Record Requirement (S : Type) := mkRequirement {
  name : string;
  specifier : S
}.
Arguments mkRequirement {S}.
Arguments name {S}.
Arguments specifier {S}.

(** What the check imports from [packaging] and from Babelfish: the two
    constructors (each raises on a malformed string), [ver in specifier],
    [str()] of both types, and the unary [SupportedLanguages] call. *)
Class Packaging := {
  Version : Type;
  SpecifierSet : Type;
  Version_new : string -> Result Version;
  Requirement_new : string -> Result (Requirement SpecifierSet);
  specifier_contains : SpecifierSet -> Version -> bool;
  str_Version : Version -> string;
  str_SpecifierSet : SpecifierSet -> string;
  SupportedLanguages : ProtocolServiceStub -> Result (list Driver)
}.

(** [UnsatisfiedDriverVersionError(mismatched)], lines 27-29: [args] starts
    as the constructor arguments, [(mismatched,)], and [__init__] appends the
    pairs of [mismatched] to it. *)
Definition pair_val (p : string * string) : PyVal :=
  PTuple [PStr (fst p); PStr (snd p)].
Definition UnsatisfiedDriverVersionError__init__ (mismatched : list (string * string)) : Exception :=
  mkException UnsatisfiedDriverVersionError
    ([PList (map pair_val mismatched)] ++ map pair_val mismatched).

(** The dict comprehension of line 84: a later driver of the same language
    replaces an earlier one; the first malformed version raises. *)
Fixpoint existing_versions `{Packaging} (drivers : list Driver)
    (acc : gmap string Version) : Result (gmap string Version) :=
  match drivers with
  | [] => Ok acc
  | driver :: rest =>
      match Version_new (version driver) with
      | Raise e => Raise e
      | Ok v => existing_versions rest (<[language driver := v]> acc)
      end
  end.

Definition not_installed_message `{Packaging} (req : Requirement SpecifierSet) : string :=
  String.append "not installed, but required " (str_SpecifierSet (specifier req)).
Definition not_satisfied_message `{Packaging} (ver : Version)
    (req : Requirement SpecifierSet) : string :=
  String.append (str_Version ver)
    (String.append " does not satisfy " (str_SpecifierSet (specifier req))).

(** The loop of lines 86-94, with [mismatched] as accumulator. *)
Fixpoint collect_mismatched `{Packaging} (existing : gmap string Version)
    (versions : list string) (mismatched : list (string * string))
    : Result (list (string * string)) :=
  match versions with
  | [] => Ok mismatched
  | reqstr :: rest =>
      match Requirement_new reqstr with
      | Raise e => Raise e
      | Ok req =>
          match existing !! name req with
          | None =>
              collect_mismatched existing rest
                (mismatched ++ [(name req, not_installed_message req)])
          | Some ver =>
              if negb (specifier_contains (specifier req) ver)
              then collect_mismatched existing rest
                     (mismatched ++ [(name req, not_satisfied_message ver req)])
              else collect_mismatched existing rest mismatched
          end
      end
  end.

(** [DataService.check_bblfsh_driver_versions], lines 72-96. *)
Definition check_bblfsh_driver_versions `{Packaging} (versions : list string)
    (t : Tid) : M unit :=
  enter t MCheckVersions;;
  stub ← get_bblfsh t;
  existing ← lift_result (SupportedLanguages stub);
  existing ← lift_result (existing_versions existing ∅);
  mismatched ← lift_result (collect_mismatched existing versions []);
  match mismatched with
  | [] => mret tt
  | _ :: _ => raise (UnsatisfiedDriverVersionError__init__ mismatched)
  end.

(** A requirement is unmet by the installed versions when its language is
    missing or the installed version is outside the required range. *)
Definition unmet `{Packaging} (existing : gmap string Version)
    (req : Requirement SpecifierSet) : bool :=
  match existing !! name req with
  | None => true
  | Some ver => negb (specifier_contains (specifier req) ver)
  end.

(** The (language, reason) pair that reports an unmet requirement. *)
Definition report `{Packaging} (existing : gmap string Version)
    (req : Requirement SpecifierSet) : string * string :=
  match existing !! name req with
  | None => (name req, not_installed_message req)
  | Some ver => (name req, not_satisfied_message ver req)
  end.

(** *** A small [packaging] for the examples

    Release versions only (dot-separated decimal numbers, compared segment by
    segment with missing segments read as zero) and requirements of the form
    [name OP version] with one comparison operator. *)
Module SamplePackaging.

Definition digit_of (a : ascii) : option nat :=
  let n := nat_of_ascii a in
  if Nat.leb 48 n && Nat.leb n 57 then Some (n - 48) else None.

Fixpoint number_of (s : string) (acc : nat) : option nat :=
  match s with
  | EmptyString => Some acc
  | String a s' =>
      match digit_of a with
      | Some d => number_of s' (10 * acc + d)
      | None => None
      end
  end.

Fixpoint split_dots (s : string) (cur : string) : list string :=
  match s with
  | EmptyString => [cur]
  | String a s' =>
      if Ascii.eqb a "."%char then cur :: split_dots s' EmptyString
      else split_dots s' (String.append cur (String a EmptyString))
  end.

Definition segment_of (p : string) : option nat :=
  match p with
  | EmptyString => None
  | _ => number_of p 0
  end.

Definition release_of (s : string) : option (list nat) :=
  mapM segment_of (split_dots s EmptyString).

Fixpoint compare_release (a b : list nat) : comparison :=
  match a, b with
  | [], _ => if forallb (Nat.eqb 0) b then Eq else Lt
  | _ :: _, [] => if forallb (Nat.eqb 0) a then Eq else Gt
  | x :: a', y :: b' =>
      match Nat.compare x y with
      | Eq => compare_release a' b'
      | c => c
      end
  end.

Inductive Operator := OpEq | OpNe | OpGe | OpLe | OpGt | OpLt.

Definition operator_text (o : Operator) : string :=
  match o with
  | OpEq => "==" | OpNe => "!=" | OpGe => ">=" | OpLe => "<=" | OpGt => ">" | OpLt => "<"
  end.

Definition holds (o : Operator) (c : comparison) : bool :=
  match o, c with
  | OpEq, Eq | OpNe, Lt | OpNe, Gt | OpGe, Eq | OpGe, Gt
  | OpLe, Eq | OpLe, Lt | OpGt, Gt | OpLt, Lt => true
  | _, _ => false
  end.

Definition is_operator_char (a : ascii) : bool :=
  Ascii.eqb a "<"%char || Ascii.eqb a ">"%char || Ascii.eqb a "="%char || Ascii.eqb a "!"%char.

(** Splits [name OP version] at the first operator character. *)
Fixpoint split_name (s : string) (cur : string) : string * string :=
  match s with
  | EmptyString => (cur, EmptyString)
  | String a s' =>
      if is_operator_char a then (cur, s)
      else split_name s' (String.append cur (String a EmptyString))
  end.

Definition operator_of (s : string) : option (Operator * string) :=
  match s with
  | String "=" (String "=" r) => Some (OpEq, r)
  | String "!" (String "=" r) => Some (OpNe, r)
  | String ">" (String "=" r) => Some (OpGe, r)
  | String "<" (String "=" r) => Some (OpLe, r)
  | String ">" r => Some (OpGt, r)
  | String "<" r => Some (OpLt, r)
  | _ => None
  end.

Definition join_dots (l : list nat) : string :=
  String.concat "." (map (fun n => pretty n) l).

Definition version_of (s : string) : Result (list nat) :=
  match release_of s with
  | Some v => Ok v
  | None => Raise (mkException InvalidVersion [PStr s])
  end.

Definition requirement_of (s : string) : Result (Requirement (Operator * list nat)) :=
  let bad := Raise (mkException InvalidRequirement [PStr s]) in
  match split_name s EmptyString with
  | (EmptyString, _) => bad
  | (n, rest) =>
      match operator_of rest with
      | None => bad
      | Some (o, vs) =>
          match release_of vs with
          | Some v => Ok (mkRequirement n (o, v))
          | None => bad
          end
      end
  end.

(** The instance, over a parse service that reports the given drivers. *)
Definition packaging (installed : Result (list Driver)) : Packaging := {|
  Version := list nat;
  SpecifierSet := Operator * list nat;
  Version_new := version_of;
  Requirement_new := requirement_of;
  specifier_contains := fun sp v => holds (fst sp) (compare_release v (snd sp));
  str_Version := join_dots;
  str_SpecifierSet := fun sp => String.append (operator_text (fst sp)) (join_dots (snd sp));
  SupportedLanguages := fun _ => installed
|}.

End SamplePackaging.

(** ** The analyzer context manager *)

Module ContextManager.

(** [argparse.Namespace] as built by [__init__], lines 32-38. *)
Record Namespace := mkNamespace {
  db : string;
  fs : string;
  cache_size : string;
  cache_ttl : string;
  db_kwargs : list (string * PyVal)
}.

(** The arguments that reach [LookoutSDK.review] / [LookoutSDK.push]. *)
Record SdkArgs := mkSdkArgs {
  fr : string;
  to : string;
  port : nat;
  git_dir : string;
  bblfsh : option string;
  log_level : option string;
  config_json : option (list (string * PyVal))
}.

(** The calls that leave the class, in the order they are made. *)
Inductive HostEvent :=
  | HFindPort
  | HCheckPortFree (p : nat)
  | HCreateModelRepo (args : Namespace)
  | HModelRepoInit
  | HNewManager
  | HNewListener (address : string) (n_workers : nat)
  | HListenerStart
  | HNewLookoutSDK
  | HListenerStop
  | HModelRepoShutdown
  | HSdkReview (a : SdkArgs)
  | HSdkPush (a : SdkArgs).

(** The collaborators of the class: the analyzer and process-result types,
    whether a call raises (given the history so far), what [find_port] and
    [check_port_free] answer, what an SDK command returns, the truth value of
    a [LookoutSDK] object, and the transport script of the session that
    [__enter__] creates. *)
Class HostEnv := {
  Analyzer : Type;
  CompletedProcess : Type;
  host_fault : list HostEvent -> HostEvent -> option Exception;
  find_port_value : list HostEvent -> nat;
  check_port_free_value : list HostEvent -> nat -> bool;
  completed : list HostEvent -> HostEvent -> CompletedProcess;
  sdk_truth : bool;
  session_faults : list (option Exception)
}.

Inductive LookoutSDK := LookoutSDK_new.
Record ModelRepository := mkModelRepository { repo_args : Namespace }.
Record EventListener := mkEventListener { listener_address : string; listener_workers : nat }.
Inductive AnalyzerManager := AnalyzerManager_new.

(** The attributes of an [AnalyzerContextManager]; those that [__enter__]
    creates are [None] while they do not exist. *)
Record Self `{HostEnv} := mkSelf {
  analyzer : Analyzer;
  init : bool;
  _port : nat;
  data_request_address : string;
  _sql_alchemy_model_args : Namespace;
  _lookout_sdk : option LookoutSDK;
  model_repository : option ModelRepository;
  data_service : option State;
  manager : option AnalyzerManager;
  listener : option EventListener
}.

(** The object together with the history of its outside calls. *)
Definition Ctx `{HostEnv} : Type := Self * list HostEvent.

Definition CM `{HostEnv} (A : Type) : Type := Ctx -> Result A * Ctx.

#[global] Instance CM_ret `{HostEnv} : MRet CM := fun A a c => (Ok a, c).
#[global] Instance CM_bind `{HostEnv} : MBind CM := fun A B k m c =>
  match m c with
  | (Ok a, c') => k a c'
  | (Raise e, c') => (Raise e, c')
  end.
Definition cm_raise `{HostEnv} {A} (e : Exception) : CM A := fun c => (Raise e, c).

(** An outside call: recorded, then it raises or returns. *)
Definition host_call `{HostEnv} (ev : HostEvent) : CM unit := fun c =>
  let h := snd c in
  match host_fault h ev with
  | Some e => (Raise e, (fst c, h ++ [ev]))
  | None => (Ok tt, (fst c, h ++ [ev]))
  end.

Definition history `{HostEnv} : CM (list HostEvent) := fun c => (Ok (snd c), c).
Definition self_get `{HostEnv} {A} (f : Self -> A) : CM A := fun c => (Ok (f (fst c)), c).
Definition self_set `{HostEnv} (f : Self -> Self) : CM unit := fun c => (Ok tt, (f (fst c), snd c)).

(** Reading an attribute that does not exist. *)
Definition no_attribute (attr : string) : Exception :=
  mkException AttributeError
    [PStr (String.append "'AnalyzerContextManager' object has no attribute '"
             (String.append attr "'"))].
Definition self_attr `{HostEnv} {A} (f : Self -> option A) (attr : string) : CM A := fun c =>
  match f (fst c) with
  | Some a => (Ok a, c)
  | None => (Raise (no_attribute attr), c)
  end.

Definition set_port `{HostEnv} (p : nat) (s : Self) : Self :=
  mkSelf _ (analyzer s) (init s) p (data_request_address s) (_sql_alchemy_model_args s)
    (_lookout_sdk s) (model_repository s) (data_service s) (manager s) (listener s).
Definition set_lookout_sdk `{HostEnv} (v : option LookoutSDK) (s : Self) : Self :=
  mkSelf _ (analyzer s) (init s) (_port s) (data_request_address s) (_sql_alchemy_model_args s)
    v (model_repository s) (data_service s) (manager s) (listener s).
Definition set_model_repository `{HostEnv} (v : option ModelRepository) (s : Self) : Self :=
  mkSelf _ (analyzer s) (init s) (_port s) (data_request_address s) (_sql_alchemy_model_args s)
    (_lookout_sdk s) v (data_service s) (manager s) (listener s).
Definition set_data_service `{HostEnv} (v : option State) (s : Self) : Self :=
  mkSelf _ (analyzer s) (init s) (_port s) (data_request_address s) (_sql_alchemy_model_args s)
    (_lookout_sdk s) (model_repository s) v (manager s) (listener s).
Definition set_manager `{HostEnv} (v : option AnalyzerManager) (s : Self) : Self :=
  mkSelf _ (analyzer s) (init s) (_port s) (data_request_address s) (_sql_alchemy_model_args s)
    (_lookout_sdk s) (model_repository s) (data_service s) v (listener s).
Definition set_listener `{HostEnv} (v : option EventListener) (s : Self) : Self :=
  mkSelf _ (analyzer s) (init s) (_port s) (data_request_address s) (_sql_alchemy_model_args s)
    (_lookout_sdk s) (model_repository s) (data_service s) (manager s) v.

(** [find_port()]. *)
Definition find_port `{HostEnv} : CM nat :=
  h ← history;
  host_call HFindPort;;
  mret (find_port_value h).

(** [check_port_free(port)]. *)
Definition check_port_free `{HostEnv} (p : nat) : CM bool :=
  h ← history;
  host_call (HCheckPortFree p);;
  mret (check_port_free_value h p).

(** [AnalyzerContextManager.__init__], lines 16-39, from the history [h]:
    the object exists only if [find_port()] returns. *)
Definition __init__ `{HostEnv} (analyzer : Analyzer) (db fs : string) (init : bool)
    (data_request_address : string) (h : list HostEvent) : Result Self * list HostEvent :=
  match host_fault h HFindPort with
  | Some e => (Raise e, h ++ [HFindPort])
  | None =>
      (Ok (mkSelf _ analyzer init (find_port_value h) data_request_address
             (mkNamespace (String.append "sqlite:///" db) fs "1G" "6h" [])
             None None None None None),
       h ++ [HFindPort])
  end.

(** [__enter__], lines 41-58. *)
Definition __enter__ `{HostEnv} : CM Self :=
  args ← self_get _sql_alchemy_model_args;
  host_call (HCreateModelRepo args);;
  self_set (set_model_repository (Some (mkModelRepository args)));;
  do_init ← self_get init;
  (if (do_init : bool) then host_call HModelRepoInit else (mret tt : CM unit));;
  address ← self_get data_request_address;
  self_set (set_data_service (Some (DataService__init__ address session_faults)));;
  host_call HNewManager;;
  self_set (set_manager (Some AnalyzerManager_new));;
  p ← self_get _port;
  free ← check_port_free p;
  (if negb (free : bool) then (p' ← find_port; self_set (set_port p')) else (mret tt : CM unit));;
  p ← self_get _port;
  let l := mkEventListener (String.append "0.0.0.0:" (pretty p)) 1 in
  host_call (HNewListener (listener_address l) (listener_workers l));;
  self_set (set_listener (Some l));;
  host_call HListenerStart;;
  host_call HNewLookoutSDK;;
  self_set (set_lookout_sdk (Some LookoutSDK_new));;
  self_get (fun self => self).

(** [data_service.shutdown()] in thread [t], on the session the object owns;
    [DataService.shutdown] itself never raises. *)
Definition data_service_shutdown `{HostEnv} (t : Tid) : CM unit :=
  ds ← self_attr data_service "data_service";
  self_set (set_data_service (Some (snd (shutdown t ds)))).

(** [__exit__], lines 60-67. *)
Definition __exit__ `{HostEnv} (t : Tid) : CM unit :=
  self_set (set_lookout_sdk None);;
  self_attr listener "listener";;
  host_call HListenerStop;;
  self_attr model_repository "model_repository";;
  host_call HModelRepoShutdown;;
  data_service_shutdown t.

(** The truth value of [self._lookout_sdk]. *)
Definition truthy `{HostEnv} (v : option LookoutSDK) : bool :=
  match v with
  | None => false
  | Some _ => sdk_truth
  end.

Definition review_error : Exception :=
  mkException AttributeError
    [PStr "AnalyzerContextManager.review() is available only inside `with`"].
Definition push_error : Exception :=
  mkException AttributeError
    [PStr "AnalyzerContextManager.push() is available only inside `with` statement"].

(** An SDK command: recorded, then it raises or returns the process result. *)
Definition sdk_command `{HostEnv} (ev : HostEvent) : CM CompletedProcess :=
  h ← history;
  host_call ev;;
  mret (completed h ev).

(** [review], lines 69-82. *)
Definition review `{HostEnv} (fr to git_dir : string) (bblfsh log_level : option string)
    (config_json : option (list (string * PyVal))) : CM CompletedProcess :=
  sdk ← self_get _lookout_sdk;
  if negb (truthy sdk) then cm_raise review_error
  else
    p ← self_get _port;
    sdk_command (HSdkReview (mkSdkArgs fr to p git_dir bblfsh log_level config_json)).

(** [push], lines 84-97. *)
Definition push `{HostEnv} (fr to git_dir : string) (bblfsh log_level : option string)
    (config_json : option (list (string * PyVal))) : CM CompletedProcess :=
  sdk ← self_get _lookout_sdk;
  if negb (truthy sdk) then cm_raise push_error
  else
    p ← self_get _port;
    sdk_command (HSdkPush (mkSdkArgs fr to p git_dir bblfsh log_level config_json)).

(** Whether an outside call is an SDK command. *)
Definition is_sdk_command (ev : HostEvent) : bool :=
  match ev with
  | HSdkReview _ | HSdkPush _ => true
  | _ => false
  end.

(** A host for the examples: no call fails, ports are free, an SDK command
    returns the number of outside calls made before it. *)
Definition sample_host : HostEnv := {|
  Analyzer := string;
  CompletedProcess := nat;
  host_fault := fun _ _ => None;
  find_port_value := fun h => 4000 + length h;
  check_port_free_value := fun _ _ => true;
  completed := fun h _ => length h;
  sdk_truth := true;
  session_faults := []
|}.

End ContextManager.

(** ** The session under a thread scheduler

    The same methods, one statement at a time.  The interpreter can switch
    threads between any two statements; a statement itself (one attribute
    read or write, one [list.append], [list.remove] or [list.clear], one
    step of the [for] loop) is atomic.  The source takes no lock anywhere. *)
Module Interleaving.

Inductive Getter := GData | GBblfsh.

(** Where a thread stands inside a method: the statement it runs next. *)
Inductive Pc :=
  | GetStub (g : Getter)                        (* line 57 / 66 *)
  | GetChannel (g : Getter)                     (* line 122 *)
  | CreateChannel (g : Getter)                  (* line 124 *)
  | AppendChannel (g : Getter) (c : Channel)    (* line 125 *)
  | LogOpen (g : Getter) (c : Channel)          (* line 126 *)
  | StoreStub (g : Getter) (c : Channel)        (* line 59 / 68 *)
  | CloseRead                                   (* line 112 *)
  | CloseRemove (c : Channel)                   (* line 114 *)
  | CloseClearChannel (c : Channel)             (* line 115 *)
  | CloseClearData (c : Channel)                (* line 116 *)
  | CloseClearBblfsh (c : Channel)              (* line 117 *)
  | CloseClose (c : Channel)                    (* line 118 *)
  | CloseLog (c : Channel)                      (* line 119 *)
  | ShutLog                                     (* line 102 *)
  | ShutLoop (i : nat)                          (* lines 103-104 *)
  | ShutClear                                   (* line 105 *)
  | ShutLocal.                                  (* line 106 *)

(** The thread's stub attribute for a getter is set. *)
Definition has_stub (g : Getter) (l : Local) : bool :=
  match g with
  | GData => bool_decide (is_Some (data_stub l))
  | GBblfsh => bool_decide (is_Some (bblfsh_stub l))
  end.

Definition store_stub (g : Getter) (c : Channel) (l : Local) : Local :=
  match g with
  | GData => set_data_stub (Some (mkDataStub c)) l
  | GBblfsh => set_bblfsh_stub (Some (mkProtocolServiceStub c)) l
  end.

(** One statement of thread [t]: the new state, and the next statement or
    [None] when the method returns or raises. *)
Definition step (t : Tid) (pc : Pc) (s : State) : State * option Pc :=
  match pc with
  | GetStub g =>
      if has_stub g (local_of t s) then (s, None) else (s, Some (GetChannel g))
  | GetChannel g =>
      match channel (local_of t s) with
      | Some c => (s, Some (StoreStub g c))
      | None => (s, Some (CreateChannel g))
      end
  | CreateChannel g =>
      match create_channel t (_data_request_address s) s with
      | (Raise _, s') => (s', None)
      | (Ok c, s') =>
          (snd (setattr_local (set_channel (Some c)) t s'), Some (AppendChannel g c))
      end
  | AppendChannel g c =>
      (with_channels (fun l => l ++ [c]) s, Some (LogOpen g c))
  | LogOpen g c =>
      (snd (log_info (LogOpened c) s), Some (StoreStub g c))
  | StoreStub g c =>
      (snd (setattr_local (store_stub g c) t s), None)
  | CloseRead =>
      match channel (local_of t s) with
      | Some c => (s, Some (CloseRemove c))
      | None => (s, None)
      end
  | CloseRemove c =>
      match py_list_remove c (_data_request_channels s) with
      | Some l' => (with_channels (fun _ => l') s, Some (CloseClearChannel c))
      | None => (s, None)
      end
  | CloseClearChannel c =>
      (snd (setattr_local (set_channel None) t s), Some (CloseClearData c))
  | CloseClearData c =>
      (snd (setattr_local (set_data_stub None) t s), Some (CloseClearBblfsh c))
  | CloseClearBblfsh c =>
      (snd (setattr_local (set_bblfsh_stub None) t s), Some (CloseClose c))
  | CloseClose c =>
      (snd (channel_close c s), Some (CloseLog c))
  | CloseLog c =>
      (snd (log_info (LogDisposed c) s), None)
  | ShutLog =>
      (snd (log_info LogShuttingDown s), Some (ShutLoop 0))
  | ShutLoop i =>
      match _data_request_channels s !! i with
      | Some c => (snd (channel_close c s), Some (ShutLoop (S i)))
      | None => (s, Some ShutClear)
      end
  | ShutClear =>
      (with_channels (fun _ => []) s, Some ShutLocal)
  | ShutLocal =>
      (with_local (fun _ => ∅) s, None)
  end.

(** The method an operation enters and its first statement. *)
Definition entry (o : Op) : option (Method * Pc) :=
  match o with
  | OpGetData => Some (MGetData, GetStub GData)
  | OpGetBblfsh => Some (MGetBblfsh, GetStub GBblfsh)
  | OpCloseChannel => Some (MCloseChannel, CloseRead)
  | OpShutdown => Some (MShutdown, ShutLog)
  | OpThreadExit => None
  end.

(** The session and, for each thread inside a method, where it stands. *)
Definition Config : Type := State * gmap nat Pc.

(** What the scheduler can do: let an idle thread call a method (or end),
    or let a thread that is inside a method run its next statement. *)
Inductive Action :=
  | Call (t : Tid) (o : Op)
  | Step (t : Tid).

Definition act (a : Action) (cfg : Config) : option Config :=
  let (s, pcs) := cfg in
  match a with
  | Call t o =>
      match pcs !! t with
      | Some _ => None
      | None =>
          match entry o with
          | Some (m, pc) => Some (snd (enter t m s), <[t := pc]> pcs)
          | None => Some (thread_exit t s, pcs)
          end
      end
  | Step t =>
      match pcs !! t with
      | None => None
      | Some pc =>
          let (s', next) := step t pc s in
          match next with
          | Some pc' => Some (s', <[t := pc']> pcs)
          | None => Some (s', delete t pcs)
          end
      end
  end.

Fixpoint run_schedule (sched : list Action) (cfg : Config) : option Config :=
  match sched with
  | [] => Some cfg
  | a :: rest =>
      match act a cfg with
      | Some cfg' => run_schedule rest cfg'
      | None => None
      end
  end.

(** Thread [t], standing at [pc] in state [s] and running alone, returns
    from its method after [n] statements, in state [s']. *)
Inductive finishes (t : Tid) : Pc -> State -> nat -> State -> Prop :=
  | finishes_last pc s s' :
      step t pc s = (s', None) -> finishes t pc s 1 s'
  | finishes_next pc s s1 pc1 n s' :
      step t pc s = (s1, Some pc1) -> finishes t pc1 s1 n s' ->
      finishes t pc s (S n) s'.

(** One whole operation of thread [t] with nothing in between: the call and
    [n] statements. *)
Definition alone (t : Tid) (o : Op) (n : nat) : list Action :=
  Call t o :: replicate n (Step t).

(** A schedule in which operations never overlap. *)
Inductive serial_schedule : list Action -> Prop :=
  | serial_nil : serial_schedule []
  | serial_app t o n rest :
      serial_schedule rest -> serial_schedule (alone t o n ++ rest).

(** The next statement of a thread reads or writes the registry list. *)
Definition registry_access (pc : Pc) : bool :=
  match pc with
  | AppendChannel _ _ | CloseRemove _ | ShutLoop _ | ShutClear => true
  | _ => false
  end.

(** A thread is in the middle of its pass over the registry: [shutdown] has
    begun the loop and has not yet run [clear()].  ([_get_channel] and
    [close_channel] touch the registry in one statement only.) *)
Definition inside_registry_operation (pc : Pc) : bool :=
  match pc with
  | ShutLoop (S _) | ShutClear => true
  | _ => false
  end.

(** What a mutex around the registry operations would mean: while one
    thread is in the middle of its pass over the registry, a statement of
    another thread that touches the registry cannot be scheduled. *)
Definition registry_exclusive : Prop :=
  forall address faults sched s pcs t1 t2 pc1 pc2,
    run_schedule sched (DataService__init__ address faults, ∅) = Some (s, pcs) ->
    t1 <> t2 ->
    pcs !! t1 = Some pc1 -> inside_registry_operation pc1 = true ->
    pcs !! t2 = Some pc2 -> registry_access pc2 = true ->
    act (Step t2) (s, pcs) = None.

(** Whatever the scheduler does, once every thread is back outside the
    methods the session is in a state that whole operations, run one after
    the other, can produce. *)
Definition serializable : Prop :=
  forall address faults sched s,
    run_schedule sched (DataService__init__ address faults, ∅) = Some (s, ∅) ->
    reachable s.

(** A schedule that puts a whole [get_data] of thread 2 between the loop and
    the [clear()] of a [shutdown] of thread 1. *)
Definition lost_channel_schedule : list Action :=
  [Call 1 OpShutdown; Step 1; Step 1;
   Call 2 OpGetData; Step 2; Step 2; Step 2; Step 2; Step 2; Step 2;
   Step 1; Step 1].

End Interleaving.

(** ** Parsing one file *)

(** [bblfsh.aliases.ParseRequest] and the two fields of the response that
    [parse_uast] reads. *)
Record ParseRequest := mkParseRequest {
  pr_filename : string;
  pr_content : string;
  pr_language : option string
}.

Record ParseResponse (N : Type) := mkParseResponse {
  uast : N;
  errors : list string
}.
Arguments mkParseResponse {N}.
Arguments uast {N}.
Arguments errors {N}.

(** What [parse_uast] imports: the UAST node type, the unary [Parse] call of
    the Babelfish stub, and [BytesToUnicodeConverter(code.encode())
    .convert_uast] (building the converter or converting may raise). *)
Class ParseApi := {
  Node : Type;
  Parse : ProtocolServiceStub -> ParseRequest -> Result (ParseResponse Node);
  convert_uast : string -> Node -> Result Node
}.

(** [os.path.basename] on POSIX: what follows the last slash. *)
Fixpoint basename_from (p cur : string) : string :=
  match p with
  | EmptyString => cur
  | String a p' =>
      if Ascii.eqb a "/"%char then basename_from p' EmptyString
      else basename_from p' (String.append cur (String a EmptyString))
  end.
Definition basename (p : string) : string := basename_from p EmptyString.

(** The path has a slash in it. *)
Fixpoint has_slash (p : string) : bool :=
  match p with
  | EmptyString => false
  | String a p' => Ascii.eqb a "/"%char || has_slash p'
  end.

(** [parse_uast], lines 348-368. *)
Definition parse_uast `{ParseApi} (stub : ProtocolServiceStub) (code filename : string)
    (unicode : bool) (language : option string) : Result (Node * list string) :=
  let request := mkParseRequest (basename filename) code language in
  match Parse stub request with
  | Raise e => Raise e
  | Ok response =>
      let u := uast response in
      if unicode then
        match convert_uast code u with
        | Raise e => Raise e
        | Ok u' => Ok (u', errors response)
        end
      else Ok (u, errors response)
  end.

(** A parse service for the examples: the tree is the name of the file it
    was asked to parse, every file has one diagnostic, and the converter
    puts a mark in front of the tree. *)
Definition sample_parse : ParseApi := {|
  Node := string;
  Parse := fun _ request =>
    Ok (mkParseResponse (pr_filename request) ["unexpected token"]);
  convert_uast := fun _ u => Ok (String.append "u:" u)
|}.

(** Hosts for the examples in which one kind of outside call raises. *)
Module SampleFaults.

Definition host_error : Exception := mkException (OtherError "RuntimeError") [PStr "host"].

Definition failing (bad : ContextManager.HostEvent -> bool) : ContextManager.HostEnv := {|
  ContextManager.Analyzer := string;
  ContextManager.CompletedProcess := nat;
  ContextManager.host_fault := fun _ ev => if bad ev then Some host_error else None;
  ContextManager.find_port_value := fun h => 4000 + length h;
  ContextManager.check_port_free_value := fun _ _ => true;
  ContextManager.completed := fun h _ => length h;
  ContextManager.sdk_truth := true;
  ContextManager.session_faults := []
|}.

Definition is_listener_stop (ev : ContextManager.HostEvent) : bool :=
  match ev with
  | ContextManager.HListenerStop => true
  | _ => false
  end.

Definition is_listener_start (ev : ContextManager.HostEvent) : bool :=
  match ev with
  | ContextManager.HListenerStart => true
  | _ => false
  end.

(** A host on which the port found at construction is taken by the time
    the block is entered. *)
Definition port_taken : ContextManager.HostEnv := {|
  ContextManager.Analyzer := string;
  ContextManager.CompletedProcess := nat;
  ContextManager.host_fault := fun _ _ => None;
  ContextManager.find_port_value := fun h => 4000 + length h;
  ContextManager.check_port_free_value := fun _ _ => false;
  ContextManager.completed := fun h _ => length h;
  ContextManager.sdk_truth := true;
  ContextManager.session_faults := []
|}.

End SampleFaults.

(** * Properties *)

(** ** Lists and histories *)

Lemma py_list_remove_elem_of x l :
  x ∈ l -> is_Some (py_list_remove x l).
Proof.
  induction l as [|y l IH]; intros Hin.
  - by apply elem_of_nil in Hin.
  - simpl. destruct (decide (y = x)) as [->|Hne]; [by eexists|].
    apply elem_of_cons in Hin as [->|Hin]; [done|].
    destruct (IH Hin) as [r ->]. by eexists.
Qed.

Lemma py_list_remove_None x l :
  py_list_remove x l = None <-> (x ∉ l).
Proof.
  split.
  - intros Hn Hin. apply py_list_remove_elem_of in Hin as [r Hr]. congruence.
  - induction l as [|y l IH]; intros Hnin; [done|].
    simpl. apply not_elem_of_cons in Hnin as [Hne Hnin].
    destruct (decide (y = x)); [congruence|]. by rewrite IH.
Qed.

Lemma py_list_remove_spec x l r :
  NoDup l -> py_list_remove x l = Some r ->
  NoDup r /\ (x ∉ r) /\ (x ∈ l) /\ (forall y, y ∈ r <-> (y ∈ l) /\ y <> x).
Proof.
  revert r. induction l as [|y l IH]; intros r Hnd Hr; [done|].
  apply NoDup_cons in Hnd as [Hy Hnd]. simpl in Hr.
  destruct (decide (y = x)) as [->|Hne].
  - injection Hr as <-. split; [done|]. split; [done|]. split; [by left|].
    intros z. split.
    + intros Hz. split; [by right|]. intros ->. done.
    + intros [Hz Hzx]. apply elem_of_cons in Hz as [?|?]; [done|done].
  - destruct (py_list_remove x l) as [r'|] eqn:Hr'; [|done].
    injection Hr as <-.
    destruct (IH r' Hnd eq_refl) as (Hnd' & Hx & Hxl & Hiff).
    split; [|split; [|split; [|intros z; split]]].
    + apply NoDup_cons. split; [|done]. intros Hin. apply Hiff in Hin as [? _]. done.
    + apply not_elem_of_cons. split; [congruence|done].
    + by right.
    + intros Hz. apply elem_of_cons in Hz as [->|Hz].
      * split; [by left|done].
      * apply Hiff in Hz as [? ?]. split; [by right|done].
    + intros [Hz Hzx]. apply elem_of_cons in Hz as [->|Hz]; [by left|].
      right. apply Hiff. done.
Qed.

Lemma closed_count_app c tr1 tr2 :
  closed_count c (tr1 ++ tr2) = closed_count c tr1 + closed_count c tr2.
Proof. unfold closed_count. by rewrite filter_app, length_app. Qed.

Lemma closed_count_closed c c' :
  closed_count c [EvClosed c'] = if decide (c' = c) then 1 else 0.
Proof.
  unfold closed_count. rewrite filter_cons, filter_nil.
  destruct (decide (EvClosed c' = EvClosed c)) as [Heq|Hne];
    destruct (decide (c' = c)) as [->|Hne']; simpl; congruence.
Qed.

Lemma closed_count_log c r : closed_count c [EvLog r] = 0.
Proof. reflexivity. Qed.

Lemma closed_count_map_not_in c l :
  c ∉ l -> closed_count c (map EvClosed l) = 0.
Proof.
  induction l as [|y l IH]; intros Hnin; [done|].
  apply not_elem_of_cons in Hnin as [Hne Hnin].
  change (map EvClosed (y :: l)) with ([EvClosed y] ++ map EvClosed l).
  rewrite closed_count_app, closed_count_closed, IH by done.
  destruct (decide (y = c)); [congruence|done].
Qed.

Lemma closed_count_map_NoDup c l :
  NoDup l -> c ∈ l -> closed_count c (map EvClosed l) = 1.
Proof.
  induction l as [|y l IH]; intros Hnd Hin; [by apply elem_of_nil in Hin|].
  apply NoDup_cons in Hnd as [Hy Hnd].
  change (map EvClosed (y :: l)) with ([EvClosed y] ++ map EvClosed l).
  rewrite closed_count_app, closed_count_closed.
  destruct (decide (y = c)) as [->|Hne].
  - by rewrite closed_count_map_not_in.
  - apply elem_of_cons in Hin as [->|Hin]; [done|]. by rewrite IH.
Qed.

Lemma opened_app c tr1 tr2 :
  opened c (tr1 ++ tr2) <-> opened c tr1 \/ opened c tr2.
Proof.
  unfold opened. split.
  - intros [t Ht]. apply elem_of_app in Ht as [?|?]; [left|right]; by exists t.
  - intros [[t Ht]|[t Ht]]; exists t; apply elem_of_app; [by left|by right].
Qed.

Lemma opened_closed_map c l : ~ opened c (map EvClosed l).
Proof.
  intros [t Ht]. apply list_elem_of_fmap in Ht as (y & Hy & _). done.
Qed.

Lemma opened_log c r : ~ opened c [EvLog r].
Proof. intros [t Ht]. apply list_elem_of_singleton in Ht. done. Qed.

(** ** The methods, case by case *)

Ltac munfold :=
  unfold mbind, mret, M_bind, M_ret, enter, log_info, channel_close,
    getattr_local, setattr_local, emit, gets, modify, raise, lift_result.

Lemma create_channel_fault t a s e :
  next_fault s = Some e ->
  create_channel t a s =
    (Raise e, mkState (_data_request_local s) (_data_request_channels s)
                (_data_request_address s) (next_channel_id s)
                (tail (transport_faults s)) (trace s) (calls s)).
Proof.
  unfold next_fault, create_channel. intros Hf.
  destruct (transport_faults s) as [|[e'|] r]; congruence.
Qed.

Lemma create_channel_ok t a s :
  next_fault s = None ->
  create_channel t a s =
    (Ok (mkChannel (next_channel_id s) a),
     mkState (_data_request_local s) (_data_request_channels s)
       (_data_request_address s) (S (next_channel_id s))
       (tail (transport_faults s))
       (trace s ++ [EvOpened t (mkChannel (next_channel_id s) a)]) (calls s)).
Proof.
  unfold next_fault, create_channel. intros Hf.
  destruct (transport_faults s) as [|[e'|] r]; congruence.
Qed.

(** The state after thread [t] has opened a channel through [_get_channel]. *)
Lemma _get_channel_cached t s c :
  channel (local_of t s) = Some c -> _get_channel t s = (Ok c, s).
Proof. intros Hc. unfold _get_channel. munfold. simpl. by rewrite Hc. Qed.

Lemma _get_channel_fault t s e :
  channel (local_of t s) = None -> next_fault s = Some e ->
  _get_channel t s =
    (Raise e, mkState (_data_request_local s) (_data_request_channels s)
                (_data_request_address s) (next_channel_id s)
                (tail (transport_faults s)) (trace s) (calls s)).
Proof.
  intros Hc Hf. unfold _get_channel. munfold. simpl. rewrite Hc.
  by rewrite (create_channel_fault _ _ _ e).
Qed.

Lemma _get_channel_fresh t s :
  channel (local_of t s) = None -> next_fault s = None ->
  let c := mkChannel (next_channel_id s) (_data_request_address s) in
  _get_channel t s =
    (Ok c, mkState (<[t := set_channel (Some c) (local_of t s)]> (_data_request_local s))
             (_data_request_channels s ++ [c])
             (_data_request_address s) (S (next_channel_id s))
             (tail (transport_faults s))
             (trace s ++ [EvOpened t c; EvLog (LogOpened c)]) (calls s)).
Proof.
  intros Hc Hf c. unfold _get_channel. munfold. simpl. rewrite Hc.
  rewrite create_channel_ok by done. simpl. unfold with_trace, with_channels, with_local. simpl.
  by rewrite <- app_assoc.
Qed.

(** ** The invariant is kept by every step *)

Lemma closed_count_pos_elem_of c tr :
  closed_count c tr <> 0 -> EvClosed c ∈ tr.
Proof.
  unfold closed_count. intros Hc.
  destruct (filter (fun ev => ev = EvClosed c) tr) as [|ev l] eqn:Hf; [done|].
  assert (Hin : ev ∈ filter (fun ev => ev = EvClosed c) tr) by (rewrite Hf; left).
  apply list_elem_of_filter in Hin as [-> Hin]. done.
Qed.

Lemma closed_count_not_opened s c :
  session_inv s -> ~ opened c (trace s) -> closed_count c (trace s) = 0.
Proof.
  intros Hinv Hno. destruct (closed_count c (trace s)) eqn:Hc; [done|].
  exfalso. apply Hno. apply (inv_closed_opened s Hinv).
  apply closed_count_pos_elem_of. lia.
Qed.

(** The channel that [create_channel] returns next has never been seen. *)
Lemma next_channel_not_opened s a :
  session_inv s -> ~ opened (mkChannel (next_channel_id s) a) (trace s).
Proof.
  intros Hinv [t Ht]. apply (inv_opened_id s Hinv) in Ht as [Hlt _]. simpl in Hlt. lia.
Qed.

Lemma next_channel_not_registered s a :
  session_inv s -> mkChannel (next_channel_id s) a ∉ _data_request_channels s.
Proof.
  intros Hinv Hin. apply (inv_registry_opened s Hinv) in Hin.
  by apply (next_channel_not_opened s a Hinv).
Qed.

Lemma session_inv_init address faults :
  session_inv (DataService__init__ address faults).
Proof.
  constructor; simpl.
  - constructor.
  - intros c Hc. by apply elem_of_nil in Hc.
  - done.
  - intros t c Hc. by apply elem_of_nil in Hc.
  - intros c Hc. by apply elem_of_nil in Hc.
  - intros c [t Ht]. by apply elem_of_nil in Ht.
  - intros t c. unfold local_of. simpl. by rewrite lookup_empty.
  - intros t. unfold local_of. simpl. rewrite lookup_empty. by split.
  - intros t1 t2 c. unfold local_of. simpl. by rewrite lookup_empty.
Qed.

(** The call log and the fault script are not part of the invariant. *)
Lemma session_inv_frame s cs fs :
  session_inv s ->
  session_inv (mkState (_data_request_local s) (_data_request_channels s)
                 (_data_request_address s) (next_channel_id s) fs (trace s) cs).
Proof. intros []. by constructor. Qed.

Lemma session_inv_open t s fs :
  session_inv s -> channel (local_of t s) = None ->
  let c := mkChannel (next_channel_id s) (_data_request_address s) in
  session_inv
    (mkState (<[t := set_channel (Some c) (local_of t s)]> (_data_request_local s))
       (_data_request_channels s ++ [c])
       (_data_request_address s) (S (next_channel_id s)) fs
       (trace s ++ [EvOpened t c; EvLog (LogOpened c)]) (calls s)).
Proof.
  intros Hinv Hnone c.
  pose proof (next_channel_not_opened s (_data_request_address s) Hinv) as Hfresh.
  pose proof (next_channel_not_registered s (_data_request_address s) Hinv) as Hnreg.
  fold c in Hfresh, Hnreg.
  assert (Hloc : forall t', default empty_local
            (<[t := set_channel (Some c) (local_of t s)]> (_data_request_local s) !! t') =
            if decide (t = t') then set_channel (Some c) (local_of t s) else local_of t' s).
  { intros t'. destruct (decide (t = t')) as [->|Hne].
    - by rewrite lookup_insert_eq.
    - by rewrite lookup_insert_ne. }
  constructor; simpl.
  - apply NoDup_app. split; [apply (inv_nodup s Hinv)|]. split.
    + intros x Hx Hx'. apply list_elem_of_singleton in Hx'. by subst.
    + apply NoDup_singleton.
  - intros c' Hc'. apply opened_app. apply elem_of_app in Hc' as [Hc'|Hc'].
    + left. by apply (inv_registry_opened s Hinv).
    + right. apply list_elem_of_singleton in Hc' as ->. exists t. left.
  - intros c' Hc'. rewrite closed_count_app. simpl.
    apply elem_of_app in Hc' as [Hc'|Hc'].
    + by rewrite (inv_registry_live s Hinv).
    + apply list_elem_of_singleton in Hc' as ->.
      by rewrite (closed_count_not_opened s c Hinv).
  - intros t' c' Hc'. apply elem_of_app in Hc' as [Hc'|Hc'].
    + apply (inv_opened_id s Hinv) in Hc' as [? ?]. split; [lia|done].
    + apply elem_of_cons in Hc' as [Hc'|Hc'].
      * injection Hc' as -> ->. simpl. split; [lia|done].
      * apply list_elem_of_singleton in Hc'. done.
  - intros c' Hc'. apply elem_of_app in Hc' as [Hc'|Hc'].
    + apply opened_app. left. by apply (inv_closed_opened s Hinv).
    + apply elem_of_cons in Hc' as [Hc'|Hc']; [done|].
      apply list_elem_of_singleton in Hc'. done.
  - intros c' Hc'. rewrite closed_count_app. simpl. rewrite Nat.add_0_r.
    apply opened_app in Hc' as [Hc'|[t' Hc']].
    + destruct (inv_accounted s Hinv c' Hc') as [Hin|Hcl]; [left|by right].
      apply elem_of_app. by left.
    + left. apply elem_of_app. right. apply elem_of_cons in Hc' as [Hc'|Hc'].
      * injection Hc' as -> ->. left.
      * apply list_elem_of_singleton in Hc'. done.
  - intros t' c'. unfold local_of. simpl. rewrite Hloc.
    destruct (decide (t = t')) as [->|Hne]; simpl.
    + intros [= <-]. apply elem_of_app. right. left.
    + intros Hc'. apply elem_of_app. left. by apply (inv_slot_registered s Hinv t').
  - intros t'. unfold local_of. simpl. rewrite Hloc.
    destruct (decide (t = t')) as [->|Hne]; [|apply (inv_slot_coherent s Hinv)].
    destruct (inv_slot_coherent s Hinv t') as [Hd Hb].
    split; simpl; intros st Hst.
    + apply Hd in Hst. congruence.
    + apply Hb in Hst. congruence.
  - intros t1 t2 c'. unfold local_of. simpl. rewrite !Hloc.
    destruct (decide (t = t1)) as [->|Hne1]; destruct (decide (t1 = t2)) as [->|Hne2];
      try done; simpl.
    + destruct (decide (t1 = t2)); [done|]. intros [= <-] Hc2.
      exfalso. apply Hnreg. by apply (inv_slot_registered s Hinv t2).
    + destruct (decide (t = t2)) as [->|Hne3]; [|apply (inv_slot_private s Hinv)].
      simpl. intros Hc1 [= <-].
      exfalso. apply Hnreg. by apply (inv_slot_registered s Hinv t1).
Qed.

Lemma session_inv_store t s l' :
  session_inv s ->
  channel l' = channel (local_of t s) ->
  slot_coherent l' ->
  session_inv (with_local (fun m => <[t := l']> m) s).
Proof.
  intros Hinv Hch Hco.
  assert (Hloc : forall t', local_of t' (with_local (fun m => <[t := l']> m) s) =
            if decide (t = t') then l' else local_of t' s).
  { intros t'. unfold local_of. simpl. destruct (decide (t = t')) as [->|Hne].
    - by rewrite lookup_insert_eq.
    - by rewrite lookup_insert_ne. }
  constructor; try (destruct Hinv; done).
  - intros t' c. rewrite Hloc. destruct (decide (t = t')) as [->|Hne].
    + rewrite Hch. apply (inv_slot_registered s Hinv).
    + apply (inv_slot_registered s Hinv).
  - intros t'. rewrite Hloc. destruct (decide (t = t')); [done|].
    apply (inv_slot_coherent s Hinv).
  - intros t1 t2 c. rewrite !Hloc.
    destruct (decide (t = t1)) as [<-|Hne1]; destruct (decide (t = t2)) as [<-|Hne2];
      try done; rewrite ?Hch; apply (inv_slot_private s Hinv).
Qed.

Lemma session_inv_close t s c l' :
  session_inv s ->
  channel (local_of t s) = Some c ->
  py_list_remove c (_data_request_channels s) = Some l' ->
  session_inv
    (mkState (<[t := empty_local]> (_data_request_local s)) l'
       (_data_request_address s) (next_channel_id s) (transport_faults s)
       (trace s ++ [EvClosed c; EvLog (LogDisposed c)]) (calls s)).
Proof.
  intros Hinv Hc Hr.
  destruct (py_list_remove_spec c _ l' (inv_nodup s Hinv) Hr) as (Hnd & Hnin & Hin & Hiff).
  assert (Hloc : forall t', default empty_local
            (<[t := empty_local]> (_data_request_local s) !! t') =
            if decide (t = t') then empty_local else local_of t' s).
  { intros t'. destruct (decide (t = t')) as [->|Hne].
    - by rewrite lookup_insert_eq.
    - by rewrite lookup_insert_ne. }
  assert (Hcnt : forall c', closed_count c' [EvClosed c; EvLog (LogDisposed c)] =
                   if decide (c = c') then 1 else 0).
  { intros c'. change [EvClosed c; EvLog (LogDisposed c)]
      with ([EvClosed c] ++ [EvLog (LogDisposed c)]).
    rewrite closed_count_app, closed_count_closed, closed_count_log. lia. }
  constructor; simpl.
  - done.
  - intros c' Hc'. apply opened_app. left. apply (inv_registry_opened s Hinv).
    by apply Hiff in Hc' as [? _].
  - intros c' Hc'. apply Hiff in Hc' as [Hc' Hne].
    rewrite closed_count_app, Hcnt, (inv_registry_live s Hinv) by done.
    destruct (decide (c = c')); [congruence|done].
  - intros t' c' Hc'. apply elem_of_app in Hc' as [Hc'|Hc'].
    + by apply (inv_opened_id s Hinv) in Hc'.
    + apply elem_of_cons in Hc' as [Hc'|Hc']; [done|].
      apply list_elem_of_singleton in Hc'. done.
  - intros c' Hc'. apply opened_app. left. apply elem_of_app in Hc' as [Hc'|Hc'].
    + by apply (inv_closed_opened s Hinv).
    + apply elem_of_cons in Hc' as [Hc'|Hc'].
      * injection Hc' as ->. by apply (inv_registry_opened s Hinv).
      * apply list_elem_of_singleton in Hc'. done.
  - intros c' Hc'. rewrite closed_count_app, Hcnt.
    apply opened_app in Hc' as [Hc'|[t' Hc']].
    + destruct (decide (c = c')) as [<-|Hne].
      * right. by rewrite (inv_registry_live s Hinv).
      * destruct (inv_accounted s Hinv c' Hc') as [Hreg|Hcl]; [left|right; lia].
        apply Hiff. split; [done|congruence].
    + apply elem_of_cons in Hc' as [Hc'|Hc']; [done|].
      apply list_elem_of_singleton in Hc'. done.
  - intros t' c'. unfold local_of. simpl. rewrite Hloc.
    destruct (decide (t = t')) as [->|Hne]; [done|].
    intros Hc'. apply Hiff. split; [by apply (inv_slot_registered s Hinv t')|].
    intros ->. apply Hne. by apply (inv_slot_private s Hinv t t' c).
  - intros t'. unfold local_of. simpl. rewrite Hloc.
    destruct (decide (t = t')); [by split|]. apply (inv_slot_coherent s Hinv).
  - intros t1 t2 c'. unfold local_of. simpl. rewrite !Hloc.
    destruct (decide (t = t1)); [done|]. destruct (decide (t = t2)); [done|].
    apply (inv_slot_private s Hinv).
Qed.

Lemma session_inv_shutdown s :
  session_inv s ->
  session_inv
    (mkState ∅ [] (_data_request_address s) (next_channel_id s) (transport_faults s)
       ((trace s ++ [EvLog LogShuttingDown]) ++ map EvClosed (_data_request_channels s))
       (calls s)).
Proof.
  intros Hinv.
  constructor; simpl.
  - constructor.
  - intros c Hc. by apply elem_of_nil in Hc.
  - intros c Hc. by apply elem_of_nil in Hc.
  - intros t c Hc. apply elem_of_app in Hc as [Hc|Hc].
    + apply elem_of_app in Hc as [Hc|Hc]; [by apply (inv_opened_id s Hinv) in Hc|].
      apply list_elem_of_singleton in Hc. done.
    + apply list_elem_of_fmap in Hc as (y & Hy & _). done.
  - intros c Hc. rewrite <- app_assoc. apply opened_app. left.
    apply elem_of_app in Hc as [Hc|Hc].
    + apply elem_of_app in Hc as [Hc|Hc]; [by apply (inv_closed_opened s Hinv)|].
      apply list_elem_of_singleton in Hc. done.
    + apply list_elem_of_fmap in Hc as (y & [= ->] & Hy).
      by apply (inv_registry_opened s Hinv).
  - intros c Hc. right. rewrite !closed_count_app, closed_count_log, Nat.add_0_r.
    apply opened_app in Hc as [Hc|Hc]; [|by apply opened_closed_map in Hc].
    apply opened_app in Hc as [Hc|Hc]; [|by apply opened_log in Hc].
    destruct (inv_accounted s Hinv c Hc) as [Hreg|Hcl].
    + rewrite (inv_registry_live s Hinv) by done.
      by rewrite closed_count_map_NoDup by (done || apply (inv_nodup s Hinv)).
    + rewrite Hcl. rewrite closed_count_map_not_in; [done|].
      intros Hreg. apply (inv_registry_live s Hinv) in Hreg. lia.
  - intros t c. unfold local_of. simpl. by rewrite lookup_empty.
  - intros t. unfold local_of. simpl. rewrite lookup_empty. by split.
  - intros t1 t2 c. unfold local_of. simpl. by rewrite lookup_empty.
Qed.

Lemma session_inv_thread_exit t s :
  session_inv s -> session_inv (thread_exit t s).
Proof.
  intros Hinv.
  assert (Hloc : forall t', local_of t' (thread_exit t s) =
            if decide (t = t') then empty_local else local_of t' s).
  { intros t'. unfold local_of. simpl. destruct (decide (t = t')) as [->|Hne].
    - by rewrite lookup_delete_eq.
    - by rewrite lookup_delete_ne. }
  constructor; try (destruct Hinv; done).
  - intros t' c. rewrite Hloc. destruct (decide (t = t')); [done|].
    apply (inv_slot_registered s Hinv).
  - intros t'. rewrite Hloc. destruct (decide (t = t')); [by split|].
    apply (inv_slot_coherent s Hinv).
  - intros t1 t2 c. rewrite !Hloc.
    destruct (decide (t = t1)); [done|]. destruct (decide (t = t2)); [done|].
    apply (inv_slot_private s Hinv).
Qed.

Lemma _get_channel_inv t s :
  session_inv s ->
  session_inv (snd (_get_channel t s)) /\
  forall c, fst (_get_channel t s) = Ok c ->
    channel (local_of t (snd (_get_channel t s))) = Some c.
Proof.
  intros Hinv. destruct (channel (local_of t s)) as [c|] eqn:Hc.
  - rewrite (_get_channel_cached t s c Hc). simpl. split; [done|]. by intros c' [= <-].
  - destruct (next_fault s) as [e|] eqn:Hf.
    + rewrite (_get_channel_fault t s e Hc Hf). simpl. split; [|done].
      by apply session_inv_frame.
    + rewrite (_get_channel_fresh t s Hc Hf). simpl. split.
      * by apply session_inv_open.
      * intros c [= <-]. unfold local_of. simpl. by rewrite lookup_insert_eq.
Qed.

Lemma local_of_calls t f s : local_of t (with_calls f s) = local_of t s.
Proof. reflexivity. Qed.

Lemma get_data_cached t s st :
  data_stub (local_of t s) = Some st ->
  get_data t s = (Ok st, with_calls (fun cs => cs ++ [(t, MGetData)]) s).
Proof. intros Hst. unfold get_data. munfold. simpl. by rewrite local_of_calls, Hst. Qed.

Lemma get_data_build t s :
  data_stub (local_of t s) = None ->
  get_data t s =
    match _get_channel t (with_calls (fun cs => cs ++ [(t, MGetData)]) s) with
    | (Ok c, s') =>
        (Ok (mkDataStub c),
         with_local (fun m => <[t := set_data_stub (Some (mkDataStub c)) (local_of t s')]> m) s')
    | (Raise e, s') => (Raise e, s')
    end.
Proof.
  intros Hst. unfold get_data. munfold. simpl. rewrite local_of_calls, Hst.
  by destruct (_get_channel t _) as [[c|e] s'].
Qed.

Lemma get_bblfsh_cached t s st :
  bblfsh_stub (local_of t s) = Some st ->
  get_bblfsh t s = (Ok st, with_calls (fun cs => cs ++ [(t, MGetBblfsh)]) s).
Proof. intros Hst. unfold get_bblfsh. munfold. simpl. by rewrite local_of_calls, Hst. Qed.

Lemma get_bblfsh_build t s :
  bblfsh_stub (local_of t s) = None ->
  get_bblfsh t s =
    match _get_channel t (with_calls (fun cs => cs ++ [(t, MGetBblfsh)]) s) with
    | (Ok c, s') =>
        (Ok (mkProtocolServiceStub c),
         with_local
           (fun m => <[t := set_bblfsh_stub (Some (mkProtocolServiceStub c)) (local_of t s')]> m) s')
    | (Raise e, s') => (Raise e, s')
    end.
Proof.
  intros Hst. unfold get_bblfsh. munfold. simpl. rewrite local_of_calls, Hst.
  by destruct (_get_channel t _) as [[c|e] s'].
Qed.

Lemma session_inv_calls f s : session_inv s -> session_inv (with_calls f s).
Proof. intros []. by constructor. Qed.

Lemma get_data_inv t s : session_inv s -> session_inv (snd (get_data t s)).
Proof.
  intros Hinv. destruct (data_stub (local_of t s)) as [st|] eqn:Hst.
  - rewrite (get_data_cached t s st Hst). by apply session_inv_calls.
  - rewrite (get_data_build t s Hst).
    pose proof (_get_channel_inv t _ (session_inv_calls (fun cs => cs ++ [(t, MGetData)]) s Hinv))
      as [Hinv' Hch].
    destruct (_get_channel t _) as [[c|e] s']; simpl in *; [|done].
    specialize (Hch c eq_refl).
    apply session_inv_store; [done|done|].
    destruct (inv_slot_coherent s' Hinv' t) as [Hd Hb].
    split; simpl; [by intros st [= <-]|done].
Qed.

Lemma get_bblfsh_inv t s : session_inv s -> session_inv (snd (get_bblfsh t s)).
Proof.
  intros Hinv. destruct (bblfsh_stub (local_of t s)) as [st|] eqn:Hst.
  - rewrite (get_bblfsh_cached t s st Hst). by apply session_inv_calls.
  - rewrite (get_bblfsh_build t s Hst).
    pose proof (_get_channel_inv t _ (session_inv_calls (fun cs => cs ++ [(t, MGetBblfsh)]) s Hinv))
      as [Hinv' Hch].
    destruct (_get_channel t _) as [[c|e] s']; simpl in *; [|done].
    specialize (Hch c eq_refl).
    apply session_inv_store; [done|done|].
    destruct (inv_slot_coherent s' Hinv' t) as [Hd Hb].
    split; simpl; [done|by intros st [= <-]].
Qed.

Lemma close_channel_none t s :
  channel (local_of t s) = None ->
  close_channel t s = (Ok tt, with_calls (fun cs => cs ++ [(t, MCloseChannel)]) s).
Proof. intros Hc. unfold close_channel. munfold. simpl. by rewrite local_of_calls, Hc. Qed.

Lemma close_channel_some t s c l' :
  channel (local_of t s) = Some c ->
  py_list_remove c (_data_request_channels s) = Some l' ->
  close_channel t s =
    (Ok tt, mkState (<[t := empty_local]> (_data_request_local s)) l'
              (_data_request_address s) (next_channel_id s) (transport_faults s)
              (trace s ++ [EvClosed c; EvLog (LogDisposed c)])
              (calls s ++ [(t, MCloseChannel)])).
Proof.
  intros Hc Hr. unfold close_channel. munfold. simpl. rewrite local_of_calls, Hc.
  simpl. rewrite Hr. simpl. unfold with_trace, with_local, with_channels, local_of. simpl.
  rewrite !lookup_insert_eq. simpl. rewrite !insert_insert_eq.
  by rewrite <- app_assoc.
Qed.

Lemma close_channel_unregistered t s c :
  channel (local_of t s) = Some c ->
  py_list_remove c (_data_request_channels s) = None ->
  close_channel t s =
    (Raise remove_error, with_calls (fun cs => cs ++ [(t, MCloseChannel)]) s).
Proof.
  intros Hc Hr. unfold close_channel. munfold. simpl. rewrite local_of_calls, Hc.
  simpl. by rewrite Hr.
Qed.

Lemma close_channel_inv t s : session_inv s -> session_inv (snd (close_channel t s)).
Proof.
  intros Hinv. destruct (channel (local_of t s)) as [c|] eqn:Hc.
  - destruct (py_list_remove_elem_of c _ (inv_slot_registered s Hinv t c Hc)) as [l' Hr].
    rewrite (close_channel_some t s c l' Hc Hr). simpl.
    apply (session_inv_frame _ (calls s ++ [(t, MCloseChannel)]) (transport_faults s)
             (session_inv_close t s c l' Hinv Hc Hr)).
  - rewrite (close_channel_none t s Hc). by apply session_inv_calls.
Qed.

Lemma close_all_trace l s :
  close_all l s = (Ok tt, with_trace (fun tr => tr ++ map EvClosed l) s).
Proof.
  revert s. induction l as [|c l IH]; intros s.
  - simpl. unfold mret, M_ret, with_trace. rewrite app_nil_r. by destruct s.
  - simpl. munfold. rewrite IH. unfold with_trace. simpl. by rewrite <- app_assoc.
Qed.

Lemma shutdown_eq t s :
  shutdown t s =
    (Ok tt, mkState ∅ [] (_data_request_address s) (next_channel_id s) (transport_faults s)
              ((trace s ++ [EvLog LogShuttingDown]) ++ map EvClosed (_data_request_channels s))
              (calls s ++ [(t, MShutdown)])).
Proof. unfold shutdown. munfold. simpl. by rewrite close_all_trace. Qed.

Lemma shutdown_inv t s : session_inv s -> session_inv (snd (shutdown t s)).
Proof.
  intros Hinv. rewrite shutdown_eq. simpl.
  apply (session_inv_frame _ (calls s ++ [(t, MShutdown)]) (transport_faults s)
           (session_inv_shutdown s Hinv)).
Qed.

Lemma exec_inv t o s : session_inv s -> session_inv (exec t o s).
Proof.
  intros Hinv. destruct o; simpl.
  - by apply get_data_inv.
  - by apply get_bblfsh_inv.
  - by apply close_channel_inv.
  - by apply shutdown_inv.
  - by apply session_inv_thread_exit.
Qed.

Lemma run_inv ops s : session_inv s -> session_inv (run ops s).
Proof.
  revert s. induction ops as [|[t o] ops IH]; intros s Hinv; [done|].
  simpl. apply IH. by apply exec_inv.
Qed.

(** Every state that a session can reach satisfies the invariant. *)
Lemma reachable_inv s : reachable s -> session_inv s.
Proof.
  intros (address & faults & ops & ->). apply run_inv, session_inv_init.
Qed.

Lemma reachable_init address faults : reachable (DataService__init__ address faults).
Proof. by exists address, faults, []. Qed.

Lemma reachable_exec t o s : reachable s -> reachable (exec t o s).
Proof.
  intros (address & faults & ops & ->). exists address, faults, (ops ++ [(t, o)]).
  unfold run. by rewrite foldl_app.
Qed.

(** ** The slot of a thread *)

Lemma local_of_store t t' l s :
  local_of t' (with_local (fun m => <[t := l]> m) s) =
  if decide (t = t') then l else local_of t' s.
Proof.
  unfold local_of. simpl. destruct (decide (t = t')) as [->|Hne].
  - by rewrite lookup_insert_eq.
  - by rewrite lookup_insert_ne.
Qed.

Lemma local_of_store_eq t l s :
  local_of t (with_local (fun m => <[t := l]> m) s) = l.
Proof. rewrite local_of_store. by destruct (decide (t = t)). Qed.

(** After the first [get_data()] of a thread its slot holds the channel and
    the data stub, and no Babelfish stub: neither empty nor full. *)
Lemma slot_partial_after_get_data :
  let s := run [(0, OpGetData)] (DataService__init__ "localhost:10301" []) in
  reachable s /\
  local_of 0 s =
    mkLocal (Some (mkChannel 0 "localhost:10301"))
            (Some (mkDataStub (mkChannel 0 "localhost:10301"))) None /\
  ~ (slot_empty 0 s \/ slot_full 0 s).
Proof.
  split; [|split].
  - by exists "localhost:10301", [], [(0, OpGetData)].
  - reflexivity.
  - intros [He|[c Hf]]; vm_compute in He || vm_compute in Hf; discriminate.
Qed.

(** C2, as the code has it.  In every state that calls of [get_data],
    [get_bblfsh], [close_channel] and [shutdown] by any threads (and thread
    exits) can reach, for every thread: the stubs in its slot are built on the
    slot's channel and there is no stub without a channel; the slot's channel
    is in the registry, was opened and has not been closed; no other thread's
    slot holds it; and a getter that returns hands out a stub built on the
    channel that the slot then holds, creating only its own stub. *)
Theorem slot_invariant (s : State) (t : Tid) :
  reachable s ->
  slot_coherent (local_of t s) /\
  (forall c, channel (local_of t s) = Some c ->
     (c ∈ _data_request_channels s) /\ opened c (trace s) /\
     closed_count c (trace s) = 0) /\
  (forall t' c, channel (local_of t s) = Some c ->
     channel (local_of t' s) = Some c -> t = t') /\
  (forall st, fst (get_data t s) = Ok st ->
     let s' := snd (get_data t s) in
     channel (local_of t s') = Some (data_stub_channel st) /\
     data_stub (local_of t s') = Some st /\
     bblfsh_stub (local_of t s') = bblfsh_stub (local_of t s)) /\
  (forall st, fst (get_bblfsh t s) = Ok st ->
     let s' := snd (get_bblfsh t s) in
     channel (local_of t s') = Some (bblfsh_stub_channel st) /\
     bblfsh_stub (local_of t s') = Some st /\
     data_stub (local_of t s') = data_stub (local_of t s)).
Proof.
  intros Hr. pose proof (reachable_inv s Hr) as Hinv.
  split; [apply (inv_slot_coherent s Hinv)|].
  split; [|split; [|split]].
  - intros c Hc. pose proof (inv_slot_registered s Hinv t c Hc) as Hreg.
    split; [done|]. split.
    + by apply (inv_registry_opened s Hinv).
    + by apply (inv_registry_live s Hinv).
  - intros t' c. apply (inv_slot_private s Hinv).
  - intros st. destruct (data_stub (local_of t s)) as [st0|] eqn:Hst.
    + rewrite (get_data_cached t s st0 Hst). simpl. intros [= <-].
      rewrite local_of_calls. split; [|done].
      by apply (inv_slot_coherent s Hinv t).
    + rewrite (get_data_build t s Hst).
      pose proof (_get_channel_inv t _
        (session_inv_calls (fun cs => cs ++ [(t, MGetData)]) s Hinv)) as [_ Hch].
      assert (Hb : forall c, fst (_get_channel t (with_calls (fun cs => cs ++ [(t, MGetData)]) s)) = Ok c ->
                bblfsh_stub (local_of t (snd (_get_channel t (with_calls (fun cs => cs ++ [(t, MGetData)]) s)))) =
                bblfsh_stub (local_of t s)).
      { intros c. destruct (channel (local_of t s)) as [c0|] eqn:Hc0.
        - by rewrite (_get_channel_cached t _ c0) by done.
        - destruct (next_fault s) as [e|] eqn:Hf.
          + by rewrite (_get_channel_fault t _ e) by done.
          + rewrite (_get_channel_fresh t _) by done. simpl. intros _.
            unfold local_of. simpl. by rewrite lookup_insert_eq. }
      destruct (_get_channel t _) as [[c|e] s']; simpl in *; [|done].
      intros [= <-]. specialize (Hch c eq_refl). specialize (Hb c eq_refl).
      rewrite !local_of_store_eq. simpl. done.
  - intros st. destruct (bblfsh_stub (local_of t s)) as [st0|] eqn:Hst.
    + rewrite (get_bblfsh_cached t s st0 Hst). simpl. intros [= <-].
      rewrite local_of_calls. split; [|done].
      by apply (inv_slot_coherent s Hinv t).
    + rewrite (get_bblfsh_build t s Hst).
      pose proof (_get_channel_inv t _
        (session_inv_calls (fun cs => cs ++ [(t, MGetBblfsh)]) s Hinv)) as [_ Hch].
      assert (Hb : forall c, fst (_get_channel t (with_calls (fun cs => cs ++ [(t, MGetBblfsh)]) s)) = Ok c ->
                data_stub (local_of t (snd (_get_channel t (with_calls (fun cs => cs ++ [(t, MGetBblfsh)]) s)))) =
                data_stub (local_of t s)).
      { intros c. destruct (channel (local_of t s)) as [c0|] eqn:Hc0.
        - by rewrite (_get_channel_cached t _ c0) by done.
        - destruct (next_fault s) as [e|] eqn:Hf.
          + by rewrite (_get_channel_fault t _ e) by done.
          + rewrite (_get_channel_fresh t _) by done. simpl. intros _.
            unfold local_of. simpl. by rewrite lookup_insert_eq. }
      destruct (_get_channel t _) as [[c|e] s']; simpl in *; [|done].
      intros [= <-]. specialize (Hch c eq_refl). specialize (Hb c eq_refl).
      rewrite !local_of_store_eq. simpl. done.
Qed.

Lemma slot_invariant_witness :
  let s := run [(0, OpGetData)] (DataService__init__ "localhost:10301" []) in
  reachable s /\
  slot_coherent (local_of 0 s) /\
  (forall t' c, channel (local_of 0 s) = Some c ->
     channel (local_of t' s) = Some c -> 0 = t').
Proof.
  intros s.
  assert (Hr : reachable s) by (exists "localhost:10301", [], [(0, OpGetData)]; reflexivity).
  split; [exact Hr|].
  destruct (slot_invariant s 0 Hr) as (H1 & _ & H3 & _).
  split; [exact H1|exact H3].
Defined.

(** ** Closing the channel of a thread *)

Lemma closed_count_close c c' :
  closed_count c' [EvClosed c; EvLog (LogDisposed c)] = if decide (c = c') then 1 else 0.
Proof.
  change [EvClosed c; EvLog (LogDisposed c)] with ([EvClosed c] ++ [EvLog (LogDisposed c)]).
  rewrite closed_count_app, closed_count_closed, closed_count_log. lia.
Qed.

(** A [get_data()] of a thread with an empty slot, when the transport
    delivers: a channel with a new identity, registered, and a stub on it. *)
Lemma get_data_fresh t s :
  channel (local_of t s) = None -> data_stub (local_of t s) = None ->
  next_fault s = None ->
  let c := mkChannel (next_channel_id s) (_data_request_address s) in
  get_data t s =
    (Ok (mkDataStub c),
     mkState (<[t := set_data_stub (Some (mkDataStub c)) (set_channel (Some c) (local_of t s))]>
                (_data_request_local s))
       (_data_request_channels s ++ [c])
       (_data_request_address s) (S (next_channel_id s))
       (tail (transport_faults s))
       (trace s ++ [EvOpened t c; EvLog (LogOpened c)])
       (calls s ++ [(t, MGetData)])).
Proof.
  intros Hc Hst Hf c. rewrite (get_data_build t s Hst).
  rewrite (_get_channel_fresh t _) by done. simpl.
  unfold with_local, local_of. simpl. rewrite lookup_insert_eq. simpl.
  by rewrite insert_insert_eq.
Qed.

Lemma get_data_fault t s e :
  channel (local_of t s) = None -> data_stub (local_of t s) = None ->
  next_fault s = Some e ->
  get_data t s =
    (Raise e,
     mkState (_data_request_local s) (_data_request_channels s)
       (_data_request_address s) (next_channel_id s)
       (tail (transport_faults s)) (trace s) (calls s ++ [(t, MGetData)])).
Proof.
  intros Hc Hst Hf. rewrite (get_data_build t s Hst).
  by rewrite (_get_channel_fault t _ e) by done.
Qed.

(** C4.  In a reachable state, [close_channel()] of a thread that holds a
    channel returns normally, closes that channel once (it was open before),
    closes no other channel, removes it from the registry and leaves the
    slot empty; the next [get_data()] of the thread, when the transport
    delivers a channel, returns a stub on a channel that is not the old one
    and was never opened before, and registers it.  Without a channel,
    [close_channel()] changes nothing but the log of calls. *)
Theorem close_channel_spec (s : State) (t : Tid) :
  reachable s ->
  (forall c, channel (local_of t s) = Some c ->
     let s' := snd (close_channel t s) in
     fst (close_channel t s) = Ok tt /\
     closed_count c (trace s) = 0 /\
     closed_count c (trace s') = 1 /\
     (forall c', c' <> c -> closed_count c' (trace s') = closed_count c' (trace s)) /\
     (c ∉ _data_request_channels s') /\
     (forall c', c' ∈ _data_request_channels s' <->
                 (c' ∈ _data_request_channels s) /\ c' <> c) /\
     slot_empty t s' /\
     (next_fault s' = None ->
        exists c2,
          fst (get_data t s') = Ok (mkDataStub c2) /\
          c2 <> c /\ chan_id c2 <> chan_id c /\
          ~ opened c2 (trace s') /\
          channel (local_of t (snd (get_data t s'))) = Some c2 /\
          (c2 ∈ _data_request_channels (snd (get_data t s'))) /\
          closed_count c (trace (snd (get_data t s'))) = 1)) /\
  (channel (local_of t s) = None ->
     close_channel t s = (Ok tt, with_calls (fun cs => cs ++ [(t, MCloseChannel)]) s)).
Proof.
  intros Hr. pose proof (reachable_inv s Hr) as Hinv.
  split; [|apply close_channel_none].
  intros c Hc s'.
  pose proof (inv_slot_registered s Hinv t c Hc) as Hreg.
  destruct (py_list_remove_elem_of c _ Hreg) as [l' Hrm].
  destruct (py_list_remove_spec c _ l' (inv_nodup s Hinv) Hrm) as (Hnd & Hnin & _ & Hiff).
  pose proof (close_channel_inv t s Hinv) as Hinv'. fold s' in Hinv'.
  subst s'. revert Hinv'. rewrite (close_channel_some t s c l' Hc Hrm). simpl. intros Hinv'.
  pose proof (inv_registry_live s Hinv c Hreg) as Hlive.
  split; [done|]. split; [done|]. split.
  { rewrite closed_count_app, closed_count_close, Hlive. by destruct (decide (c = c)). }
  split.
  { intros c' Hne. rewrite closed_count_app, closed_count_close.
    destruct (decide (c = c')); [congruence|lia]. }
  split; [done|]. split; [done|]. split.
  { unfold slot_empty, local_of. simpl. by rewrite lookup_insert_eq. }
  intros Hf.
  set (s' := mkState _ _ _ _ _ _ _) in *.
  assert (Hc' : channel (local_of t s') = None)
    by (unfold local_of; simpl; by rewrite lookup_insert_eq).
  assert (Hst' : data_stub (local_of t s') = None)
    by (unfold local_of; simpl; by rewrite lookup_insert_eq).
  exists (mkChannel (next_channel_id s') (_data_request_address s')).
  rewrite (get_data_fresh t s' Hc' Hst' Hf). simpl.
  pose proof (next_channel_not_opened s' (_data_request_address s') Hinv') as Hfresh.
  assert (Hopen : opened c (trace s')).
  { simpl. apply opened_app. left. by apply (inv_registry_opened s Hinv). }
  split; [done|]. split; [by intros Heq; apply Hfresh; simpl in *; rewrite Heq|].
  split.
  { destruct Hopen as [t0 Ht0]. apply (inv_opened_id s' Hinv') in Ht0 as [Hlt _].
    simpl in *. lia. }
  split; [done|]. split.
  { unfold local_of. simpl. by rewrite lookup_insert_eq. }
  split.
  { apply elem_of_app. right. left. }
  rewrite !closed_count_app, closed_count_close, Hlive. simpl.
  by destruct (decide (c = c)).
Qed.

Lemma close_channel_spec_witness :
  let s := run [(0, OpGetData)] (DataService__init__ "localhost:10301" []) in
  let c := mkChannel 0 "localhost:10301" in
  reachable s /\ channel (local_of 0 s) = Some c /\
  fst (close_channel 0 s) = Ok tt /\
  closed_count c (trace (snd (close_channel 0 s))) = 1 /\
  slot_empty 0 (snd (close_channel 0 s)).
Proof.
  intros s c.
  assert (Hr : reachable s) by (exists "localhost:10301", [], [(0, OpGetData)]; reflexivity).
  assert (Hc : channel (local_of 0 s) = Some c) by reflexivity.
  split; [exact Hr|]. split; [exact Hc|].
  destruct (close_channel_spec s 0 Hr) as [Hsome _].
  destruct (Hsome c Hc) as (H1 & _ & H3 & _ & _ & _ & H7 & _).
  split; [exact H1|]. split; [exact H3|exact H7].
Defined.

(** ** Shutting the session down *)

(** C5.  In a reachable state, [shutdown()] by any thread returns normally;
    every channel of the registry, and so every channel that any thread ever
    opened (whether that thread still runs, has ended, or has closed its
    channel itself), is then closed exactly once; the registry is empty and no
    thread has anything in its slot.  A second [shutdown()] right after it
    closes nothing and leaves registry and slots empty. *)
Theorem shutdown_spec (s : State) (t : Tid) :
  reachable s ->
  let s1 := snd (shutdown t s) in
  fst (shutdown t s) = Ok tt /\
  trace s1 = (trace s ++ [EvLog LogShuttingDown]) ++ map EvClosed (_data_request_channels s) /\
  (forall c, c ∈ _data_request_channels s ->
     closed_count c (trace s) = 0 /\ closed_count c (trace s1) = 1) /\
  (forall t' c, EvOpened t' c ∈ trace s -> closed_count c (trace s1) = 1) /\
  (forall c, (c ∉ _data_request_channels s) ->
     closed_count c (trace s1) = closed_count c (trace s)) /\
  _data_request_channels s1 = [] /\
  _data_request_local s1 = ∅ /\
  (forall t', slot_empty t' s1) /\
  (forall t2,
     let s2 := snd (shutdown t2 s1) in
     fst (shutdown t2 s1) = Ok tt /\
     trace s2 = trace s1 ++ [EvLog LogShuttingDown] /\
     (forall c, closed_count c (trace s2) = closed_count c (trace s1)) /\
     _data_request_channels s2 = [] /\
     _data_request_local s2 = ∅).
Proof.
  intros Hr s1. pose proof (reachable_inv s Hr) as Hinv.
  pose proof (shutdown_inv t s Hinv) as Hinv1. fold s1 in Hinv1.
  subst s1. revert Hinv1. rewrite (shutdown_eq t s). simpl. intros Hinv1.
  split; [done|]. split; [done|]. split.
  { intros c Hc. pose proof (inv_registry_live s Hinv c Hc) as Hlive. split; [done|].
    rewrite !closed_count_app, closed_count_log, Hlive.
    by rewrite closed_count_map_NoDup by (done || apply (inv_nodup s Hinv)). }
  split.
  { intros t' c Hop.
    assert (Hop1 : opened c ((trace s ++ [EvLog LogShuttingDown])
                              ++ map EvClosed (_data_request_channels s))).
    { apply opened_app. left. apply opened_app. left. by exists t'. }
    destruct (inv_accounted _ Hinv1 c Hop1) as [Hin|Hcl]; [|done].
    simpl in Hin. by apply elem_of_nil in Hin. }
  split.
  { intros c Hc. rewrite !closed_count_app, closed_count_log.
    rewrite closed_count_map_not_in by done. lia. }
  split; [done|]. split; [done|]. split.
  { intros t'. unfold slot_empty, local_of. simpl. by rewrite lookup_empty. }
  intros t2. split; [done|]. split; [done|]. split; [|done].
  intros c.
  rewrite (closed_count_app c (_ ++ _) [EvLog LogShuttingDown]), closed_count_log. lia.
Qed.

Lemma shutdown_spec_witness :
  let s := run [(0, OpGetData); (1, OpGetBblfsh); (1, OpThreadExit); (0, OpCloseChannel);
                (2, OpGetData)]
               (DataService__init__ "localhost:10301" []) in
  let s1 := snd (shutdown 3 s) in
  reachable s /\
  fst (shutdown 3 s) = Ok tt /\
  (forall t' c, EvOpened t' c ∈ trace s -> closed_count c (trace s1) = 1) /\
  _data_request_channels s1 = [] /\
  (forall c, closed_count c (trace (snd (shutdown 0 s1))) = closed_count c (trace s1)).
Proof.
  intros s s1.
  assert (Hr : reachable s).
  { exists "localhost:10301", [],
      [(0, OpGetData); (1, OpGetBblfsh); (1, OpThreadExit); (0, OpCloseChannel); (2, OpGetData)].
    reflexivity. }
  split; [exact Hr|].
  destruct (shutdown_spec s 3 Hr) as (H1 & _ & _ & H4 & _ & H6 & _ & _ & H9).
  split; [exact H1|]. split; [exact H4|]. split; [exact H6|].
  destruct (H9 0) as (_ & _ & H & _). exact H.
Defined.

(** The channels of the witness above: thread 0 closed its own, thread 1
    ended with its channel open, thread 2 still holds one; after
    [shutdown()] by thread 3 each has been closed once. *)
Example shutdown_closes_all_three :
  let s := run [(0, OpGetData); (1, OpGetBblfsh); (1, OpThreadExit); (0, OpCloseChannel);
                (2, OpGetData)]
               (DataService__init__ "localhost:10301" []) in
  _data_request_channels s = [mkChannel 1 "localhost:10301"; mkChannel 2 "localhost:10301"] /\
  map (fun i => closed_count (mkChannel i "localhost:10301") (trace (snd (shutdown 3 s))))
      [0; 1; 2] = [1; 1; 1].
Proof. split; reflexivity. Qed.

(** ** Using a session after [shutdown()] *)

(** After [shutdown()], [get_data()] returns a stub on a new channel. *)
Lemma get_data_after_shutdown_succeeds :
  let s := snd (shutdown 0 (DataService__init__ "localhost:10301" [])) in
  is_ok (fst (get_data 0 s)) = true /\
  fst (get_data 0 s) = Ok (mkDataStub (mkChannel 0 "localhost:10301")) /\
  _data_request_channels (snd (get_data 0 s)) = [mkChannel 0 "localhost:10301"].
Proof. repeat split. Qed.

(** C8, as the code has it.  After [shutdown()] in a reachable state the
    session is usable again: [get_data()] by any thread asks the transport
    for a channel; if the transport delivers, the call returns a stub on a
    channel that was never opened before, registers the channel and stores
    it in the caller's slot; the call raises only what [create_channel]
    raises. *)
Theorem get_data_after_shutdown (s : State) (t t' : Tid) :
  reachable s ->
  let s1 := snd (shutdown t s) in
  let c := mkChannel (next_channel_id s) (_data_request_address s) in
  (next_fault s = None ->
     fst (get_data t' s1) = Ok (mkDataStub c) /\
     ~ opened c (trace s1) /\
     _data_request_channels (snd (get_data t' s1)) = [c] /\
     local_of t' (snd (get_data t' s1)) = mkLocal (Some c) (Some (mkDataStub c)) None) /\
  (forall e, next_fault s = Some e -> fst (get_data t' s1) = Raise e).
Proof.
  intros Hr s1 c. pose proof (reachable_inv s Hr) as Hinv.
  pose proof (shutdown_inv t s Hinv) as Hinv1. fold s1 in Hinv1.
  assert (Hc1 : channel (local_of t' s1) = None).
  { subst s1. rewrite shutdown_eq. unfold local_of. simpl. by rewrite lookup_empty. }
  assert (Hst1 : data_stub (local_of t' s1) = None).
  { subst s1. rewrite shutdown_eq. unfold local_of. simpl. by rewrite lookup_empty. }
  assert (Hl1 : local_of t' s1 = empty_local).
  { subst s1. rewrite shutdown_eq. unfold local_of. simpl. by rewrite lookup_empty. }
  assert (Hf1 : next_fault s1 = next_fault s) by (subst s1; by rewrite shutdown_eq).
  assert (Hn1 : next_channel_id s1 = next_channel_id s) by (subst s1; by rewrite shutdown_eq).
  assert (Ha1 : _data_request_address s1 = _data_request_address s)
    by (subst s1; by rewrite shutdown_eq).
  assert (Hr1 : _data_request_channels s1 = []) by (subst s1; by rewrite shutdown_eq).
  split.
  - intros Hf. rewrite <- Hf1 in Hf.
    rewrite (get_data_fresh t' s1 Hc1 Hst1 Hf). simpl. rewrite Hn1, Ha1, Hr1, Hl1.
    split; [done|]. split; [|split; [done|]].
    + pose proof (next_channel_not_opened s1 (_data_request_address s) Hinv1) as Hfresh.
      by rewrite Hn1 in Hfresh.
    + unfold local_of. simpl. by rewrite lookup_insert_eq.
  - intros e Hf. rewrite <- Hf1 in Hf. by rewrite (get_data_fault t' s1 e Hc1 Hst1 Hf).
Qed.

Lemma get_data_after_shutdown_witness :
  let s := run [(0, OpGetData)] (DataService__init__ "localhost:10301" []) in
  let s1 := snd (shutdown 0 s) in
  reachable s /\ next_fault s = None /\
  fst (get_data 0 s1) = Ok (mkDataStub (mkChannel 1 "localhost:10301")) /\
  _data_request_channels (snd (get_data 0 s1)) = [mkChannel 1 "localhost:10301"].
Proof.
  intros s s1.
  assert (Hr : reachable s) by (exists "localhost:10301", [], [(0, OpGetData)]; reflexivity).
  assert (Hf : next_fault s = None) by reflexivity.
  split; [exact Hr|]. split; [exact Hf|].
  destruct (get_data_after_shutdown s 0 0 Hr) as [Hok _].
  destruct (Hok Hf) as (H1 & _ & H3 & _).
  split; [exact H1|exact H3].
Defined.

(** ** The error wrapper of the decorators *)

Lemma close_channel_calls t s :
  calls (snd (close_channel t s)) = calls s ++ [(t, MCloseChannel)].
Proof.
  destruct (channel (local_of t s)) as [c|] eqn:Hc.
  - destruct (py_list_remove c (_data_request_channels s)) as [l'|] eqn:Hr.
    + by rewrite (close_channel_some t s c l' Hc Hr).
    + by rewrite (close_channel_unregistered t s c Hc Hr).
  - by rewrite (close_channel_none t s Hc).
Qed.

Lemma close_channel_returns t s :
  session_inv s -> fst (close_channel t s) = Ok tt.
Proof.
  intros Hinv. destruct (channel (local_of t s)) as [c|] eqn:Hc.
  - destruct (py_list_remove_elem_of c _ (inv_slot_registered s Hinv t c Hc)) as [l' Hr].
    by rewrite (close_channel_some t s c l' Hc Hr).
  - by rewrite (close_channel_none t s Hc).
Qed.

Lemma call_count_app t m cs1 cs2 :
  call_count t m (cs1 ++ cs2) = call_count t m cs1 + call_count t m cs2.
Proof. unfold call_count. by rewrite filter_app, length_app. Qed.

(** Each of the six decorators is the wrapper around its body. *)
Lemma decorators_wrap `{DataApi} {Self Cls Config Data Comments Model : Type}
    (unicode : bool)
    (analyze : @AnalyzeFn _ Self Data Comments) (train : @TrainFn _ Cls Config Data Model) :
  with_changed_uasts unicode analyze =
    _handle_rpc_errors (wrapped_changes false true unicode analyze) /\
  with_changed_contents unicode analyze =
    _handle_rpc_errors (wrapped_changes true false unicode analyze) /\
  with_changed_uasts_and_contents unicode analyze =
    _handle_rpc_errors (wrapped_changes true true unicode analyze) /\
  with_uasts unicode train =
    _handle_rpc_errors (wrapped_files false true unicode train) /\
  with_contents unicode train =
    _handle_rpc_errors (wrapped_files true false unicode train) /\
  with_uasts_and_contents unicode train =
    _handle_rpc_errors (wrapped_files true true unicode train).
Proof. repeat split. Qed.

(** C1.  For any wrapped call [func] (the body of any of the six decorators
    is one): when [func] returns, the wrapper returns the same result in the
    same state, so [close_channel] is not entered; when [func] raises an
    [RpcError] [e], the wrapper runs [func] once and then enters
    [close_channel()] once for the calling thread, and, the session being in
    a state that satisfies the invariant (so that [close_channel] returns),
    it raises [e] itself and the thread's slot is empty. *)
Theorem handle_rpc_errors_spec {A B C D R : Type}
    (func : Tid -> A -> B -> C -> D -> M R)
    (t : Tid) (cls : A) (ptr : B) (config : C) (data : D) (s : State) :
  let r := func t cls ptr config data s in
  let w := _handle_rpc_errors func t cls ptr config data s in
  (forall v, fst r = Ok v ->
     w = r /\ fst w = Ok v /\ calls (snd w) = calls (snd r)) /\
  (forall e, fst r = Raise e -> is_rpc_error e = true ->
     snd w = snd (close_channel t (snd r)) /\
     calls (snd w) = calls (snd r) ++ [(t, MCloseChannel)] /\
     call_count t MCloseChannel (calls (snd w)) =
       S (call_count t MCloseChannel (calls (snd r))) /\
     (session_inv (snd r) -> fst w = Raise e /\ slot_empty t (snd w))).
Proof.
  intros r w. subst w. unfold _handle_rpc_errors. fold r.
  destruct r as [[v|e] s'] eqn:Hr; simpl.
  - split; [|done]. intros v' [= <-]. done.
  - split; [done|]. intros e' [= <-] Hrpc. rewrite Hrpc.
    pose proof (close_channel_returns t s') as Hok.
    pose proof (close_channel_calls t s') as Hcalls.
    munfold.
    assert (Hempty : session_inv s' -> slot_empty t (snd (close_channel t s'))).
    { intros Hinv. destruct (channel (local_of t s')) as [c|] eqn:Hc.
      - destruct (py_list_remove_elem_of c _ (inv_slot_registered s' Hinv t c Hc)) as [l' Hrm].
        rewrite (close_channel_some t s' c l' Hc Hrm).
        unfold slot_empty, local_of. simpl. by rewrite lookup_insert_eq.
      - rewrite (close_channel_none t s' Hc). unfold slot_empty. simpl.
        change (local_of t (with_calls (fun cs => cs ++ [(t, MCloseChannel)]) s'))
          with (local_of t s').
        destruct (inv_slot_coherent s' Hinv t) as [Hd Hb].
        destruct (local_of t s') as [ch ds bs]. simpl in *. subst ch.
        destruct ds as [st|]; [by specialize (Hd st eq_refl)|].
        destruct bs as [st|]; [by specialize (Hb st eq_refl)|]. done. }
    assert (Hcount : call_count t MCloseChannel (calls (snd (close_channel t s'))) =
                     S (call_count t MCloseChannel (calls s'))).
    { rewrite Hcalls, call_count_app. unfold call_count at 2.
      rewrite filter_cons_True by done. rewrite filter_nil. simpl. lia. }
    destruct (close_channel t s') as [[[]|e2] s2]; simpl in *.
    + split; [done|]. split; [done|]. split; [done|]. intros Hinv. split; [done|by apply Hempty].
    + split; [done|]. split; [done|]. split; [done|]. intros Hinv.
      by specialize (Hok Hinv).
Qed.

Lemma handle_rpc_errors_spec_witness :
  let s := DataService__init__ "localhost:10301" [] in
  let r := SampleData.failing_call 0 tt tt tt tt s in
  let w := _handle_rpc_errors SampleData.failing_call 0 tt tt tt tt s in
  fst r = Raise SampleData.unavailable /\
  is_rpc_error SampleData.unavailable = true /\
  session_inv (snd r) /\
  fst w = Raise SampleData.unavailable /\
  calls (snd w) = [(0, MGetData); (0, MCloseChannel)] /\
  trace (snd w) =
    [EvOpened 0 (mkChannel 0 "localhost:10301");
     EvLog (LogOpened (mkChannel 0 "localhost:10301"));
     EvClosed (mkChannel 0 "localhost:10301");
     EvLog (LogDisposed (mkChannel 0 "localhost:10301"))].
Proof.
  intros s r w.
  assert (Hr : fst r = Raise SampleData.unavailable) by reflexivity.
  assert (Hrpc : is_rpc_error SampleData.unavailable = true) by reflexivity.
  assert (Hinv : session_inv (snd r)).
  { apply reachable_inv. exists "localhost:10301", [], [(0, OpGetData)]. reflexivity. }
  split; [exact Hr|]. split; [exact Hrpc|]. split; [exact Hinv|].
  destruct (handle_rpc_errors_spec SampleData.failing_call 0 tt tt tt tt s) as [_ Hraise].
  destruct (Hraise SampleData.unavailable Hr Hrpc) as (_ & _ & _ & Hre).
  destruct (Hre Hinv) as [H1 _].
  split; [exact H1|]. split; reflexivity.
Defined.

(** A decorated [train()] whose stream breaks after one record: the channel
    that the call opened is closed, the thread's slot is empty again and the
    caller sees the transport's exception. *)
Example decorated_call_transport_failure :
  let api := SampleData.api (Ok (SYield "a.py" (SRaise SampleData.unavailable))) (Ok SDone) in
  let w := @with_uasts api unit unit unit (list string) true SampleData.train_all
             0 tt "HEAD" tt tt (DataService__init__ "localhost:10301" []) in
  fst w = Raise SampleData.unavailable /\
  calls (snd w) = [(0, MGetData); (0, MCloseChannel)] /\
  closed_count (mkChannel 0 "localhost:10301") (trace (snd w)) = 1 /\
  _data_request_channels (snd w) = [] /\
  local_of 0 (snd w) = empty_local.
Proof. repeat split. Qed.

(** An exception that is not an [RpcError] passes through and
    [close_channel] is not entered. *)
Lemma handle_rpc_errors_other {A B C D R : Type}
    (func : Tid -> A -> B -> C -> D -> M R) t cls ptr config data s e :
  fst (func t cls ptr config data s) = Raise e -> is_rpc_error e = false ->
  _handle_rpc_errors func t cls ptr config data s = func t cls ptr config data s.
Proof.
  unfold _handle_rpc_errors.
  destruct (func t cls ptr config data s) as [[v|e'] s']; simpl; [done|].
  intros [= ->] ->. done.
Qed.

(** ** The request composer *)


(** [map] on a stream converts the records one by one, in their order, and
    ends the way the stream ends. *)
Lemma py_map_yielded {A B} (f : A -> B) (it : Stream A) :
  yielded (py_map f it) = map f (yielded it) /\
  stream_end (py_map f it) = stream_end it.
Proof.
  induction it as [|a rest [IH1 IH2]|e]; simpl; [done| |done].
  by rewrite IH1, IH2.
Qed.

Lemma py_or_orb a b : py_or a b = a || b.
Proof. by destruct a, b. Qed.

(** C3.  For all values of the flags, the request that [request_files] and
    [request_changes] hand to the stub carries [want_contents = contents],
    [want_language = contents or uast] and [want_uast = uast] (with the
    pointers, the garbage pattern and [exclude_vendored = True]); the
    composer raises exactly when the stub call on that request raises, so no
    combination of flags, the one without contents and UAST included, is
    rejected by the composer. *)
Theorem request_flags `{DataApi} (stub : DataStub) (ptr ptr_from ptr_to : ReferencePointer)
    (contents uast unicode : bool) :
  let fq := files_request ptr contents uast in
  let cq := changes_request ptr_from ptr_to contents uast in
  (fr_want_contents fq = contents /\
   fr_want_language fq = contents || uast /\
   fr_want_uast fq = uast /\
   fr_revision fq = to_pb ptr /\
   fr_exclude_pattern fq = GARBAGE_PATTERN /\
   fr_exclude_vendored fq = true) /\
  (cr_want_contents cq = contents /\
   cr_want_language cq = contents || uast /\
   cr_want_uast cq = uast /\
   cr_base cq = to_pb ptr_from /\
   cr_head cq = to_pb ptr_to /\
   cr_exclude_pattern cq = GARBAGE_PATTERN /\
   cr_exclude_vendored cq = true) /\
  request_files stub ptr contents uast unicode =
    result_map (fun files => if unicode then py_map convert_file files else files)
               (GetFiles stub fq) /\
  request_changes stub ptr_from ptr_to contents uast unicode =
    result_map (fun changes => if unicode then py_map convert_change changes else changes)
               (GetChanges stub cq) /\
  is_ok (request_files stub ptr contents uast unicode) = is_ok (GetFiles stub fq) /\
  is_ok (request_changes stub ptr_from ptr_to contents uast unicode) =
    is_ok (GetChanges stub cq).
Proof.
  intros fq cq. subst fq cq. unfold request_files, request_changes.
  split; [simpl; by rewrite py_or_orb|].
  split; [simpl; by rewrite py_or_orb|].
  split; [by destruct (GetFiles _ _)|].
  split; [by destruct (GetChanges _ _)|].
  split; [by destruct (GetFiles _ _)|by destruct (GetChanges _ _)].
Qed.

(** The four combinations of the flags on the sample service. *)
Example request_flags_all_four :
  let api := SampleData.api (Ok SDone) (Ok SDone) in
  map (fun p => fr_want_language (@files_request api "HEAD" (fst p) (snd p)))
      [(false, false); (false, true); (true, false); (true, true)] =
    [false; true; true; true] /\
  map (fun p => cr_want_language (@changes_request api "HEAD~1" "HEAD" (fst p) (snd p)))
      [(false, false); (false, true); (true, false); (true, true)] =
    [false; true; true; true] /\
  @request_files api (mkDataStub (mkChannel 0 "")) "HEAD" false false false = Ok SDone.
Proof. repeat split. Qed.

(** C7.  When the stub call returns a stream, [request_files] and
    [request_changes] with [unicode] set return the stream whose records are
    the converted records of the service, one for one and in the service's
    order, and which ends as the service's stream ends; with [unicode] unset
    they return the service's stream itself. *)
Theorem request_unicode `{DataApi} (stub : DataStub) (ptr ptr_from ptr_to : ReferencePointer)
    (contents uast : bool) :
  (forall files, GetFiles stub (files_request ptr contents uast) = Ok files ->
     request_files stub ptr contents uast true = Ok (py_map convert_file files) /\
     yielded (py_map convert_file files) = map convert_file (yielded files) /\
     stream_end (py_map convert_file files) = stream_end files /\
     request_files stub ptr contents uast false = Ok files) /\
  (forall changes,
     GetChanges stub (changes_request ptr_from ptr_to contents uast) = Ok changes ->
     request_changes stub ptr_from ptr_to contents uast true =
       Ok (py_map convert_change changes) /\
     yielded (py_map convert_change changes) = map convert_change (yielded changes) /\
     stream_end (py_map convert_change changes) = stream_end changes /\
     request_changes stub ptr_from ptr_to contents uast false = Ok changes).
Proof.
  split.
  - intros files Hf. unfold request_files. rewrite Hf.
    destruct (py_map_yielded convert_file files) as [Hy He]. done.
  - intros changes Hc. unfold request_changes. rewrite Hc.
    destruct (py_map_yielded convert_change changes) as [Hy He]. done.
Qed.

Lemma request_unicode_witness :
  let files := SYield "a.py" (SYield "b.py" SDone) in
  let api := SampleData.api (Ok files) (Ok SDone) in
  let stub := mkDataStub (mkChannel 0 "localhost:10301") in
  @GetFiles api stub (@files_request api "HEAD" true true) = Ok files /\
  @request_files api stub "HEAD" true true true = Ok (SYield "u:a.py" (SYield "u:b.py" SDone)) /\
  @request_files api stub "HEAD" true true false = Ok files.
Proof.
  intros files api stub.
  assert (Hf : @GetFiles api stub (@files_request api "HEAD" true true) = Ok files)
    by reflexivity.
  split; [exact Hf|].
  destruct (@request_unicode api stub "HEAD" "HEAD" "HEAD" true true) as [Hfiles _].
  destruct (Hfiles files Hf) as (H1 & _ & _ & H4).
  split; [exact H1|exact H4].
Defined.

(** The empty stream and a stream that breaks convert the same way. *)
Example request_unicode_edge_streams :
  let stub := mkDataStub (mkChannel 0 "localhost:10301") in
  @request_changes (SampleData.api (Ok SDone) (Ok SDone)) stub "HEAD~1" "HEAD" false true true
    = Ok SDone /\
  @request_changes
    (SampleData.api (Ok SDone) (Ok (SYield "x" (SRaise SampleData.unavailable))))
    stub "HEAD~1" "HEAD" false true true
    = Ok (SYield "u:x" (SRaise SampleData.unavailable)).
Proof. repeat split. Qed.

(** ** The driver version check *)

Lemma collect_mismatched_spec `{Packaging} (existing : gmap string Version)
    (versions : list string) (reqs : list (Requirement SpecifierSet))
    (mismatched : list (string * string)) :
  Forall2 (fun reqstr req => Requirement_new reqstr = Ok req) versions reqs ->
  collect_mismatched existing versions mismatched =
    Ok (mismatched ++ map (report existing) (List.filter (unmet existing) reqs)).
Proof.
  intros Hall. revert mismatched.
  induction Hall as [|reqstr req versions reqs Hreq Hall IH]; intros mismatched.
  - simpl. by rewrite app_nil_r.
  - simpl. rewrite Hreq. destruct (existing !! name req) as [ver|] eqn:Hl.
    + destruct (specifier_contains (specifier req) ver) eqn:Hsp; simpl.
      * assert (Hu : unmet existing req = false) by (unfold unmet; by rewrite Hl, Hsp).
        rewrite Hu. apply IH.
      * assert (Hu : unmet existing req = true) by (unfold unmet; by rewrite Hl, Hsp).
        assert (Hrep : report existing req = (name req, not_satisfied_message ver req))
          by (unfold report; by rewrite Hl).
        rewrite Hu, IH. simpl. by rewrite Hrep, <- app_assoc.
    + assert (Hu : unmet existing req = true) by (unfold unmet; by rewrite Hl).
      assert (Hrep : report existing req = (name req, not_installed_message req))
        by (unfold report; by rewrite Hl).
      rewrite Hu, IH. simpl. by rewrite Hrep, <- app_assoc.
Qed.

(** C6.  When the parse stub is obtained, the capability call returns the
    drivers, their versions parse and every requirement is well formed, the
    check leaves the session as [get_bblfsh] left it and: it returns normally
    exactly when no requirement is unmet; otherwise it raises one
    [UnsatisfiedDriverVersionError] whose arguments report the unmet
    requirements, all of them and no other, in the order of the list, a
    missing language as "not installed" and a version outside the range as
    "does not satisfy".  The exception's [args] are written out: first the
    list of all (language, reason) tuples, then each tuple again, one tuple
    for each unmet requirement with its language and its reason spelled as
    lines 91 and 94 format them. *)
Theorem check_versions_spec `{Packaging} (versions : list string)
    (reqs : list (Requirement SpecifierSet)) (t : Tid) (s s1 : State)
    (stub : ProtocolServiceStub) (drivers : list Driver) (existing : gmap string Version) :
  get_bblfsh t (with_calls (fun cs => cs ++ [(t, MCheckVersions)]) s) = (Ok stub, s1) ->
  SupportedLanguages stub = Ok drivers ->
  existing_versions drivers ∅ = Ok existing ->
  Forall2 (fun reqstr req => Requirement_new reqstr = Ok req) versions reqs ->
  let unmet_reqs := List.filter (unmet existing) reqs in
  let mismatched := map (report existing) unmet_reqs in
  let r := check_bblfsh_driver_versions versions t s in
  snd r = s1 /\
  (fst r = Ok tt <-> Forall (fun req => unmet existing req = false) reqs) /\
  (Exists (fun req => unmet existing req = true) reqs <->
   fst r = Raise (UnsatisfiedDriverVersionError__init__ mismatched)) /\
  (forall e, fst r = Raise e ->
     e = UnsatisfiedDriverVersionError__init__ mismatched /\
     exc_args e = PList (map pair_val mismatched) :: map pair_val mismatched) /\
  (forall req, req ∈ reqs -> unmet existing req = true ->
     (report existing req ∈ mismatched) /\
     fst (report existing req) = name req /\
     snd (report existing req) =
       match existing !! name req with
       | None => not_installed_message req
       | Some ver => not_satisfied_message ver req
       end) /\
  (forall p, p ∈ mismatched ->
     exists req, (req ∈ reqs) /\ unmet existing req = true /\ p = report existing req) /\
  (forall e, fst r = Raise e ->
     let reason req :=
       match existing !! name req with
       | None =>
           String.append "not installed, but required " (str_SpecifierSet (specifier req))
       | Some ver =>
           String.append (str_Version ver)
             (String.append " does not satisfy " (str_SpecifierSet (specifier req)))
       end in
     let entries := map (fun req => PTuple [PStr (name req); PStr (reason req)]) unmet_reqs in
     exc_class e = UnsatisfiedDriverVersionError /\
     exc_args e = PList entries :: entries /\
     length (exc_args e) = S (length unmet_reqs) /\
     (forall req, req ∈ reqs -> unmet existing req = true ->
        PTuple [PStr (name req); PStr (reason req)] ∈ exc_args e) /\
     (forall language why, PTuple [PStr language; PStr why] ∈ exc_args e ->
        exists req, (req ∈ reqs) /\ unmet existing req = true /\
          language = name req /\ why = reason req)).
Proof.
  intros Hstub Hrpc Hex Hreqs unmet_reqs mismatched r.
  assert (Hr : r = match mismatched with
                   | [] => (Ok tt, s1)
                   | _ :: _ => (Raise (UnsatisfiedDriverVersionError__init__ mismatched), s1)
                   end).
  { subst r. unfold check_bblfsh_driver_versions. munfold. simpl.
    rewrite Hstub, Hrpc, Hex. rewrite (collect_mismatched_spec existing versions reqs [] Hreqs).
    simpl. fold unmet_reqs. fold mismatched. by destruct mismatched. }
  assert (Hempty : mismatched = [] <-> Forall (fun req => unmet existing req = false) reqs).
  { subst mismatched unmet_reqs. clear. induction reqs as [|req reqs IH]; simpl.
    - split; [constructor|done].
    - destruct (unmet existing req) eqn:Hu; simpl.
      + split; [done|]. intros Hall. apply Forall_cons in Hall as [? _]. congruence.
      + rewrite IH. split; [by constructor|]. intros Hall. by apply Forall_cons in Hall as [_ ?]. }
  assert (Hin : forall req, req ∈ unmet_reqs <-> (req ∈ reqs) /\ unmet existing req = true).
  { intros req. subst unmet_reqs. rewrite !list_elem_of_In. apply filter_In. }
  assert (Hcase : (mismatched = [] /\ r = (Ok tt, s1)) \/
                  (mismatched <> [] /\
                   r = (Raise (UnsatisfiedDriverVersionError__init__ mismatched), s1))).
  { destruct (decide (mismatched = [])) as [He|Hne].
    - left. split; [done|]. rewrite Hr. by rewrite He.
    - right. split; [done|]. rewrite Hr. revert Hne. generalize mismatched.
      intros l Hl. by destruct l. }
  clear Hr.
  split; [by destruct Hcase as [[_ ->]|[_ ->]]|].
  split.
  { rewrite <- Hempty. destruct Hcase as [[He ->]|[Hne ->]]; simpl; [done|]. split; done. }
  split.
  { split.
    - intros Hex'. destruct Hcase as [[He ->]|[Hne ->]]; simpl; [|done].
      exfalso. apply Hempty in He. apply Exists_exists in Hex' as (req & Hreq & Hu).
      rewrite Forall_forall in He.
      specialize (He req Hreq). congruence.
    - intros Hraise. destruct Hcase as [[He Hr]|[Hne Hr]]; [by rewrite Hr in Hraise|].
      assert (Hp : exists p, p ∈ mismatched).
      { revert Hne. generalize mismatched. intros [|p l]; [done|]. intros _. exists p. left. }
      destruct Hp as [p Hp]. subst mismatched.
      apply list_elem_of_fmap in Hp as (req & _ & Hreq).
      apply Hin in Hreq as [? ?]. apply Exists_exists. exists req.
      split; [done|done]. }
  split.
  { intros e. destruct Hcase as [[He ->]|[Hne ->]]; simpl; [done|]. by intros [= <-]. }
  split.
  { intros req Hreq Hu. split; [|split].
    - subst mismatched. apply list_elem_of_fmap. exists req. split; [done|]. by apply Hin.
    - unfold report. by destruct (existing !! name req).
    - unfold report. by destruct (existing !! name req). }
  split.
  { intros p Hp. subst mismatched. apply list_elem_of_fmap in Hp as (req & -> & Hreq).
    apply Hin in Hreq as [? ?]. by exists req. }
  intros e He reason entries.
  assert (Hrep : forall req, pair_val (report existing req)
                             = PTuple [PStr (name req); PStr (reason req)]).
  { intros req. unfold pair_val, report, reason, not_installed_message,
      not_satisfied_message. by destruct (existing !! name req). }
  assert (Hentries : map pair_val mismatched = entries).
  { subst mismatched entries. rewrite map_map. apply map_ext. intros req. apply Hrep. }
  assert (Hargs : exc_args e = PList entries :: entries).
  { destruct Hcase as [[_ Hr]|[_ Hr]]; rewrite Hr in He; simpl in He; [done|].
    injection He as <-. unfold UnsatisfiedDriverVersionError__init__. simpl.
    by rewrite Hentries. }
  split.
  { destruct Hcase as [[_ Hr]|[_ Hr]]; rewrite Hr in He; simpl in He; [done|].
    by injection He as <-. }
  split; [exact Hargs|].
  split.
  { rewrite Hargs. simpl. f_equal. subst entries. apply length_map. }
  split.
  { intros req Hreq Hu. rewrite Hargs. right. subst entries.
    apply list_elem_of_fmap. exists req. split; [done|]. by apply Hin. }
  intros language why Hmem. rewrite Hargs in Hmem.
  apply elem_of_cons in Hmem as [Hbad|Hmem]; [discriminate Hbad|].
  subst entries. apply list_elem_of_fmap in Hmem as (req & Heq & Hreq).
  injection Heq as -> ->. apply Hin in Hreq as [? ?]. by exists req.
Qed.

Lemma check_versions_spec_witness :
  let P := SamplePackaging.packaging (Ok [mkDriver "python" "1.9.0"]) in
  let s := DataService__init__ "localhost:10301" [] in
  let versions := ["python>=2.0.0"; "go==1.0.0"] in
  let reqs := [mkRequirement "python" (SamplePackaging.OpGe, [2; 0; 0]);
               mkRequirement "go" (SamplePackaging.OpEq, [1; 0; 0])] in
  let existing : gmap string (list nat) := <["python" := [1; 9; 0]]> ∅ in
  let stub := mkProtocolServiceStub (mkChannel 0 "localhost:10301") in
  let s1 := snd (get_bblfsh 0 (with_calls (fun cs => cs ++ [(0, MCheckVersions)]) s)) in
  get_bblfsh 0 (with_calls (fun cs => cs ++ [(0, MCheckVersions)]) s) = (Ok stub, s1) /\
  @SupportedLanguages P stub = Ok [mkDriver "python" "1.9.0"] /\
  @existing_versions P [mkDriver "python" "1.9.0"] ∅ = Ok existing /\
  Forall2 (fun reqstr req => @Requirement_new P reqstr = Ok req) versions reqs /\
  fst (@check_bblfsh_driver_versions P versions 0 s) =
    Raise (UnsatisfiedDriverVersionError__init__
             [("python", "1.9.0 does not satisfy >=2.0.0");
              ("go", "not installed, but required ==1.0.0")]) /\
  (forall e, fst (@check_bblfsh_driver_versions P versions 0 s) = Raise e ->
     exc_class e = UnsatisfiedDriverVersionError /\
     exc_args e =
       [PList [PTuple [PStr "python"; PStr "1.9.0 does not satisfy >=2.0.0"];
               PTuple [PStr "go"; PStr "not installed, but required ==1.0.0"]];
        PTuple [PStr "python"; PStr "1.9.0 does not satisfy >=2.0.0"];
        PTuple [PStr "go"; PStr "not installed, but required ==1.0.0"]]).
Proof.
  intros P s versions reqs existing stub s1.
  assert (H1 : get_bblfsh 0 (with_calls (fun cs => cs ++ [(0, MCheckVersions)]) s) = (Ok stub, s1))
    by reflexivity.
  assert (H2 : @SupportedLanguages P stub = Ok [mkDriver "python" "1.9.0"]) by reflexivity.
  assert (H3 : @existing_versions P [mkDriver "python" "1.9.0"] ∅ = Ok existing) by reflexivity.
  assert (H4 : Forall2 (fun reqstr req => @Requirement_new P reqstr = Ok req) versions reqs)
    by (repeat constructor).
  split; [exact H1|]. split; [exact H2|]. split; [exact H3|]. split; [exact H4|].
  destruct (@check_versions_spec P versions reqs 0 s s1 stub _ existing H1 H2 H3 H4)
    as (_ & _ & [Hraise _] & _ & _ & _ & Hargs).
  split.
  - apply Hraise. apply Exists_cons_hd. reflexivity.
  - intros e He. destruct (Hargs e He) as (Hclass & Hlist & _).
    split; [exact Hclass|exact Hlist].
Defined.

(** Requirements that the installed drivers satisfy: the check returns. *)
Example check_versions_satisfied :
  let P := SamplePackaging.packaging
             (Ok [mkDriver "python" "2.3.1"; mkDriver "go" "1.0.0"]) in
  fst (@check_bblfsh_driver_versions P ["python>=2.0.0"; "go==1.0.0"; "python<3"] 0
         (DataService__init__ "localhost:10301" [])) = Ok tt.
Proof. reflexivity. Qed.

(** ** The analyzer context manager *)

Section ContextManagerProperties.
Import ContextManager.
Context `{HostEnv}.

Ltac cm_unfold :=
  unfold mbind, mret, CM_bind, CM_ret, self_get, self_set, self_attr, cm_raise,
    history, host_call.

Lemma review_without_sdk (self : Self) (h : list HostEvent) fr to git_dir bblfsh log_level cfg :
  _lookout_sdk self = None ->
  review fr to git_dir bblfsh log_level cfg (self, h) = (Raise review_error, (self, h)).
Proof. intros Hsdk. unfold review. cm_unfold. simpl. by rewrite Hsdk. Qed.

Lemma push_without_sdk (self : Self) (h : list HostEvent) fr to git_dir bblfsh log_level cfg :
  _lookout_sdk self = None ->
  push fr to git_dir bblfsh log_level cfg (self, h) = (Raise push_error, (self, h)).
Proof. intros Hsdk. unfold push. cm_unfold. simpl. by rewrite Hsdk. Qed.

(** [__init__] leaves the SDK handle unset. *)
Lemma init_sdk_unset analyzer db fs init address h self h' :
  __init__ analyzer db fs init address h = (Ok self, h') -> _lookout_sdk self = None.
Proof.
  unfold __init__. destruct (host_fault h HFindPort); [done|]. by intros [= <- _].
Qed.

(** [__exit__] unsets the SDK handle first, so it is unset however
    [__exit__] ends. *)
Lemma exit_sdk_unset t (c : Ctx) : _lookout_sdk (fst (snd (__exit__ t c))) = None.
Proof.
  destruct c as [self h]. unfold __exit__, data_service_shutdown. cm_unfold. simpl.
  destruct (listener self); simpl; [|done].
  destruct (host_fault h HListenerStop); simpl; [done|].
  destruct (model_repository self); simpl; [|done].
  destruct (host_fault (h ++ [HListenerStop]) HModelRepoShutdown); simpl; [done|].
  destruct (data_service self); simpl; done.
Qed.

(** C10.  Before [__enter__] (on the object that [__init__] returns), after
    [__exit__] (however it ended) and whenever the SDK handle is unset,
    [review()] and [push()] raise their [AttributeError] and leave the object
    and the history of outside calls as they were: no SDK command is run. *)
Theorem review_push_outside_with (fr to git_dir : string) (bblfsh log_level : option string)
    (cfg : option (list (string * PyVal))) :
  (forall (self : Self) (h : list HostEvent), _lookout_sdk self = None ->
     review fr to git_dir bblfsh log_level cfg (self, h) = (Raise review_error, (self, h)) /\
     push fr to git_dir bblfsh log_level cfg (self, h) = (Raise push_error, (self, h))) /\
  (forall analyzer db fs init address h self h',
     __init__ analyzer db fs init address h = (Ok self, h') ->
     review fr to git_dir bblfsh log_level cfg (self, h') = (Raise review_error, (self, h')) /\
     push fr to git_dir bblfsh log_level cfg (self, h') = (Raise push_error, (self, h'))) /\
  (forall (t : Tid) (c : Ctx),
     let c' := snd (__exit__ t c) in
     review fr to git_dir bblfsh log_level cfg c' = (Raise review_error, c') /\
     push fr to git_dir bblfsh log_level cfg c' = (Raise push_error, c')) /\
  exc_class review_error = AttributeError /\
  exc_class push_error = AttributeError.
Proof.
  assert (Hunset : forall (self : Self) (h : list HostEvent), _lookout_sdk self = None ->
     review fr to git_dir bblfsh log_level cfg (self, h) = (Raise review_error, (self, h)) /\
     push fr to git_dir bblfsh log_level cfg (self, h) = (Raise push_error, (self, h))).
  { intros self h Hsdk. split; [by apply review_without_sdk|by apply push_without_sdk]. }
  split; [exact Hunset|]. split; [|split; [|done]].
  - intros analyzer db fs init address h self h' Hinit.
    apply Hunset. by apply (init_sdk_unset analyzer db fs init address h self h').
  - intros t c c'. pose proof (exit_sdk_unset t c) as Hsdk. fold c' in Hsdk.
    destruct c' as [self' h']. by apply Hunset.
Qed.

(** Inside the [with] block, [review()] and [push()] run the SDK command
    with the port of the listener. *)
Lemma review_push_inside_with (c : Ctx) (self : Self) (c' : Ctx)
    (fr to git_dir : string) (bblfsh log_level : option string)
    (cfg : option (list (string * PyVal))) :
  __enter__ c = (Ok self, c') -> sdk_truth = true ->
  host_fault (snd c') (HSdkReview (mkSdkArgs fr to (_port (fst c')) git_dir bblfsh log_level cfg))
    = None ->
  review fr to git_dir bblfsh log_level cfg c' =
    (Ok (completed (snd c')
           (HSdkReview (mkSdkArgs fr to (_port (fst c')) git_dir bblfsh log_level cfg))),
     (fst c', snd c' ++
        [HSdkReview (mkSdkArgs fr to (_port (fst c')) git_dir bblfsh log_level cfg)])).
Proof.
  intros Henter Htruth Hfault.
  assert (Hsdk : _lookout_sdk (fst c') = Some LookoutSDK_new).
  { revert Henter. destruct c as [self0 h0]. unfold __enter__, find_port, check_port_free.
    cm_unfold. simpl.
    repeat (match goal with
            | |- context [match host_fault ?h ?ev with _ => _ end] =>
                destruct (host_fault h ev); simpl; [done|]
            | |- context [if ?b then _ else _] => destruct b; simpl
            end); by intros [= _ <-]. }
  destruct c' as [self' h']. simpl in *.
  unfold review, sdk_command. cm_unfold. simpl. rewrite Hsdk. simpl. rewrite Htruth. simpl.
  by rewrite Hfault.
Qed.

End ContextManagerProperties.

Lemma review_push_outside_with_witness :
  let H := ContextManager.sample_host in
  let r := @ContextManager.__init__ H "MyAnalyzer" "/tmp/db" "/tmp/fs" true "localhost:10301" [] in
  exists self h',
    r = (Ok self, h') /\
    @ContextManager.review H "HEAD~1" "HEAD" "." None None None (self, h') =
      (Raise ContextManager.review_error, (self, h')) /\
    @ContextManager.push H "HEAD~1" "HEAD" "." None None None (self, h') =
      (Raise ContextManager.push_error, (self, h')).
Proof.
  intros H r.
  destruct r as [[self|e] h'] eqn:Hr; [|discriminate Hr].
  exists self, h'. split; [reflexivity|].
  destruct (@review_push_outside_with H "HEAD~1" "HEAD" "." None None None) as (_ & Hinit & _).
  exact (Hinit "MyAnalyzer" "/tmp/db" "/tmp/fs" true "localhost:10301" [] self h' Hr).
Defined.

(** A whole life of a context manager on the sample host: [review()] fails
    before the block, runs the SDK inside it, and fails again after it;
    only the call inside the block reaches the SDK. *)
Example context_manager_life :
  let H := ContextManager.sample_host in
  let review := @ContextManager.review H "HEAD~1" "HEAD" "." None None None in
  match @ContextManager.__init__ H "MyAnalyzer" "/tmp/db" "/tmp/fs" true "localhost:10301" [] with
  | (Raise _, _) => False
  | (Ok self, h) =>
      let c0 := (self, h) in
      let c1 := snd (review c0) in
      let c2 := snd (@ContextManager.__enter__ H c1) in
      let c3 := snd (review c2) in
      let c4 := snd (@ContextManager.__exit__ H 0 c3) in
      let c5 := snd (review c4) in
      is_ok (fst (review c0)) = false /\
      is_ok (fst (review c2)) = true /\
      is_ok (fst (review c4)) = false /\
      length (List.filter ContextManager.is_sdk_command (snd c5)) = 1
  end.
Proof. vm_compute. repeat split. Qed.

(** ** The session under a thread scheduler *)

Section InterleavingProperties.
Import Interleaving.

Lemma run_schedule_app sched1 sched2 cfg :
  run_schedule (sched1 ++ sched2) cfg =
  match run_schedule sched1 cfg with
  | Some cfg' => run_schedule sched2 cfg'
  | None => None
  end.
Proof.
  revert cfg. induction sched1 as [|a sched1 IH]; intros cfg; [done|].
  simpl. destruct (act a cfg); [apply IH|done].
Qed.

Lemma finishes_run t pc s n s' (pcs : gmap nat Pc) :
  finishes t pc s n s' ->
  run_schedule (replicate n (Step t)) (s, <[t := pc]> pcs) = Some (s', delete t pcs).
Proof.
  intros Hfin. induction Hfin as [pc s s' Hstep|pc s s1 pc1 n s' Hstep Hfin IH].
  - simpl. rewrite lookup_insert_eq, Hstep. by rewrite delete_insert_eq.
  - simpl. rewrite lookup_insert_eq, Hstep. rewrite insert_insert_eq.
    simpl in IH. exact IH.
Qed.

(** The statements of a getter, run alone, do what the method does. *)
Lemma finishes_get_data t s :
  exists n, finishes t (GetStub GData) (snd (enter t MGetData s)) n (snd (get_data t s)).
Proof.
  destruct (data_stub (local_of t s)) as [st|] eqn:Hst.
  - exists 1. apply finishes_last. rewrite (get_data_cached t s st Hst).
    unfold step, has_stub. simpl. rewrite local_of_calls, Hst.
    by rewrite bool_decide_eq_true_2 by eauto.
  - rewrite (get_data_build t s Hst).
    set (s0 := with_calls (fun cs => cs ++ [(t, MGetData)]) s).
    assert (Hstep0 : step t (GetStub GData) s0 = (s0, Some (GetChannel GData))).
    { unfold step, has_stub. subst s0. rewrite local_of_calls, Hst.
      rewrite bool_decide_eq_false_2; [done|]. by intros [? ?]. }
    change (snd (enter t MGetData s)) with s0.
    destruct (channel (local_of t s0)) as [c|] eqn:Hc.
    + exists 3. rewrite (_get_channel_cached t s0 c Hc). simpl.
      eapply finishes_next; [exact Hstep0|].
      eapply finishes_next; [unfold step; by rewrite Hc|].
      apply finishes_last. reflexivity.
    + destruct (next_fault s0) as [e|] eqn:Hf.
      * exists 3. rewrite (_get_channel_fault t s0 e Hc Hf). simpl.
        eapply finishes_next; [exact Hstep0|].
        eapply finishes_next; [unfold step; by rewrite Hc|].
        apply finishes_last. unfold step.
        by rewrite (create_channel_fault t _ s0 e Hf).
      * exists 6. rewrite (_get_channel_fresh t s0 Hc Hf). simpl.
        eapply finishes_next; [exact Hstep0|].
        eapply finishes_next; [unfold step; by rewrite Hc|].
        eapply finishes_next; [unfold step; by rewrite (create_channel_ok t _ s0 Hf)|].
        eapply finishes_next; [reflexivity|].
        eapply finishes_next; [reflexivity|].
        apply finishes_last. unfold step. munfold. simpl.
        unfold with_local, with_trace, local_of. simpl.
        rewrite !lookup_insert_eq. simpl. by rewrite <- app_assoc.
Qed.

Lemma finishes_get_bblfsh t s :
  exists n, finishes t (GetStub GBblfsh) (snd (enter t MGetBblfsh s)) n (snd (get_bblfsh t s)).
Proof.
  destruct (bblfsh_stub (local_of t s)) as [st|] eqn:Hst.
  - exists 1. apply finishes_last. rewrite (get_bblfsh_cached t s st Hst).
    unfold step, has_stub. simpl. rewrite local_of_calls, Hst.
    by rewrite bool_decide_eq_true_2 by eauto.
  - rewrite (get_bblfsh_build t s Hst).
    set (s0 := with_calls (fun cs => cs ++ [(t, MGetBblfsh)]) s).
    assert (Hstep0 : step t (GetStub GBblfsh) s0 = (s0, Some (GetChannel GBblfsh))).
    { unfold step, has_stub. subst s0. rewrite local_of_calls, Hst.
      rewrite bool_decide_eq_false_2; [done|]. by intros [? ?]. }
    change (snd (enter t MGetBblfsh s)) with s0.
    destruct (channel (local_of t s0)) as [c|] eqn:Hc.
    + exists 3. rewrite (_get_channel_cached t s0 c Hc). simpl.
      eapply finishes_next; [exact Hstep0|].
      eapply finishes_next; [unfold step; by rewrite Hc|].
      apply finishes_last. reflexivity.
    + destruct (next_fault s0) as [e|] eqn:Hf.
      * exists 3. rewrite (_get_channel_fault t s0 e Hc Hf). simpl.
        eapply finishes_next; [exact Hstep0|].
        eapply finishes_next; [unfold step; by rewrite Hc|].
        apply finishes_last. unfold step.
        by rewrite (create_channel_fault t _ s0 e Hf).
      * exists 6. rewrite (_get_channel_fresh t s0 Hc Hf). simpl.
        eapply finishes_next; [exact Hstep0|].
        eapply finishes_next; [unfold step; by rewrite Hc|].
        eapply finishes_next; [unfold step; by rewrite (create_channel_ok t _ s0 Hf)|].
        eapply finishes_next; [reflexivity|].
        eapply finishes_next; [reflexivity|].
        apply finishes_last. unfold step. munfold. simpl.
        unfold with_local, with_trace, local_of. simpl.
        rewrite !lookup_insert_eq. simpl. by rewrite <- app_assoc.
Qed.

Lemma finishes_close_channel t s :
  exists n, finishes t CloseRead (snd (enter t MCloseChannel s)) n (snd (close_channel t s)).
Proof.
  set (s0 := with_calls (fun cs => cs ++ [(t, MCloseChannel)]) s).
  change (snd (enter t MCloseChannel s)) with s0.
  destruct (channel (local_of t s)) as [c|] eqn:Hc.
  - destruct (py_list_remove c (_data_request_channels s)) as [l'|] eqn:Hr.
    + exists 7. rewrite (close_channel_some t s c l' Hc Hr). simpl.
      eapply finishes_next; [unfold step; subst s0; by rewrite local_of_calls, Hc|].
      eapply finishes_next; [unfold step; subst s0; simpl; by rewrite Hr|].
      eapply finishes_next; [reflexivity|].
      eapply finishes_next; [reflexivity|].
      eapply finishes_next; [reflexivity|].
      eapply finishes_next; [reflexivity|].
      apply finishes_last. unfold step. munfold. simpl.
      unfold with_local, with_trace, with_channels, local_of. simpl.
      rewrite !lookup_insert_eq. simpl. rewrite !insert_insert_eq.
      by rewrite <- app_assoc.
    + exists 2. rewrite (close_channel_unregistered t s c Hc Hr). simpl.
      eapply finishes_next; [unfold step; subst s0; by rewrite local_of_calls, Hc|].
      apply finishes_last. unfold step. subst s0. simpl. by rewrite Hr.
  - exists 1. rewrite (close_channel_none t s Hc). simpl.
    apply finishes_last. unfold step. subst s0. by rewrite local_of_calls, Hc.
Qed.

(** The [for] loop of [shutdown], from index [i] on. *)
Lemma finishes_shutdown_loop t k : forall i s,
  length (_data_request_channels s) = i + k ->
  finishes t (ShutLoop i) s (k + 3)
    (with_local (fun _ => ∅)
       (with_channels (fun _ => [])
          (with_trace (fun tr => tr ++ map EvClosed (drop i (_data_request_channels s))) s))).
Proof.
  induction k as [|k IH]; intros i s Hlen.
  - assert (Hnone : _data_request_channels s !! i = None)
      by (apply lookup_ge_None; lia).
    rewrite drop_ge by lia. simpl.
    eapply finishes_next; [unfold step; by rewrite Hnone|].
    eapply finishes_next; [reflexivity|].
    apply finishes_last. unfold step, with_local, with_channels, with_trace. simpl.
    by rewrite app_nil_r.
  - destruct (_data_request_channels s !! i) as [c|] eqn:Hc.
    2:{ apply lookup_ge_None in Hc. lia. }
    eapply finishes_next; [unfold step; by rewrite Hc|].
    specialize (IH (S i) (snd (channel_close c s))).
    simpl in IH. rewrite (drop_S _ c i Hc).
    replace (with_local _ _) with
      (with_local (fun _ : gmap nat Local => ∅)
         (with_channels (fun _ => [])
            (with_trace (fun tr => tr ++ map EvClosed (drop (S i) (_data_request_channels s)))
               (with_trace (fun tr => tr ++ [EvClosed c]) s)))).
    + apply IH. lia.
    + unfold with_local, with_channels, with_trace. simpl. by rewrite <- app_assoc.
Qed.

Lemma finishes_shutdown t s :
  exists n, finishes t ShutLog (snd (enter t MShutdown s)) n (snd (shutdown t s)).
Proof.
  exists (S (length (_data_request_channels s) + 3)).
  eapply finishes_next; [reflexivity|].
  rewrite shutdown_eq. simpl.
  pose proof (finishes_shutdown_loop t (length (_data_request_channels s)) 0
                (with_trace (fun tr => tr ++ [EvLog LogShuttingDown])
                   (with_calls (fun cs => cs ++ [(t, MShutdown)]) s)) eq_refl) as Hloop.
  simpl in Hloop. exact Hloop.
Qed.

(** A whole operation run alone ends where the method ends. *)
Lemma alone_exec t o s :
  exists n, run_schedule (alone t o n) (s, ∅) = Some (exec t o s, ∅).
Proof.
  assert (Hgo : forall m pc s', entry o = Some (m, pc) ->
            (exists n, finishes t pc (snd (enter t m s)) n s') ->
            exists n, run_schedule (alone t o n) (s, ∅) = Some (s', ∅)).
  { intros m pc s' He [n Hfin]. exists n. unfold alone. simpl.
    rewrite lookup_empty, He.
    rewrite (finishes_run t pc _ n s' ∅ Hfin). by rewrite delete_empty. }
  destruct o; simpl.
  - apply (Hgo MGetData (GetStub GData)); [done|apply finishes_get_data].
  - apply (Hgo MGetBblfsh (GetStub GBblfsh)); [done|apply finishes_get_bblfsh].
  - apply (Hgo MCloseChannel CloseRead); [done|apply finishes_close_channel].
  - apply (Hgo MShutdown ShutLog); [done|apply finishes_shutdown].
  - exists 0. unfold alone. simpl. by rewrite lookup_empty.
Qed.

Lemma serial_run ops : forall s,
  exists sched, serial_schedule sched /\ run_schedule sched (s, ∅) = Some (run ops s, ∅).
Proof.
  induction ops as [|[t o] ops IH]; intros s.
  - exists []. split; [constructor|done].
  - destruct (alone_exec t o s) as [n Hn].
    destruct (IH (exec t o s)) as (sched & Hser & Hrun).
    exists (alone t o n ++ sched). split; [by constructor|].
    rewrite run_schedule_app, Hn. exact Hrun.
Qed.

Lemma finishes_prefix t pc s n s' (pcs : gmap nat Pc) :
  finishes t pc s n s' ->
  forall k, k < n ->
    exists s'' pc'',
      run_schedule (replicate k (Step t)) (s, <[t := pc]> pcs) = Some (s'', <[t := pc'']> pcs).
Proof.
  intros Hfin. induction Hfin as [pc s s' Hstep|pc s s1 pc1 n s' Hstep Hfin IH]; intros k Hk.
  - assert (k = 0) as -> by lia. by exists s, pc.
  - destruct k as [|k]; [by exists s, pc|].
    destruct (IH k ltac:(lia)) as (s'' & pc'' & Hrun).
    exists s'', pc''. simpl. rewrite lookup_insert_eq, Hstep, insert_insert_eq. exact Hrun.
Qed.

Lemma run_step_idle t k s (pcs : gmap nat Pc) :
  pcs !! t = None -> run_schedule (replicate (S k) (Step t)) (s, pcs) = None.
Proof. intros Hidle. simpl. by rewrite Hidle. Qed.

(** A call and [n] statements of one thread, from a state where no thread
    is inside a method: too many statements cannot be scheduled, too few
    leave the thread inside the method, and otherwise the method is done. *)
Lemma alone_outcome t o n s :
  run_schedule (alone t o n) (s, ∅) = None \/
  run_schedule (alone t o n) (s, ∅) = Some (exec t o s, ∅) \/
  exists s' pc, run_schedule (alone t o n) (s, ∅) = Some (s', {[t := pc]}).
Proof.
  assert (Hgo : forall m pc, entry o = Some (m, pc) ->
            (exists n0, finishes t pc (snd (enter t m s)) n0 (exec t o s)) ->
            run_schedule (alone t o n) (s, ∅) = None \/
            run_schedule (alone t o n) (s, ∅) = Some (exec t o s, ∅) \/
            exists s' pc, run_schedule (alone t o n) (s, ∅) = Some (s', {[t := pc]})).
  { intros m pc He [n0 Hfin]. unfold alone.
    assert (Hcall : forall rest, run_schedule (Call t o :: rest) (s, ∅) =
              run_schedule rest (snd (enter t m s), <[t := pc]> ∅)).
    { intros rest. simpl. by rewrite lookup_empty, He. }
    rewrite Hcall.
    destruct (decide (n < n0)) as [Hlt|Hge].
    - right. right. destruct (finishes_prefix t pc _ n0 _ ∅ Hfin n Hlt) as (s'' & pc'' & Hrun).
      exists s'', pc''. rewrite Hrun. by rewrite insert_empty.
    - destruct (decide (n = n0)) as [->|Hne].
      + right. left. rewrite (finishes_run t pc _ n0 _ ∅ Hfin). by rewrite delete_empty.
      + left. replace n with (n0 + S (n - n0 - 1)) by lia.
        rewrite replicate_add, run_schedule_app.
        rewrite (finishes_run t pc _ n0 _ ∅ Hfin).
        apply run_step_idle. by rewrite delete_empty, lookup_empty. }
  destruct o.
  - apply (Hgo MGetData (GetStub GData)); [done|apply finishes_get_data].
  - apply (Hgo MGetBblfsh (GetStub GBblfsh)); [done|apply finishes_get_bblfsh].
  - apply (Hgo MCloseChannel CloseRead); [done|apply finishes_close_channel].
  - apply (Hgo MShutdown ShutLog); [done|apply finishes_shutdown].
  - destruct n as [|n].
    + right. left. unfold alone. simpl. by rewrite lookup_empty.
    + left. unfold alone. simpl. by rewrite !lookup_empty.
Qed.

(** The scheduler moves one thread at a time. *)
Lemma act_other a t cfg cfg' :
  match a with Call t' _ | Step t' => t' <> t end ->
  act a cfg = Some cfg' -> snd cfg' !! t = snd cfg !! t.
Proof.
  destruct cfg as [s pcs]. destruct a as [t' o|t']; simpl; intros Hne.
  - destruct (pcs !! t'); [done|]. destruct (entry o) as [[m pc]|]; intros [= <-]; simpl.
    + by rewrite lookup_insert_ne.
    + done.
  - destruct (pcs !! t') as [pc|]; [|done].
    destruct (step t' pc s) as [s' [pc'|]]; intros [= <-]; simpl.
    + by rewrite lookup_insert_ne.
    + by rewrite lookup_delete_ne.
Qed.

Lemma steps_other t t' n cfg cfg' :
  t' <> t -> run_schedule (replicate n (Step t')) cfg = Some cfg' ->
  snd cfg' !! t = snd cfg !! t.
Proof.
  intros Hne. revert cfg. induction n as [|n IH]; intros cfg; simpl.
  - by intros [= <-].
  - destruct (act (Step t') cfg) as [cfg1|] eqn:Hact; [|done].
    intros Hrun. rewrite (IH cfg1 Hrun). by apply (act_other (Step t') t cfg cfg1).
Qed.

(** A thread that is inside a method stays where it is while whole
    operations are scheduled: none of them can be its own. *)
Lemma serial_busy sched : serial_schedule sched ->
  forall t pc cfg cfg',
    snd cfg !! t = Some pc -> run_schedule sched cfg = Some cfg' ->
    snd cfg' !! t = Some pc.
Proof.
  induction 1 as [|t' o n rest Hser IH]; intros t pc cfg cfg' Hbusy.
  - simpl. by intros [= <-].
  - rewrite run_schedule_app. unfold alone.
    destruct (decide (t' = t)) as [->|Hne].
    + simpl. destruct cfg as [s pcs]. simpl in *. by rewrite Hbusy.
    + change (Call t' o :: replicate n (Step t')) with ([Call t' o] ++ replicate n (Step t')).
      rewrite run_schedule_app. simpl.
      destruct (act (Call t' o) cfg) as [cfg1|] eqn:Hcall; [|done].
      destruct (run_schedule (replicate n (Step t')) cfg1) as [cfg2|] eqn:Hsteps; [|done].
      intros Hrest. apply (IH t pc cfg2 cfg' ); [|done].
      rewrite (steps_other t t' n cfg1 cfg2 Hne Hsteps).
      by rewrite (act_other (Call t' o) t cfg cfg1 Hne Hcall).
Qed.

(** Whole operations scheduled one after the other, all finished: the
    session is in a state that the methods themselves can reach. *)
Lemma serial_sound sched : serial_schedule sched ->
  forall s s', reachable s -> run_schedule sched (s, ∅) = Some (s', ∅) -> reachable s'.
Proof.
  induction 1 as [|t o n rest Hser IH]; intros s s' Hreach.
  - simpl. by intros [= <-].
  - rewrite run_schedule_app.
    destruct (alone_outcome t o n s) as [->|[->|(s1 & pc & ->)]]; [done| |].
    + apply IH. by apply reachable_exec.
    + intros Hrest.
      pose proof (serial_busy rest Hser t pc (s1, {[t := pc]}) (s', ∅)
                    (lookup_singleton_eq t pc) Hrest) as Hbusy.
      simpl in Hbusy. by rewrite lookup_empty in Hbusy.
Qed.

(** What [lost_channel_schedule] leaves behind: every thread is back outside
    the methods, channel 0 has been opened and never closed, and neither the
    registry nor any slot knows it. *)
Lemma lost_channel_outcome :
  run_schedule lost_channel_schedule (DataService__init__ "localhost:10301" [], ∅) =
    Some (mkState ∅ [] "localhost:10301" 1 []
            [EvLog LogShuttingDown;
             EvOpened 2 (mkChannel 0 "localhost:10301");
             EvLog (LogOpened (mkChannel 0 "localhost:10301"))]
            [(1, MShutdown); (2, MGetData)],
          ∅).
Proof. vm_compute. reflexivity. Qed.

(** Nothing keeps the registry for one thread: in the middle of
    [lost_channel_schedule], thread 1 stands between the loop and the
    [clear()] of [shutdown] and the [append] of thread 2 is scheduled. *)
Lemma registry_not_exclusive : ~ registry_exclusive.
Proof.
  intros Hex.
  pose (c := mkChannel 0 "localhost:10301").
  pose (s := mkState {[2 := mkLocal (Some c) None None]} [] "localhost:10301" 1 []
               [EvLog LogShuttingDown; EvOpened 2 c] [(1, MShutdown); (2, MGetData)]).
  pose (pcs := ({[1 := ShutClear; 2 := AppendChannel GData c]} : gmap nat Pc)).
  assert (Hnone : act (Step 2) (s, pcs) = None).
  { apply (Hex "localhost:10301" [] (take 7 lost_channel_schedule) s pcs
             1 2 ShutClear (AppendChannel GData c));
      [by vm_compute|done|by vm_compute|done|by vm_compute|done]. }
  vm_compute in Hnone. discriminate Hnone.
Qed.

(** The session is not serializable: the outcome of [lost_channel_schedule]
    is the outcome of no sequence of whole operations. *)
Lemma not_serializable : ~ serializable.
Proof.
  intros Hser.
  pose proof (Hser _ _ _ _ lost_channel_outcome) as Hreach.
  apply reachable_inv in Hreach.
  destruct (inv_accounted _ Hreach (mkChannel 0 "localhost:10301")) as [Hin|Hcl].
  - exists 2. simpl. right. left.
  - simpl in Hin. by apply elem_of_nil in Hin.
  - vm_compute in Hcl. discriminate.
Qed.

End InterleavingProperties.

(** C9, as the code has it.  The registry is a plain list without a lock.
    When the operations of the threads do not overlap, they behave as the
    whole methods do: every sequence of operations is the outcome of a
    schedule of whole operations, one after the other; and whenever such a
    schedule ends with every thread outside the methods, the session is in a
    state that a sequence of operations reaches, where the registry holds no
    channel twice and holds exactly the channels opened and not closed. *)
Theorem serial_operations_atomic (address : string) (faults : list (option Exception)) :
  let s0 := DataService__init__ address faults in
  (forall ops, exists sched,
     Interleaving.serial_schedule sched /\
     Interleaving.run_schedule sched (s0, ∅) = Some (run ops s0, ∅)) /\
  (forall sched s,
     Interleaving.serial_schedule sched ->
     Interleaving.run_schedule sched (s0, ∅) = Some (s, ∅) ->
     reachable s /\
     NoDup (_data_request_channels s) /\
     (forall c, c ∈ _data_request_channels s <->
                opened c (trace s) /\ closed_count c (trace s) = 0)).
Proof.
  intros s0. split; [intros ops; apply serial_run|].
  intros sched s Hser Hrun.
  assert (Hreach : reachable s).
  { apply (serial_sound sched Hser s0 s); [apply reachable_init|exact Hrun]. }
  pose proof (reachable_inv s Hreach) as Hinv.
  split; [exact Hreach|]. split; [apply (inv_nodup s Hinv)|].
  intros c. split.
  - intros Hc. split; [by apply (inv_registry_opened s Hinv)|by apply (inv_registry_live s Hinv)].
  - intros [Hop Hcl]. destruct (inv_accounted s Hinv c Hop) as [Hin|Hone]; [done|lia].
Qed.

Lemma serial_operations_atomic_witness :
  let s0 := DataService__init__ "localhost:10301" [] in
  let sched := Interleaving.alone 2 OpGetData 6 ++ Interleaving.alone 1 OpShutdown 5 ++ [] in
  let s := run [(2, OpGetData); (1, OpShutdown)] s0 in
  Interleaving.serial_schedule sched /\
  Interleaving.run_schedule sched (s0, ∅) = Some (s, ∅) /\
  reachable s /\
  (forall c, c ∈ _data_request_channels s <->
             opened c (trace s) /\ closed_count c (trace s) = 0).
Proof.
  intros s0 sched s.
  assert (Hser : Interleaving.serial_schedule sched)
    by (repeat constructor).
  assert (Hrun : Interleaving.run_schedule sched (s0, ∅) = Some (s, ∅))
    by (vm_compute; reflexivity).
  split; [exact Hser|]. split; [exact Hrun|].
  destruct (serial_operations_atomic "localhost:10301" []) as [_ Hsound].
  destruct (Hsound sched s Hser Hrun) as (H1 & _ & H3).
  split; [exact H1|exact H3].
Defined.

(** * More properties of the code *)

(** ** The getters, in full *)

Lemma get_data_reuse t s c :
  data_stub (local_of t s) = None -> channel (local_of t s) = Some c ->
  get_data t s =
    (Ok (mkDataStub c),
     mkState (<[t := set_data_stub (Some (mkDataStub c)) (local_of t s)]> (_data_request_local s))
       (_data_request_channels s) (_data_request_address s) (next_channel_id s)
       (transport_faults s) (trace s) (calls s ++ [(t, MGetData)])).
Proof.
  intros Hst Hc. rewrite (get_data_build t s Hst).
  by rewrite (_get_channel_cached t _ c) by done.
Qed.

Lemma get_bblfsh_reuse t s c :
  bblfsh_stub (local_of t s) = None -> channel (local_of t s) = Some c ->
  get_bblfsh t s =
    (Ok (mkProtocolServiceStub c),
     mkState (<[t := set_bblfsh_stub (Some (mkProtocolServiceStub c)) (local_of t s)]>
                (_data_request_local s))
       (_data_request_channels s) (_data_request_address s) (next_channel_id s)
       (transport_faults s) (trace s) (calls s ++ [(t, MGetBblfsh)])).
Proof.
  intros Hst Hc. rewrite (get_bblfsh_build t s Hst).
  by rewrite (_get_channel_cached t _ c) by done.
Qed.

Lemma get_bblfsh_fresh t s :
  channel (local_of t s) = None -> bblfsh_stub (local_of t s) = None ->
  next_fault s = None ->
  let c := mkChannel (next_channel_id s) (_data_request_address s) in
  get_bblfsh t s =
    (Ok (mkProtocolServiceStub c),
     mkState (<[t := set_bblfsh_stub (Some (mkProtocolServiceStub c))
                       (set_channel (Some c) (local_of t s))]>
                (_data_request_local s))
       (_data_request_channels s ++ [c])
       (_data_request_address s) (S (next_channel_id s))
       (tail (transport_faults s))
       (trace s ++ [EvOpened t c; EvLog (LogOpened c)])
       (calls s ++ [(t, MGetBblfsh)])).
Proof.
  intros Hc Hst Hf c. rewrite (get_bblfsh_build t s Hst).
  rewrite (_get_channel_fresh t _) by done. simpl.
  unfold with_local, local_of. simpl. rewrite lookup_insert_eq. simpl.
  by rewrite insert_insert_eq.
Qed.

Lemma get_bblfsh_fault t s e :
  channel (local_of t s) = None -> bblfsh_stub (local_of t s) = None ->
  next_fault s = Some e ->
  get_bblfsh t s =
    (Raise e,
     mkState (_data_request_local s) (_data_request_channels s)
       (_data_request_address s) (next_channel_id s)
       (tail (transport_faults s)) (trace s) (calls s ++ [(t, MGetBblfsh)])).
Proof.
  intros Hc Hst Hf. rewrite (get_bblfsh_build t s Hst).
  by rewrite (_get_channel_fault t _ e) by done.
Qed.

(** Splits a proof along the ways a getter can go: the stub is cached; the
    channel is there and the stub is built on it; the channel has to be
    created and the transport raises; the channel is created. *)
Ltac case_get_data t s :=
  let st := fresh "st" in let Hst := fresh "Hst" in
  let c := fresh "c" in let Hc := fresh "Hc" in
  let e := fresh "e" in let Hf := fresh "Hf" in
  destruct (data_stub (local_of t s)) as [st|] eqn:Hst;
  [ rewrite (get_data_cached t s st Hst) in *
  | destruct (channel (local_of t s)) as [c|] eqn:Hc;
    [ rewrite (get_data_reuse t s c Hst Hc) in *
    | destruct (next_fault s) as [e|] eqn:Hf;
      [ rewrite (get_data_fault t s e Hc Hst Hf) in *
      | rewrite (get_data_fresh t s Hc Hst Hf) in * ] ] ].

Ltac case_get_bblfsh t s :=
  let st := fresh "st" in let Hst := fresh "Hst" in
  let c := fresh "c" in let Hc := fresh "Hc" in
  let e := fresh "e" in let Hf := fresh "Hf" in
  destruct (bblfsh_stub (local_of t s)) as [st|] eqn:Hst;
  [ rewrite (get_bblfsh_cached t s st Hst) in *
  | destruct (channel (local_of t s)) as [c|] eqn:Hc;
    [ rewrite (get_bblfsh_reuse t s c Hst Hc) in *
    | destruct (next_fault s) as [e|] eqn:Hf;
      [ rewrite (get_bblfsh_fault t s e Hc Hst Hf) in *
      | rewrite (get_bblfsh_fresh t s Hc Hst Hf) in * ] ] ].

Ltac case_close_channel t s :=
  let c := fresh "c" in let Hc := fresh "Hc" in
  let l := fresh "l" in let Hrm := fresh "Hrm" in
  destruct (channel (local_of t s)) as [c|] eqn:Hc;
  [ destruct (py_list_remove c (_data_request_channels s)) as [l|] eqn:Hrm;
    [ rewrite (close_channel_some t s c l Hc Hrm) in *
    | rewrite (close_channel_unregistered t s c Hc Hrm) in * ]
  | rewrite (close_channel_none t s Hc) in * ].

(** What one thread does through the getters, [close_channel()] or by
    ending leaves the slot of every other thread as it was. *)
Lemma exec_other_slot t t' o s :
  o <> OpShutdown -> t <> t' -> local_of t' (exec t o s) = local_of t' s.
Proof.
  intros Ho Hne. destruct o; simpl; [| | |done|].
  - case_get_data t s; simpl; try done;
      unfold local_of; simpl; by rewrite ?lookup_insert_ne.
  - case_get_bblfsh t s; simpl; try done;
      unfold local_of; simpl; by rewrite ?lookup_insert_ne.
  - case_close_channel t s; simpl; try done;
      unfold local_of; simpl; by rewrite ?lookup_insert_ne.
  - unfold local_of, thread_exit. simpl. by rewrite lookup_delete_ne.
Qed.

(** After a getter has returned, the thread's slot holds the stub and the
    channel it is built on. *)
Lemma get_data_slot t s st :
  session_inv s -> fst (get_data t s) = Ok st ->
  channel (local_of t (snd (get_data t s))) = Some (data_stub_channel st) /\
  data_stub (local_of t (snd (get_data t s))) = Some st.
Proof.
  intros Hinv. case_get_data t s; simpl; intros [= <-];
    unfold local_of; simpl; rewrite ?lookup_insert_eq; simpl; try done.
  split; [|done]. by apply (inv_slot_coherent s Hinv t).
Qed.

Lemma get_bblfsh_slot t s st :
  session_inv s -> fst (get_bblfsh t s) = Ok st ->
  channel (local_of t (snd (get_bblfsh t s))) = Some (bblfsh_stub_channel st) /\
  bblfsh_stub (local_of t (snd (get_bblfsh t s))) = Some st.
Proof.
  intros Hinv. case_get_bblfsh t s; simpl; intros [= <-];
    unfold local_of; simpl; rewrite ?lookup_insert_eq; simpl; try done.
  split; [|done]. by apply (inv_slot_coherent s Hinv t).
Qed.

(** ** The session, seen by its users *)

(** X1.  A getter never hands out a stub on a closed channel: in a reachable
    state, the stub that [get_data()] or [get_bblfsh()] returns is built on
    the channel of the caller's slot, which is registered and not closed. *)
Theorem getters_hand_out_live_channels (s : State) (t : Tid) :
  reachable s ->
  (forall st s', get_data t s = (Ok st, s') ->
     channel (local_of t s') = Some (data_stub_channel st) /\
     (data_stub_channel st ∈ _data_request_channels s') /\
     closed_count (data_stub_channel st) (trace s') = 0) /\
  (forall st s', get_bblfsh t s = (Ok st, s') ->
     channel (local_of t s') = Some (bblfsh_stub_channel st) /\
     (bblfsh_stub_channel st ∈ _data_request_channels s') /\
     closed_count (bblfsh_stub_channel st) (trace s') = 0).
Proof.
  intros Hr. pose proof (reachable_inv s Hr) as Hinv. split.
  - intros st s' Hg.
    pose proof (get_data_inv t s Hinv) as Hinv'.
    destruct (get_data_slot t s st Hinv) as [Hch _]; [by rewrite Hg|].
    rewrite Hg in Hinv', Hch. simpl in *.
    pose proof (inv_slot_registered s' Hinv' t _ Hch) as Hreg.
    split; [done|]. split; [done|]. by apply (inv_registry_live s' Hinv').
  - intros st s' Hg.
    pose proof (get_bblfsh_inv t s Hinv) as Hinv'.
    destruct (get_bblfsh_slot t s st Hinv) as [Hch _]; [by rewrite Hg|].
    rewrite Hg in Hinv', Hch. simpl in *.
    pose proof (inv_slot_registered s' Hinv' t _ Hch) as Hreg.
    split; [done|]. split; [done|]. by apply (inv_registry_live s' Hinv').
Qed.

Lemma getters_hand_out_live_channels_witness :
  let s := run [(0, OpGetData); (0, OpCloseChannel)] (DataService__init__ "localhost:10301" []) in
  let c := mkChannel 1 "localhost:10301" in
  reachable s /\
  get_data 0 s = (Ok (mkDataStub c), snd (get_data 0 s)) /\
  closed_count c (trace (snd (get_data 0 s))) = 0.
Proof.
  intros s c.
  assert (Hr : reachable s)
    by (exists "localhost:10301", [], [(0, OpGetData); (0, OpCloseChannel)]; reflexivity).
  assert (Hg : get_data 0 s = (Ok (mkDataStub c), snd (get_data 0 s))) by reflexivity.
  split; [exact Hr|]. split; [exact Hg|].
  destruct (getters_hand_out_live_channels s 0 Hr) as [Hd _].
  destruct (Hd _ _ Hg) as (_ & _ & H3). exact H3.
Defined.

(** X2.  No channel is closed twice: in a reachable state every channel has been
    closed at most once, and a channel that has been closed was opened
    before and is no longer in the registry nor in any slot. *)
Theorem no_channel_closed_twice (s : State) (c : Channel) :
  reachable s ->
  closed_count c (trace s) <= 1 /\
  (closed_count c (trace s) = 1 ->
     opened c (trace s) /\ (c ∉ _data_request_channels s) /\
     forall t, channel (local_of t s) <> Some c).
Proof.
  intros Hr. pose proof (reachable_inv s Hr) as Hinv.
  assert (Hcl : closed_count c (trace s) <> 0 ->
            opened c (trace s) /\ closed_count c (trace s) = 1 /\
            (c ∉ _data_request_channels s)).
  { intros Hne. pose proof (closed_count_pos_elem_of c _ Hne) as Hin.
    pose proof (inv_closed_opened s Hinv c Hin) as Hop.
    split; [done|]. destruct (inv_accounted s Hinv c Hop) as [Hreg|Hone].
    - apply (inv_registry_live s Hinv) in Hreg. lia.
    - split; [done|]. intros Hreg. apply (inv_registry_live s Hinv) in Hreg. lia. }
  split.
  - destruct (closed_count c (trace s)) as [|n] eqn:Hn; [lia|].
    destruct Hcl as (_ & Hone & _); lia.
  - intros Hone. destruct Hcl as (Hop & _ & Hnreg); [lia|].
    split; [done|]. split; [done|].
    intros t Hc. apply Hnreg. by apply (inv_slot_registered s Hinv t).
Qed.

Lemma no_channel_closed_twice_witness :
  let s := run [(0, OpGetData); (0, OpCloseChannel); (1, OpShutdown); (0, OpCloseChannel);
                (1, OpShutdown)]
               (DataService__init__ "localhost:10301" []) in
  reachable s /\ closed_count (mkChannel 0 "localhost:10301") (trace s) <= 1.
Proof.
  intros s.
  assert (Hr : reachable s).
  { exists "localhost:10301", [],
      [(0, OpGetData); (0, OpCloseChannel); (1, OpShutdown); (0, OpCloseChannel);
       (1, OpShutdown)].
    reflexivity. }
  split; [exact Hr|].
  destruct (no_channel_closed_twice s (mkChannel 0 "localhost:10301") Hr) as [H1 _].
  exact H1.
Defined.

(** Two channels that were opened with the same identity are one channel. *)
Lemma opened_same_id s c1 c2 :
  session_inv s -> opened c1 (trace s) -> opened c2 (trace s) ->
  chan_id c1 = chan_id c2 -> c1 = c2.
Proof.
  intros Hinv [t1 H1] [t2 H2] Hid.
  apply (inv_opened_id s Hinv) in H1 as [_ Ha1].
  apply (inv_opened_id s Hinv) in H2 as [_ Ha2].
  destruct c1, c2. simpl in *. congruence.
Qed.

(** X3.  Threads do not share channels: when two different threads call
    [get_data()] one after the other in a reachable state and both calls
    return, the two stubs are built on channels of different identity, and
    the second call leaves the slot of the first thread as it was. *)
Theorem threads_get_distinct_channels (s s1 s2 : State) (t1 t2 : Tid)
    (st1 st2 : DataStub) :
  reachable s -> t1 <> t2 ->
  get_data t1 s = (Ok st1, s1) -> get_data t2 s1 = (Ok st2, s2) ->
  data_stub_channel st1 <> data_stub_channel st2 /\
  chan_id (data_stub_channel st1) <> chan_id (data_stub_channel st2) /\
  local_of t1 s2 = local_of t1 s1 /\
  data_stub (local_of t1 s2) = Some st1 /\
  data_stub (local_of t2 s2) = Some st2.
Proof.
  intros Hr Hne Hg1 Hg2.
  pose proof (reachable_inv s Hr) as Hinv.
  pose proof (get_data_inv t1 s Hinv) as Hinv1.
  destruct (get_data_slot t1 s st1 Hinv) as [Hc1 Hd1]; [by rewrite Hg1|].
  rewrite Hg1 in Hinv1, Hc1, Hd1. simpl in *.
  pose proof (get_data_inv t2 s1 Hinv1) as Hinv2.
  destruct (get_data_slot t2 s1 st2 Hinv1) as [Hc2 Hd2]; [by rewrite Hg2|].
  pose proof (exec_other_slot t2 t1 OpGetData s1 ltac:(done) ltac:(done)) as Hfr.
  simpl in Hfr. rewrite Hg2 in Hinv2, Hc2, Hd2, Hfr. simpl in *.
  assert (Hneq : data_stub_channel st1 <> data_stub_channel st2).
  { intros Heq. apply Hne.
    apply (inv_slot_private s2 Hinv2 t1 t2 (data_stub_channel st1)).
    - by rewrite Hfr.
    - by rewrite Heq. }
  split; [done|]. split.
  - intros Hid. apply Hneq. apply (opened_same_id s2 _ _ Hinv2); [| |done].
    + apply (inv_registry_opened s2 Hinv2), (inv_slot_registered s2 Hinv2 t1).
      by rewrite Hfr.
    + by apply (inv_registry_opened s2 Hinv2), (inv_slot_registered s2 Hinv2 t2).
  - split; [done|]. split; [by rewrite Hfr|done].
Qed.

Lemma threads_get_distinct_channels_witness :
  let s := DataService__init__ "localhost:10301" [] in
  let st1 := mkDataStub (mkChannel 0 "localhost:10301") in
  let st2 := mkDataStub (mkChannel 1 "localhost:10301") in
  let s1 := snd (get_data 1 s) in
  let s2 := snd (get_data 2 s1) in
  reachable s /\ 1 <> 2 /\
  get_data 1 s = (Ok st1, s1) /\ get_data 2 s1 = (Ok st2, s2) /\
  data_stub_channel st1 <> data_stub_channel st2.
Proof.
  intros s st1 st2 s1 s2.
  assert (Hr : reachable s) by apply reachable_init.
  assert (Hne : 1 <> 2) by lia.
  assert (Hg1 : get_data 1 s = (Ok st1, s1)) by reflexivity.
  assert (Hg2 : get_data 2 s1 = (Ok st2, s2)) by reflexivity.
  split; [exact Hr|]. split; [exact Hne|]. split; [exact Hg1|]. split; [exact Hg2|].
  destruct (threads_get_distinct_channels s s1 s2 1 2 st1 st2 Hr Hne Hg1 Hg2) as [H _].
  exact H.
Defined.

(** X4.  The two stubs of a thread share one channel: in a reachable state, a
    [get_bblfsh()] that follows a [get_data()] of the same thread returns a
    stub on the channel of the data stub, and opens, registers and closes
    nothing; and the other way round. *)
Theorem getters_share_the_channel (s s1 s2 : State) (t : Tid) :
  reachable s ->
  (forall st bt, get_data t s = (Ok st, s1) -> get_bblfsh t s1 = (Ok bt, s2) ->
     bblfsh_stub_channel bt = data_stub_channel st /\
     _data_request_channels s2 = _data_request_channels s1 /\
     trace s2 = trace s1 /\
     local_of t s2 =
       mkLocal (Some (data_stub_channel st)) (Some st) (Some bt)) /\
  (forall st bt, get_bblfsh t s = (Ok bt, s1) -> get_data t s1 = (Ok st, s2) ->
     data_stub_channel st = bblfsh_stub_channel bt /\
     _data_request_channels s2 = _data_request_channels s1 /\
     trace s2 = trace s1 /\
     local_of t s2 =
       mkLocal (Some (bblfsh_stub_channel bt)) (Some st) (Some bt)).
Proof.
  intros Hr. pose proof (reachable_inv s Hr) as Hinv. split.
  - intros st bt Hg1 Hg2.
    pose proof (get_data_inv t s Hinv) as Hinv1.
    destruct (get_data_slot t s st Hinv) as [Hc1 Hd1]; [by rewrite Hg1|].
    rewrite Hg1 in Hinv1, Hc1, Hd1. simpl in *.
    revert Hg2. case_get_bblfsh t s1; intros [= <- <-]; simpl; try congruence.
    + destruct (inv_slot_coherent s1 Hinv1 t) as [_ Hb]. specialize (Hb _ Hst). rewrite Hc1 in Hb. injection Hb as Hb.
      split; [done|]. split; [done|]. split; [done|].
      change (local_of t (with_calls (fun cs => cs ++ [(t, MGetBblfsh)]) s1))
        with (local_of t s1).
      destruct (local_of t s1) as [ch ds bs]. simpl in *. congruence.
    + assert (c = data_stub_channel st) as -> by congruence.
      split; [done|]. split; [done|]. split; [done|].
      unfold local_of at 1. simpl. rewrite lookup_insert_eq. simpl.
      unfold set_bblfsh_stub. by rewrite Hc, Hd1.
  - intros st bt Hg1 Hg2.
    pose proof (get_bblfsh_inv t s Hinv) as Hinv1.
    destruct (get_bblfsh_slot t s bt Hinv) as [Hc1 Hd1]; [by rewrite Hg1|].
    rewrite Hg1 in Hinv1, Hc1, Hd1. simpl in *.
    revert Hg2. case_get_data t s1; intros [= <- <-]; simpl; try congruence.
    + destruct (inv_slot_coherent s1 Hinv1 t) as [Hb _]. specialize (Hb _ Hst). rewrite Hc1 in Hb. injection Hb as Hb.
      split; [done|]. split; [done|]. split; [done|].
      change (local_of t (with_calls (fun cs => cs ++ [(t, MGetData)]) s1))
        with (local_of t s1).
      destruct (local_of t s1) as [ch ds bs]. simpl in *. congruence.
    + assert (c = bblfsh_stub_channel bt) as -> by congruence.
      split; [done|]. split; [done|]. split; [done|].
      unfold local_of at 1. simpl. rewrite lookup_insert_eq. simpl.
      unfold set_data_stub. by rewrite Hc, Hd1.
Qed.

Lemma getters_share_the_channel_witness :
  let s := DataService__init__ "localhost:10301" [] in
  let c := mkChannel 0 "localhost:10301" in
  let s1 := snd (get_data 0 s) in
  let s2 := snd (get_bblfsh 0 s1) in
  reachable s /\
  get_data 0 s = (Ok (mkDataStub c), s1) /\
  get_bblfsh 0 s1 = (Ok (mkProtocolServiceStub c), s2) /\
  _data_request_channels s2 = _data_request_channels s1.
Proof.
  intros s c s1 s2.
  assert (Hr : reachable s) by apply reachable_init.
  assert (Hg1 : get_data 0 s = (Ok (mkDataStub c), s1)) by reflexivity.
  assert (Hg2 : get_bblfsh 0 s1 = (Ok (mkProtocolServiceStub c), s2)) by reflexivity.
  split; [exact Hr|]. split; [exact Hg1|]. split; [exact Hg2|].
  destruct (getters_share_the_channel s s1 s2 0 Hr) as [H _].
  destruct (H _ _ Hg1 Hg2) as (_ & H2 & _). exact H2.
Defined.

(** X5.  A getter that has returned a stub returns the same stub when it is
    called again, and the second call changes nothing in the session
    beyond the log of calls. *)
Theorem getters_are_cached (s s1 : State) (t : Tid) :
  (forall st, get_data t s = (Ok st, s1) ->
     get_data t s1 = (Ok st, with_calls (fun cs => cs ++ [(t, MGetData)]) s1)) /\
  (forall bt, get_bblfsh t s = (Ok bt, s1) ->
     get_bblfsh t s1 = (Ok bt, with_calls (fun cs => cs ++ [(t, MGetBblfsh)]) s1)).
Proof.
  split.
  - intros st. case_get_data t s; intros [= <- <-]; apply get_data_cached;
      unfold local_of; simpl; rewrite ?lookup_insert_eq; done.
  - intros bt. case_get_bblfsh t s; intros [= <- <-]; apply get_bblfsh_cached;
      unfold local_of; simpl; rewrite ?lookup_insert_eq; done.
Qed.

Lemma getters_are_cached_witness :
  let s := DataService__init__ "localhost:10301" [] in
  let st := mkDataStub (mkChannel 0 "localhost:10301") in
  let s1 := snd (get_data 0 s) in
  get_data 0 s = (Ok st, s1) /\
  get_data 0 s1 = (Ok st, with_calls (fun cs => cs ++ [(0, MGetData)]) s1).
Proof.
  intros s st s1.
  assert (Hg : get_data 0 s = (Ok st, s1)) by reflexivity.
  split; [exact Hg|].
  destruct (getters_are_cached s s1 0) as [H _]. exact (H st Hg).
Defined.

(** X6.  Threads do not disturb each other: what a thread does through the
    getters, [close_channel()] or by ending leaves the slot of every other
    thread as it was, and the channel in that slot stays registered and
    open.  (Only [shutdown()] reaches into the slots of other threads.) *)
Theorem other_threads_untouched (s : State) (t t' : Tid) (o : Op) :
  reachable s -> t <> t' -> o <> OpShutdown ->
  local_of t' (exec t o s) = local_of t' s /\
  (forall c, channel (local_of t' s) = Some c ->
     (c ∈ _data_request_channels (exec t o s)) /\
     closed_count c (trace (exec t o s)) = 0).
Proof.
  intros Hr Hne Ho.
  pose proof (exec_inv t o s (reachable_inv s Hr)) as Hinv'.
  pose proof (exec_other_slot t t' o s Ho Hne) as Hfr.
  split; [done|]. intros c Hc.
  assert (Hreg : c ∈ _data_request_channels (exec t o s)).
  { apply (inv_slot_registered _ Hinv' t'). by rewrite Hfr. }
  split; [done|]. by apply (inv_registry_live _ Hinv').
Qed.

Lemma other_threads_untouched_witness :
  let s := run [(0, OpGetData); (1, OpGetData)] (DataService__init__ "localhost:10301" []) in
  reachable s /\ 0 <> 1 /\ OpCloseChannel <> OpShutdown /\
  local_of 1 (exec 0 OpCloseChannel s) = local_of 1 s.
Proof.
  intros s.
  assert (Hr : reachable s)
    by (exists "localhost:10301", [], [(0, OpGetData); (1, OpGetData)]; reflexivity).
  assert (Hne : 0 <> 1) by lia.
  assert (Ho : OpCloseChannel <> OpShutdown) by discriminate.
  split; [exact Hr|]. split; [exact Hne|]. split; [exact Ho|].
  destruct (other_threads_untouched s 0 1 OpCloseChannel Hr Hne Ho) as [H _]. exact H.
Defined.

(** X7.  A channel that cannot be created leaves no trace: in a reachable state,
    when the thread has no channel and [create_channel] raises [e], both
    getters raise [e], and each of them leaves slots, registry and history
    as they were (the failed attempt is used up, no identity is issued);
    either getter called again once the transport delivers returns a stub on
    the channel that is then created. *)
Theorem failed_creation_changes_nothing (s : State) (t : Tid) (e : Exception) :
  reachable s -> channel (local_of t s) = None -> next_fault s = Some e ->
  let s' := snd (get_data t s) in
  fst (get_data t s) = Raise e /\
  fst (get_bblfsh t s) = Raise e /\
  _data_request_local s' = _data_request_local s /\
  _data_request_channels s' = _data_request_channels s /\
  trace s' = trace s /\
  next_channel_id s' = next_channel_id s /\
  transport_faults s' = tail (transport_faults s) /\
  (next_fault s' = None ->
     fst (get_data t s') =
       Ok (mkDataStub (mkChannel (next_channel_id s) (_data_request_address s)))) /\
  (forall s2, s2 = snd (get_data t s) \/ s2 = snd (get_bblfsh t s) ->
     _data_request_local s2 = _data_request_local s /\
     _data_request_channels s2 = _data_request_channels s /\
     _data_request_address s2 = _data_request_address s /\
     trace s2 = trace s /\
     next_channel_id s2 = next_channel_id s /\
     transport_faults s2 = tail (transport_faults s) /\
     (forall t', local_of t' s2 = local_of t' s) /\
     (next_fault s2 = None ->
        let c := mkChannel (next_channel_id s) (_data_request_address s) in
        fst (get_data t s2) = Ok (mkDataStub c) /\
        fst (get_bblfsh t s2) = Ok (mkProtocolServiceStub c))).
Proof.
  intros Hr Hc Hf s'. pose proof (reachable_inv s Hr) as Hinv.
  destruct (inv_slot_coherent s Hinv t) as [Hd Hb].
  assert (Hst : data_stub (local_of t s) = None).
  { destruct (data_stub (local_of t s)) as [st|] eqn:Hst; [|done].
    specialize (Hd st eq_refl). congruence. }
  assert (Hbt : bblfsh_stub (local_of t s) = None).
  { destruct (bblfsh_stub (local_of t s)) as [st|] eqn:Hbt; [|done].
    specialize (Hb st eq_refl). congruence. }
  subst s'. rewrite (get_data_fault t s e Hc Hst Hf), (get_bblfsh_fault t s e Hc Hbt Hf).
  simpl. repeat (split; [done|]).
  split.
  { intros Hf'.
    set (s' := mkState _ _ _ _ _ _ _) in *.
    by rewrite (get_data_fresh t s' Hc Hst Hf'). }
  intros s2 [-> | ->]; simpl; repeat (split; [done|]); intros Hf'.
  - set (s' := mkState _ _ _ _ _ _ _) in *.
    by rewrite (get_data_fresh t s' Hc Hst Hf'), (get_bblfsh_fresh t s' Hc Hbt Hf').
  - set (s' := mkState _ _ _ _ _ _ _) in *.
    by rewrite (get_data_fresh t s' Hc Hst Hf'), (get_bblfsh_fresh t s' Hc Hbt Hf').
Qed.

Lemma failed_creation_changes_nothing_witness :
  let e := mkException RpcError [PStr "UNAVAILABLE"] in
  let s := DataService__init__ "localhost:10301" [Some e] in
  reachable s /\ channel (local_of 0 s) = None /\ next_fault s = Some e /\
  fst (get_data 0 s) = Raise e /\
  fst (get_data 0 (snd (get_data 0 s))) = Ok (mkDataStub (mkChannel 0 "localhost:10301")) /\
  fst (get_bblfsh 0 s) = Raise e /\
  trace (snd (get_bblfsh 0 s)) = trace s /\
  _data_request_channels (snd (get_bblfsh 0 s)) = _data_request_channels s /\
  _data_request_local (snd (get_bblfsh 0 s)) = _data_request_local s /\
  fst (get_bblfsh 0 (snd (get_bblfsh 0 s)))
    = Ok (mkProtocolServiceStub (mkChannel 0 "localhost:10301")).
Proof.
  intros e s.
  assert (Hr : reachable s) by apply reachable_init.
  assert (Hc : channel (local_of 0 s) = None) by reflexivity.
  assert (Hf : next_fault s = Some e) by reflexivity.
  split; [exact Hr|]. split; [exact Hc|]. split; [exact Hf|].
  destruct (failed_creation_changes_nothing s 0 e Hr Hc Hf)
    as (H1 & H2 & _ & _ & _ & _ & _ & H8 & Hboth).
  split; [exact H1|]. split; [apply H8; reflexivity|].
  split; [exact H2|].
  destruct (Hboth (snd (get_bblfsh 0 s)) (or_intror eq_refl))
    as (Hl & Hreg & _ & Htr & _ & _ & _ & Hretry).
  split; [exact Htr|]. split; [exact Hreg|]. split; [exact Hl|].
  destruct (Hretry eq_refl) as [_ Hb]. exact Hb.
Defined.

(** X8.  Closing twice is closing once: in a reachable state, a second
    [close_channel()] of the same thread returns normally and changes
    nothing in the session beyond the log of calls. *)
Theorem close_channel_twice (s : State) (t : Tid) :
  reachable s ->
  let s1 := snd (close_channel t s) in
  channel (local_of t s1) = None /\
  close_channel t s1 = (Ok tt, with_calls (fun cs => cs ++ [(t, MCloseChannel)]) s1).
Proof.
  intros Hr s1. pose proof (reachable_inv s Hr) as Hinv.
  assert (Hnone : channel (local_of t s1) = None).
  { subst s1. case_close_channel t s; simpl.
    - unfold local_of. simpl. by rewrite lookup_insert_eq.
    - apply py_list_remove_None in Hrm. exfalso. apply Hrm.
      by apply (inv_slot_registered s Hinv t).
    - done. }
  split; [done|]. by apply close_channel_none.
Qed.

Lemma close_channel_twice_witness :
  let s := run [(0, OpGetData)] (DataService__init__ "localhost:10301" []) in
  let s1 := snd (close_channel 0 s) in
  reachable s /\
  close_channel 0 s1 = (Ok tt, with_calls (fun cs => cs ++ [(0, MCloseChannel)]) s1).
Proof.
  intros s s1.
  assert (Hr : reachable s) by (exists "localhost:10301", [], [(0, OpGetData)]; reflexivity).
  split; [exact Hr|].
  destruct (close_channel_twice s 0 Hr) as [_ H]. exact H.
Defined.

(** ** The decorators *)

Lemma handle_rpc_errors_rpc {A B C D R : Type} (func : Tid -> A -> B -> C -> D -> M R)
    t cls ptr config data s e s' :
  func t cls ptr config data s = (Raise e, s') -> is_rpc_error e = true ->
  session_inv s' ->
  _handle_rpc_errors func t cls ptr config data s = (Raise e, snd (close_channel t s')).
Proof.
  intros Hf Hrpc Hinv. unfold _handle_rpc_errors. rewrite Hf, Hrpc. munfold.
  pose proof (close_channel_returns t s' Hinv) as Hok.
  by destruct (close_channel t s') as [[[]|e2] s2].
Qed.

Lemma handle_rpc_errors_pass {A B C D R : Type} (func : Tid -> A -> B -> C -> D -> M R)
    t cls ptr config data s e s' :
  func t cls ptr config data s = (Raise e, s') -> is_rpc_error e = false ->
  _handle_rpc_errors func t cls ptr config data s = (Raise e, s').
Proof. intros Hf Hrpc. unfold _handle_rpc_errors. by rewrite Hf, Hrpc. Qed.

Lemma close_channel_empties t s :
  session_inv s -> channel (local_of t (snd (close_channel t s))) = None.
Proof.
  intros Hinv. case_close_channel t s; simpl.
  - unfold local_of. simpl. by rewrite lookup_insert_eq.
  - apply py_list_remove_None in Hrm. exfalso. apply Hrm.
    by apply (inv_slot_registered s Hinv t).
  - done.
Qed.

(** X9.  The channel is renewed after a transport failure: when a wrapped call
    has raised an [RpcError] (the session satisfying its invariant), the
    wrapper leaves the thread without a channel; the channel the thread held
    has been closed once; and the thread's next [get_data()], when the
    transport delivers, returns a stub on a channel that was never opened
    before. *)
Theorem channel_renewed_after_rpc_error {A B C D R : Type}
    (func : Tid -> A -> B -> C -> D -> M R)
    (t : Tid) (cls : A) (ptr : B) (config : C) (data : D) (s s' : State) (e : Exception) :
  func t cls ptr config data s = (Raise e, s') -> is_rpc_error e = true ->
  session_inv s' ->
  let w := _handle_rpc_errors func t cls ptr config data s in
  fst w = Raise e /\
  channel (local_of t (snd w)) = None /\
  (forall c, channel (local_of t s') = Some c ->
     closed_count c (trace (snd w)) = 1 /\ (c ∉ _data_request_channels (snd w))) /\
  (next_fault (snd w) = None ->
     exists c2,
       fst (get_data t (snd w)) = Ok (mkDataStub c2) /\
       ~ opened c2 (trace (snd w)) /\
       (forall c, channel (local_of t s') = Some c -> c2 <> c) /\
       closed_count c2 (trace (snd (get_data t (snd w)))) = 0).
Proof.
  intros Hf Hrpc Hinv w. subst w.
  rewrite (handle_rpc_errors_rpc func t cls ptr config data s e s' Hf Hrpc Hinv). simpl.
  pose proof (close_channel_inv t s' Hinv) as Hinv3.
  pose proof (close_channel_empties t s' Hinv) as Hnone.
  set (s3 := snd (close_channel t s')) in *.
  assert (Hold : forall c, channel (local_of t s') = Some c ->
            closed_count c (trace s3) = 1 /\ (c ∉ _data_request_channels s3) /\
            opened c (trace s3)).
  { intros c Hc. subst s3.
    pose proof (inv_slot_registered s' Hinv t c Hc) as Hreg.
    destruct (py_list_remove_elem_of c _ Hreg) as [l' Hrm].
    destruct (py_list_remove_spec c _ l' (inv_nodup s' Hinv) Hrm) as (_ & Hnin & _ & _).
    rewrite (close_channel_some t s' c l' Hc Hrm). simpl.
    rewrite closed_count_app, closed_count_close, (inv_registry_live s' Hinv c Hreg).
    rewrite decide_True by done. split; [done|]. split; [done|].
    apply opened_app. left. by apply (inv_registry_opened s' Hinv). }
  split; [done|]. split; [done|]. split.
  { intros c Hc. destruct (Hold c Hc) as (? & ? & _). done. }
  intros Hnf.
  assert (Hst : data_stub (local_of t s3) = None).
  { destruct (inv_slot_coherent s3 Hinv3 t) as [Hd _].
    destruct (data_stub (local_of t s3)) as [st|] eqn:Hst; [|done].
    specialize (Hd st eq_refl). congruence. }
  exists (mkChannel (next_channel_id s3) (_data_request_address s3)).
  pose proof (next_channel_not_opened s3 (_data_request_address s3) Hinv3) as Hfresh.
  pose proof (get_data_inv t s3 Hinv3) as Hinv4.
  rewrite (get_data_fresh t s3 Hnone Hst Hnf) in *. simpl in *.
  split; [done|]. split; [done|]. split.
  - intros c Hc Heq. destruct (Hold c Hc) as (_ & _ & Hop). apply Hfresh. by rewrite Heq.
  - apply (inv_registry_live _ Hinv4). simpl. apply elem_of_app. right. left.
Qed.

Lemma channel_renewed_after_rpc_error_witness :
  let s := DataService__init__ "localhost:10301" [] in
  let s' := snd (SampleData.failing_call 0 tt tt tt tt s) in
  let w := _handle_rpc_errors SampleData.failing_call 0 tt tt tt tt s in
  SampleData.failing_call 0 tt tt tt tt s = (Raise SampleData.unavailable, s') /\
  is_rpc_error SampleData.unavailable = true /\
  session_inv s' /\
  channel (local_of 0 s') = Some (mkChannel 0 "localhost:10301") /\
  channel (local_of 0 (snd w)) = None /\
  fst (get_data 0 (snd w)) = Ok (mkDataStub (mkChannel 1 "localhost:10301")).
Proof.
  intros s s' w.
  assert (Hf : SampleData.failing_call 0 tt tt tt tt s = (Raise SampleData.unavailable, s'))
    by reflexivity.
  assert (Hrpc : is_rpc_error SampleData.unavailable = true) by reflexivity.
  assert (Hinv : session_inv s').
  { apply reachable_inv. exists "localhost:10301", [], [(0, OpGetData)]. reflexivity. }
  split; [exact Hf|]. split; [exact Hrpc|]. split; [exact Hinv|]. split; [reflexivity|].
  destruct (channel_renewed_after_rpc_error SampleData.failing_call 0 tt tt tt tt s s'
              SampleData.unavailable Hf Hrpc Hinv) as (_ & H2 & _ & _).
  split; [exact H2|reflexivity].
Defined.

Section DecoratorProperties.
Context `{DataApi}.
Context {Self Cls Config Data Comments Model : Type}.
Implicit Types (train : @TrainFn _ Cls Config Data Model).
Implicit Types (analyze : @AnalyzeFn _ Self Data Comments).

Lemma wrapped_files_stream contents uast unicode train t cls ptr config data s stub s1 files :
  get_data t s = (Ok stub, s1) ->
  GetFiles stub (files_request ptr contents uast) = Ok files ->
  wrapped_files contents uast unicode train t cls ptr config data s =
    train t cls ptr config (if unicode then py_map convert_file files else files) data s1.
Proof.
  intros Hg Hf. unfold wrapped_files, request_files. munfold. rewrite Hg, Hf. done.
Qed.

Lemma wrapped_changes_stream contents uast unicode analyze t self ptr_from ptr_to data s
    stub s1 changes :
  get_data t s = (Ok stub, s1) ->
  GetChanges stub (changes_request ptr_from ptr_to contents uast) = Ok changes ->
  wrapped_changes contents uast unicode analyze t self ptr_from ptr_to data s =
    analyze t self ptr_from ptr_to
      (if unicode then py_map convert_change changes else changes) data s1.
Proof.
  intros Hg Hf. unfold wrapped_changes, request_changes. munfold. rewrite Hg, Hf. done.
Qed.

Lemma handle_rpc_errors_ext {A B C D R : Type}
    (f g : Tid -> A -> B -> C -> D -> M R) t a b c d s s1 :
  f t a b c d s = g t a b c d s1 ->
  _handle_rpc_errors f t a b c d s = _handle_rpc_errors g t a b c d s1.
Proof. intros Heq. unfold _handle_rpc_errors. by rewrite Heq. Qed.

(** X10.  What each decorator asks for and what it passes on.  Once [get_data()]
    has returned the stub and the service answers the decorator's request
    with a stream, the decorated method behaves as the method itself, called
    with that stream (converted when [unicode] is set) as [files] or
    [changes], under the error wrapper.  The requests are: UASTs only,
    [want_contents = False], [want_language = True], [want_uast = True];
    contents only, [True], [True], [False]; both, [True], [True], [True];
    always with the garbage pattern and [exclude_vendored = True]. *)
Theorem decorators_request_and_pass (unicode : bool) train analyze
    (t : Tid) (cls : Cls) (self : Self) (ptr ptr_from ptr_to : ReferencePointer)
    (config : Config) (data : Data) (s s1 : State) (stub : DataStub) :
  get_data t s = (Ok stub, s1) ->
  let fq c l u := mkFilesRequest (to_pb ptr) GARBAGE_PATTERN true c l u in
  let cq c l u := mkChangesRequest (to_pb ptr_from) (to_pb ptr_to) GARBAGE_PATTERN true c l u in
  let on_files files :=
    _handle_rpc_errors
      (fun t cls ptr config data =>
         train t cls ptr config (if unicode then py_map convert_file files else files) data)
      t cls ptr config data s1 in
  let on_changes changes :=
    _handle_rpc_errors
      (fun t self ptr_from ptr_to data =>
         analyze t self ptr_from ptr_to
           (if unicode then py_map convert_change changes else changes) data)
      t self ptr_from ptr_to data s1 in
  (forall files, GetFiles stub (fq false true true) = Ok files ->
     with_uasts unicode train t cls ptr config data s = on_files files) /\
  (forall files, GetFiles stub (fq true true false) = Ok files ->
     with_contents unicode train t cls ptr config data s = on_files files) /\
  (forall files, GetFiles stub (fq true true true) = Ok files ->
     with_uasts_and_contents unicode train t cls ptr config data s = on_files files) /\
  (forall changes, GetChanges stub (cq false true true) = Ok changes ->
     with_changed_uasts unicode analyze t self ptr_from ptr_to data s = on_changes changes) /\
  (forall changes, GetChanges stub (cq true true false) = Ok changes ->
     with_changed_contents unicode analyze t self ptr_from ptr_to data s =
       on_changes changes) /\
  (forall changes, GetChanges stub (cq true true true) = Ok changes ->
     with_changed_uasts_and_contents unicode analyze t self ptr_from ptr_to data s =
       on_changes changes).
Proof.
  intros Hg fq cq on_files on_changes.
  repeat split; intros st Hst.
  - apply handle_rpc_errors_ext. by eapply (wrapped_files_stream false true).
  - apply handle_rpc_errors_ext. by eapply (wrapped_files_stream true false).
  - apply handle_rpc_errors_ext. by eapply (wrapped_files_stream true true).
  - apply handle_rpc_errors_ext. by eapply (wrapped_changes_stream false true).
  - apply handle_rpc_errors_ext. by eapply (wrapped_changes_stream true false).
  - apply handle_rpc_errors_ext. by eapply (wrapped_changes_stream true true).
Qed.

End DecoratorProperties.

Lemma decorators_request_and_pass_witness :
  let api := SampleData.api (Ok (SYield "a.py" SDone)) (Ok SDone) in
  let s := DataService__init__ "localhost:10301" [] in
  let stub := mkDataStub (mkChannel 0 "localhost:10301") in
  let s1 := snd (get_data 0 s) in
  get_data 0 s = (Ok stub, s1) /\
  @GetFiles api stub (mkFilesRequest "HEAD" "garbage" true false true true)
    = Ok (SYield "a.py" SDone) /\
  @with_uasts api unit unit unit (list string) true SampleData.train_all 0 tt "HEAD" tt tt s =
    (Ok ["u:a.py"], s1).
Proof.
  intros api s stub s1.
  assert (Hg : get_data 0 s = (Ok stub, s1)) by reflexivity.
  assert (Hf : @GetFiles api stub (mkFilesRequest "HEAD" "garbage" true false true true)
               = Ok (SYield "a.py" SDone)) by reflexivity.
  split; [exact Hg|]. split; [exact Hf|].
  destruct (@decorators_request_and_pass api unit unit unit unit unit (list string) true
              SampleData.train_all (fun _ _ _ _ _ _ => mret tt)
              0 tt tt "HEAD" "HEAD" "HEAD" tt tt s s1 stub Hg) as (H1 & _).
  rewrite (H1 _ Hf). reflexivity.
Defined.

Section DecoratorErrors.
Context `{DataApi}.
Context {Self Cls Config Data Comments Model : Type}.
Implicit Types (train : @TrainFn _ Cls Config Data Model).
Implicit Types (analyze : @AnalyzeFn _ Self Data Comments).

Lemma wrapped_files_no_stream contents uast unicode train t cls ptr config data s s1 e :
  (get_data t s = (Raise e, s1) \/
   exists stub, get_data t s = (Ok stub, s1) /\
                GetFiles stub (files_request ptr contents uast) = Raise e) ->
  wrapped_files contents uast unicode train t cls ptr config data s = (Raise e, s1).
Proof.
  unfold wrapped_files, request_files. munfold.
  intros [Hg|(stub & Hg & Hf)]; rewrite Hg; [done|]. by rewrite Hf.
Qed.

Lemma wrapped_changes_no_stream contents uast unicode analyze t self ptr_from ptr_to data
    s s1 e :
  (get_data t s = (Raise e, s1) \/
   exists stub, get_data t s = (Ok stub, s1) /\
                GetChanges stub (changes_request ptr_from ptr_to contents uast) = Raise e) ->
  wrapped_changes contents uast unicode analyze t self ptr_from ptr_to data s = (Raise e, s1).
Proof.
  unfold wrapped_changes, request_changes. munfold.
  intros [Hg|(stub & Hg & Hf)]; rewrite Hg; [done|]. by rewrite Hf.
Qed.

(** X11.  The method is not run without data: in a reachable state, when
    [get_data()] raises or the service call of the decorator raises, the
    decorated call raises that exception whatever the method is; if it is an
    [RpcError] the thread's channel has been closed and its slot is empty,
    otherwise the session is as [get_data()] left it. *)
Theorem decorators_skip_method_on_error (contents uast unicode : bool) train analyze
    (t : Tid) (cls : Cls) (self : Self) (ptr ptr_from ptr_to : ReferencePointer)
    (config : Config) (data : Data) (s s1 : State) (e : Exception) :
  reachable s ->
  ((get_data t s = (Raise e, s1) \/
    exists stub, get_data t s = (Ok stub, s1) /\
                 GetFiles stub (files_request ptr contents uast) = Raise e) ->
   _handle_rpc_errors (wrapped_files contents uast unicode train) t cls ptr config data s =
     (Raise e, if is_rpc_error e then snd (close_channel t s1) else s1) /\
   (is_rpc_error e = true ->
      channel (local_of t (snd (close_channel t s1))) = None)) /\
  ((get_data t s = (Raise e, s1) \/
    exists stub, get_data t s = (Ok stub, s1) /\
                 GetChanges stub (changes_request ptr_from ptr_to contents uast) = Raise e) ->
   _handle_rpc_errors (wrapped_changes contents uast unicode analyze)
       t self ptr_from ptr_to data s =
     (Raise e, if is_rpc_error e then snd (close_channel t s1) else s1) /\
   (is_rpc_error e = true ->
      channel (local_of t (snd (close_channel t s1))) = None)).
Proof.
  intros Hr. pose proof (reachable_inv s Hr) as Hinv.
  assert (Hinv1 : forall r, get_data t s = (r, s1) -> session_inv s1).
  { intros r Hg. pose proof (get_data_inv t s Hinv) as Hi. by rewrite Hg in Hi. }
  split.
  - intros Hcase.
    assert (Hi : session_inv s1).
    { destruct Hcase as [Hg|(stub & Hg & _)]; by apply (Hinv1 _ Hg). }
    pose proof (wrapped_files_no_stream contents uast unicode train t cls ptr config data
                  s s1 e Hcase) as Hw.
    split; [|intros _; by apply close_channel_empties].
    destruct (is_rpc_error e) eqn:Hrpc.
    + by apply handle_rpc_errors_rpc.
    + by apply handle_rpc_errors_pass.
  - intros Hcase.
    assert (Hi : session_inv s1).
    { destruct Hcase as [Hg|(stub & Hg & _)]; by apply (Hinv1 _ Hg). }
    pose proof (wrapped_changes_no_stream contents uast unicode analyze t self ptr_from ptr_to
                  data s s1 e Hcase) as Hw.
    split; [|intros _; by apply close_channel_empties].
    destruct (is_rpc_error e) eqn:Hrpc.
    + by apply handle_rpc_errors_rpc.
    + by apply handle_rpc_errors_pass.
Qed.

(** X12.  An exception of the method that is not an [RpcError] leaves the channel
    alone: the decorated call raises it and the session is as the method
    left it, [close_channel] not entered. *)
Theorem decorators_pass_other_errors (contents uast unicode : bool) train analyze
    (t : Tid) (cls : Cls) (self : Self) (ptr ptr_from ptr_to : ReferencePointer)
    (config : Config) (data : Data) (s s1 s2 : State) (stub : DataStub) (e : Exception) :
  get_data t s = (Ok stub, s1) -> is_rpc_error e = false ->
  (forall files,
     GetFiles stub (files_request ptr contents uast) = Ok files ->
     train t cls ptr config (if unicode then py_map convert_file files else files) data s1
       = (Raise e, s2) ->
     _handle_rpc_errors (wrapped_files contents uast unicode train) t cls ptr config data s =
       (Raise e, s2)) /\
  (forall changes,
     GetChanges stub (changes_request ptr_from ptr_to contents uast) = Ok changes ->
     analyze t self ptr_from ptr_to
       (if unicode then py_map convert_change changes else changes) data s1 = (Raise e, s2) ->
     _handle_rpc_errors (wrapped_changes contents uast unicode analyze)
         t self ptr_from ptr_to data s =
       (Raise e, s2)).
Proof.
  intros Hg Hrpc. split.
  - intros files Hf Ht. apply handle_rpc_errors_pass; [|done].
    by rewrite (wrapped_files_stream contents uast unicode train t cls ptr config data
                  s stub s1 files Hg Hf).
  - intros changes Hf Ht. apply handle_rpc_errors_pass; [|done].
    by rewrite (wrapped_changes_stream contents uast unicode analyze t self ptr_from ptr_to
                  data s stub s1 changes Hg Hf).
Qed.

End DecoratorErrors.

Lemma decorators_skip_method_on_error_witness :
  let api := SampleData.api (Raise SampleData.unavailable) (Ok SDone) in
  let s := DataService__init__ "localhost:10301" [] in
  let s1 := snd (get_data 0 s) in
  reachable s /\
  (exists stub, get_data 0 s = (Ok stub, s1) /\
     @GetFiles api stub (@files_request api "HEAD" false true) = Raise SampleData.unavailable) /\
  @with_uasts api unit unit unit (list string) true SampleData.train_all 0 tt "HEAD" tt tt s =
    (Raise SampleData.unavailable, snd (close_channel 0 s1)).
Proof.
  intros api s s1.
  assert (Hr : reachable s) by apply reachable_init.
  assert (Hc : exists stub, get_data 0 s = (Ok stub, s1) /\
            @GetFiles api stub (@files_request api "HEAD" false true)
              = Raise SampleData.unavailable).
  { exists (mkDataStub (mkChannel 0 "localhost:10301")). split; reflexivity. }
  split; [exact Hr|]. split; [exact Hc|].
  destruct (@decorators_skip_method_on_error api unit unit unit unit unit (list string)
              false true true SampleData.train_all (fun _ _ _ _ _ _ => mret tt)
              0 tt tt "HEAD" "HEAD" "HEAD" tt tt s s1 SampleData.unavailable Hr) as [Hfiles _].
  destruct (Hfiles (or_intror Hc)) as [Hw _]. exact Hw.
Defined.

Lemma decorators_pass_other_errors_witness :
  let api := SampleData.api (Ok (SYield "a.py" SDone)) (Ok SDone) in
  let oops := mkException ValueError [PStr "bad model"] in
  let train : @TrainFn api unit unit unit (list string) := fun _ _ _ _ _ _ => raise oops in
  let s := DataService__init__ "localhost:10301" [] in
  let stub := mkDataStub (mkChannel 0 "localhost:10301") in
  let s1 := snd (get_data 0 s) in
  get_data 0 s = (Ok stub, s1) /\ is_rpc_error oops = false /\
  @GetFiles api stub (@files_request api "HEAD" true false) = Ok (SYield "a.py" SDone) /\
  @with_contents api unit unit unit (list string) false train 0 tt "HEAD" tt tt s =
    (Raise oops, s1).
Proof.
  intros api oops train s stub s1.
  assert (Hg : get_data 0 s = (Ok stub, s1)) by reflexivity.
  assert (Hrpc : is_rpc_error oops = false) by reflexivity.
  assert (Hf : @GetFiles api stub (@files_request api "HEAD" true false)
               = Ok (SYield "a.py" SDone)) by reflexivity.
  split; [exact Hg|]. split; [exact Hrpc|]. split; [exact Hf|].
  destruct (@decorators_pass_other_errors api unit unit unit unit unit (list string)
              true false false train (fun _ _ _ _ _ _ => mret tt)
              0 tt tt "HEAD" "HEAD" "HEAD" tt tt s s1 s1 stub oops Hg Hrpc) as [Hfiles _].
  exact (Hfiles _ Hf eq_refl).
Defined.

(** ** The driver version check, when something is malformed or fails *)

Section VersionCheckProperties.
Context `{Packaging}.

Lemma check_versions_unfold versions t s stub s1 :
  get_bblfsh t (with_calls (fun cs => cs ++ [(t, MCheckVersions)]) s) = (Ok stub, s1) ->
  check_bblfsh_driver_versions versions t s =
    match SupportedLanguages stub with
    | Raise e => (Raise e, s1)
    | Ok drivers =>
        match existing_versions drivers ∅ with
        | Raise e => (Raise e, s1)
        | Ok existing =>
            match collect_mismatched existing versions [] with
            | Raise e => (Raise e, s1)
            | Ok [] => (Ok tt, s1)
            | Ok (p :: l) => (Raise (UnsatisfiedDriverVersionError__init__ (p :: l)), s1)
            end
        end
    end.
Proof.
  intros Hstub. unfold check_bblfsh_driver_versions. munfold. simpl. rewrite Hstub.
  destruct (SupportedLanguages stub) as [drivers|e]; [|done].
  destruct (existing_versions drivers ∅) as [existing|e]; [|done].
  destruct (collect_mismatched existing versions []) as [[|p l]|e]; done.
Qed.

Lemma existing_versions_raise pre d post acc e :
  Forall (fun d' => is_ok (Version_new (version d')) = true) pre ->
  Version_new (version d) = Raise e ->
  existing_versions (pre ++ d :: post) acc = Raise e.
Proof.
  intros Hpre Hd. revert acc. induction Hpre as [|d' pre Hd' Hpre IH]; intros acc; simpl.
  - by rewrite Hd.
  - destruct (Version_new (version d')) as [v|e']; [apply IH|done].
Qed.

Lemma collect_mismatched_raise existing pre reqs bad post acc e :
  Forall2 (fun reqstr req => Requirement_new reqstr = Ok req) pre reqs ->
  Requirement_new bad = Raise e ->
  collect_mismatched existing (pre ++ bad :: post) acc = Raise e.
Proof.
  intros Hpre Hbad. revert acc.
  induction Hpre as [|reqstr req pre reqs Hreq Hpre IH]; intros acc; simpl.
  - by rewrite Hbad.
  - rewrite Hreq. destruct (existing !! name req) as [ver|]; [|apply IH].
    destruct (negb (specifier_contains (specifier req) ver)); apply IH.
Qed.

(** X13.  The check is not under the error wrapper: in a reachable state, when
    the capability call raises, the check raises that exception and the
    thread keeps its channel, registered and open, with the Babelfish stub
    on it. *)
Theorem check_versions_keeps_channel_on_failure (versions : list string) (t : Tid)
    (s s1 : State) (stub : ProtocolServiceStub) (e : Exception) :
  reachable s ->
  get_bblfsh t (with_calls (fun cs => cs ++ [(t, MCheckVersions)]) s) = (Ok stub, s1) ->
  SupportedLanguages stub = Raise e ->
  check_bblfsh_driver_versions versions t s = (Raise e, s1) /\
  channel (local_of t s1) = Some (bblfsh_stub_channel stub) /\
  bblfsh_stub (local_of t s1) = Some stub /\
  (bblfsh_stub_channel stub ∈ _data_request_channels s1) /\
  closed_count (bblfsh_stub_channel stub) (trace s1) = 0 /\
  call_count t MCloseChannel (calls s1) = call_count t MCloseChannel (calls s).
Proof.
  intros Hr Hstub Hrpc.
  pose proof (session_inv_calls (fun cs => cs ++ [(t, MCheckVersions)]) s
                (reachable_inv s Hr)) as Hinv0.
  pose proof (get_bblfsh_inv t _ Hinv0) as Hinv1.
  destruct (get_bblfsh_slot t _ stub Hinv0) as [Hc Hb]; [by rewrite Hstub|].
  assert (Hcalls : calls s1 = (calls s ++ [(t, MCheckVersions)]) ++ [(t, MGetBblfsh)]).
  { revert Hstub.
    case_get_bblfsh t (with_calls (fun cs => cs ++ [(t, MCheckVersions)]) s);
      by intros [= _ <-]. }
  rewrite Hstub in Hinv1, Hc, Hb. simpl in *.
  split; [by rewrite (check_versions_unfold versions t s stub s1 Hstub), Hrpc|].
  pose proof (inv_slot_registered s1 Hinv1 t _ Hc) as Hreg.
  split; [done|]. split; [done|]. split; [done|].
  split; [by apply (inv_registry_live s1 Hinv1)|].
  rewrite Hcalls, !call_count_app. unfold call_count at 2 3.
  rewrite !filter_cons_False by done. rewrite filter_nil. simpl. lia.
Qed.

(** X14.  One malformed installed version fails the whole check: when the version
    of some installed driver does not parse (those listed before it do), the
    check raises the parser's exception, whatever is required, nothing
    included. *)
Theorem check_versions_malformed_driver (versions : list string) (t : Tid)
    (s s1 : State) (stub : ProtocolServiceStub)
    (pre post : list Driver) (d : Driver) (e : Exception) :
  get_bblfsh t (with_calls (fun cs => cs ++ [(t, MCheckVersions)]) s) = (Ok stub, s1) ->
  SupportedLanguages stub = Ok (pre ++ d :: post) ->
  Forall (fun d' => is_ok (Version_new (version d')) = true) pre ->
  Version_new (version d) = Raise e ->
  check_bblfsh_driver_versions versions t s = (Raise e, s1) /\
  check_bblfsh_driver_versions [] t s = (Raise e, s1).
Proof.
  intros Hstub Hrpc Hpre Hd.
  rewrite !(check_versions_unfold _ t s stub s1 Hstub), Hrpc.
  by rewrite (existing_versions_raise pre d post ∅ e Hpre Hd).
Qed.

(** X15.  One malformed requirement fails the whole check: when a requirement
    string does not parse (those before it do), the check raises the
    parser's exception and the mismatches found before it are not
    reported. *)
Theorem check_versions_malformed_requirement (t : Tid) (s s1 : State)
    (stub : ProtocolServiceStub) (drivers : list Driver) (existing : gmap string Version)
    (pre post : list string) (reqs : list (Requirement SpecifierSet)) (bad : string)
    (e : Exception) :
  get_bblfsh t (with_calls (fun cs => cs ++ [(t, MCheckVersions)]) s) = (Ok stub, s1) ->
  SupportedLanguages stub = Ok drivers ->
  existing_versions drivers ∅ = Ok existing ->
  Forall2 (fun reqstr req => Requirement_new reqstr = Ok req) pre reqs ->
  Requirement_new bad = Raise e ->
  check_bblfsh_driver_versions (pre ++ bad :: post) t s = (Raise e, s1).
Proof.
  intros Hstub Hrpc Hex Hpre Hbad.
  rewrite (check_versions_unfold _ t s stub s1 Hstub), Hrpc, Hex.
  by rewrite (collect_mismatched_raise existing pre reqs bad post [] e Hpre Hbad).
Qed.

Lemma existing_versions_lookup drivers : forall acc m,
  existing_versions drivers acc = Ok m ->
  (forall lang, (forall d, d ∈ drivers -> language d <> lang) -> m !! lang = acc !! lang) /\
  (forall pre d post, drivers = pre ++ d :: post ->
     (forall d', d' ∈ post -> language d' <> language d) ->
     exists v, Version_new (version d) = Ok v /\ m !! language d = Some v).
Proof.
  induction drivers as [|d0 drivers IH]; intros acc m; simpl.
  - intros [= <-]. split; [done|]. intros [|? ?] ? ? Heq; discriminate Heq.
  - destruct (Version_new (version d0)) as [v0|e0] eqn:Hv0; [|done].
    intros Hm. destruct (IH _ _ Hm) as [Habs Hlast]. split.
    + intros lang Hno. rewrite Habs.
      * rewrite lookup_insert_ne; [done|]. apply Hno. left.
      * intros d Hd. apply Hno. by right.
    + intros pre d post Heq Hpost. destruct pre as [|p pre]; simpl in Heq.
      * injection Heq as -> ->. exists v0. split; [done|].
        rewrite Habs by done. by rewrite lookup_insert_eq.
      * injection Heq as -> ->. by apply (Hlast pre d post).
Qed.

(** X16.  How the installed versions are read: a language that no driver reports
    is absent from the mapping; for a language reported more than once the
    last report counts. *)
Theorem existing_versions_last_wins (drivers : list Driver) (m : gmap string Version) :
  existing_versions drivers ∅ = Ok m ->
  (forall lang, (forall d, d ∈ drivers -> language d <> lang) -> m !! lang = None) /\
  (forall pre d post, drivers = pre ++ d :: post ->
     (forall d', d' ∈ post -> language d' <> language d) ->
     exists v, Version_new (version d) = Ok v /\ m !! language d = Some v).
Proof.
  intros Hm. destruct (existing_versions_lookup drivers ∅ m Hm) as [Habs Hlast].
  split; [|done]. intros lang Hno. by rewrite (Habs lang Hno).
Qed.

End VersionCheckProperties.

Lemma check_versions_keeps_channel_on_failure_witness :
  let P := SamplePackaging.packaging (Raise SampleData.unavailable) in
  let s := DataService__init__ "localhost:10301" [] in
  let stub := mkProtocolServiceStub (mkChannel 0 "localhost:10301") in
  let s1 := snd (get_bblfsh 0 (with_calls (fun cs => cs ++ [(0, MCheckVersions)]) s)) in
  reachable s /\
  get_bblfsh 0 (with_calls (fun cs => cs ++ [(0, MCheckVersions)]) s) = (Ok stub, s1) /\
  @SupportedLanguages P stub = Raise SampleData.unavailable /\
  @check_bblfsh_driver_versions P ["python>=2.0.0"] 0 s = (Raise SampleData.unavailable, s1) /\
  closed_count (mkChannel 0 "localhost:10301") (trace s1) = 0.
Proof.
  intros P s stub s1.
  assert (Hr : reachable s) by apply reachable_init.
  assert (Hg : get_bblfsh 0 (with_calls (fun cs => cs ++ [(0, MCheckVersions)]) s)
               = (Ok stub, s1)) by reflexivity.
  assert (Hrpc : @SupportedLanguages P stub = Raise SampleData.unavailable) by reflexivity.
  split; [exact Hr|]. split; [exact Hg|]. split; [exact Hrpc|].
  destruct (@check_versions_keeps_channel_on_failure P ["python>=2.0.0"] 0 s s1 stub
              SampleData.unavailable Hr Hg Hrpc) as (H1 & _ & _ & _ & H5 & _).
  split; [exact H1|exact H5].
Defined.

Lemma check_versions_malformed_driver_witness :
  let drivers := [mkDriver "python" "1.9.0"; mkDriver "go" "dev-1f3a"] in
  let P := SamplePackaging.packaging (Ok drivers) in
  let s := DataService__init__ "localhost:10301" [] in
  let stub := mkProtocolServiceStub (mkChannel 0 "localhost:10301") in
  let s1 := snd (get_bblfsh 0 (with_calls (fun cs => cs ++ [(0, MCheckVersions)]) s)) in
  let e := mkException InvalidVersion [PStr "dev-1f3a"] in
  get_bblfsh 0 (with_calls (fun cs => cs ++ [(0, MCheckVersions)]) s) = (Ok stub, s1) /\
  @SupportedLanguages P stub = Ok ([mkDriver "python" "1.9.0"] ++ mkDriver "go" "dev-1f3a" :: []) /\
  Forall (fun d' => is_ok (@Version_new P (version d')) = true) [mkDriver "python" "1.9.0"] /\
  @Version_new P "dev-1f3a" = Raise e /\
  @check_bblfsh_driver_versions P ["python>=1.0"] 0 s = (Raise e, s1).
Proof.
  intros drivers P s stub s1 e.
  assert (Hg : get_bblfsh 0 (with_calls (fun cs => cs ++ [(0, MCheckVersions)]) s)
               = (Ok stub, s1)) by reflexivity.
  assert (Hrpc : @SupportedLanguages P stub
                 = Ok ([mkDriver "python" "1.9.0"] ++ mkDriver "go" "dev-1f3a" :: []))
    by reflexivity.
  assert (Hpre : Forall (fun d' => is_ok (@Version_new P (version d')) = true)
                   [mkDriver "python" "1.9.0"]) by (repeat constructor).
  assert (Hd : @Version_new P "dev-1f3a" = Raise e) by reflexivity.
  split; [exact Hg|]. split; [exact Hrpc|]. split; [exact Hpre|]. split; [exact Hd|].
  destruct (@check_versions_malformed_driver P ["python>=1.0"] 0 s s1 stub
              [mkDriver "python" "1.9.0"] [] (mkDriver "go" "dev-1f3a") e Hg Hrpc Hpre Hd)
    as [H1 _].
  exact H1.
Defined.

Lemma check_versions_malformed_requirement_witness :
  let drivers := [mkDriver "python" "1.9.0"] in
  let P := SamplePackaging.packaging (Ok drivers) in
  let s := DataService__init__ "localhost:10301" [] in
  let stub := mkProtocolServiceStub (mkChannel 0 "localhost:10301") in
  let s1 := snd (get_bblfsh 0 (with_calls (fun cs => cs ++ [(0, MCheckVersions)]) s)) in
  let existing : gmap string (list nat) := <["python" := [1; 9; 0]]> ∅ in
  let e := mkException InvalidRequirement [PStr "go=1"] in
  get_bblfsh 0 (with_calls (fun cs => cs ++ [(0, MCheckVersions)]) s) = (Ok stub, s1) /\
  @SupportedLanguages P stub = Ok drivers /\
  @existing_versions P drivers ∅ = Ok existing /\
  Forall2 (fun reqstr req => @Requirement_new P reqstr = Ok req) ["python>=2.0.0"]
    [mkRequirement "python" (SamplePackaging.OpGe, [2; 0; 0])] /\
  @Requirement_new P "go=1" = Raise e /\
  @check_bblfsh_driver_versions P (["python>=2.0.0"] ++ "go=1" :: []) 0 s = (Raise e, s1).
Proof.
  intros drivers P s stub s1 existing e.
  assert (Hg : get_bblfsh 0 (with_calls (fun cs => cs ++ [(0, MCheckVersions)]) s)
               = (Ok stub, s1)) by reflexivity.
  assert (Hrpc : @SupportedLanguages P stub = Ok drivers) by reflexivity.
  assert (Hex : @existing_versions P drivers ∅ = Ok existing) by reflexivity.
  assert (Hpre : Forall2 (fun reqstr req => @Requirement_new P reqstr = Ok req)
                   ["python>=2.0.0"]
                   [mkRequirement "python" (SamplePackaging.OpGe, [2; 0; 0])])
    by (repeat constructor).
  assert (Hbad : @Requirement_new P "go=1" = Raise e) by reflexivity.
  split; [exact Hg|]. split; [exact Hrpc|]. split; [exact Hex|]. split; [exact Hpre|].
  split; [exact Hbad|].
  exact (@check_versions_malformed_requirement P 0 s s1 stub drivers existing
           ["python>=2.0.0"] [] _ "go=1" e Hg Hrpc Hex Hpre Hbad).
Defined.

Lemma existing_versions_last_wins_witness :
  let P := SamplePackaging.packaging (Ok []) in
  let drivers := [mkDriver "python" "1.0"; mkDriver "go" "1.2"; mkDriver "python" "2.0"] in
  let m : gmap string (list nat) := <["python" := [2; 0]]> (<["go" := [1; 2]]> ∅) in
  @existing_versions P drivers ∅ = Ok m /\
  m !! "java" = None /\
  m !! "python" = Some [2; 0].
Proof.
  intros P drivers m.
  assert (Hm : @existing_versions P drivers ∅ = Ok m) by (vm_compute; reflexivity).
  split; [exact Hm|].
  destruct (@existing_versions_last_wins P drivers m Hm) as [Habs Hlast].
  split.
  - apply Habs. intros d Hd. repeat (apply elem_of_cons in Hd as [->|Hd]; [discriminate|]).
    by apply elem_of_nil in Hd.
  - destruct (Hlast [mkDriver "python" "1.0"; mkDriver "go" "1.2"] (mkDriver "python" "2.0") []
                eq_refl) as (v & Hv & Hl).
    + intros d' Hd'. by apply elem_of_nil in Hd'.
    + simpl in Hv, Hl. rewrite Hl. f_equal. vm_compute in Hv. by injection Hv as <-.
Defined.

(** ** Parsing one file *)

Lemma has_slash_append a b : has_slash (String.append a b) = has_slash a || has_slash b.
Proof. induction a as [|c a IH]; simpl; [done|]. rewrite IH. by rewrite orb_assoc. Qed.

Lemma basename_from_no_slash p : forall cur,
  has_slash cur = false -> has_slash (basename_from p cur) = false.
Proof.
  induction p as [|a p IH]; intros cur Hcur; simpl; [done|].
  destruct (Ascii.eqb a "/"%char) eqn:Ha.
  - by apply IH.
  - apply IH. rewrite has_slash_append, Hcur. simpl. by rewrite Ha.
Qed.

Lemma append_assoc_char cur a p :
  String.append (String.append cur (String a EmptyString)) p = String.append cur (String a p).
Proof.
  induction cur as [|c cur IH]; [done|].
  change (String c (String.append (String.append cur (String a EmptyString)) p) =
          String c (String.append cur (String a p))).
  by f_equal.
Qed.

Lemma append_empty_r cur : String.append cur EmptyString = cur.
Proof.
  induction cur as [|c cur IH]; [done|].
  change (String c (String.append cur EmptyString) = String c cur). by f_equal.
Qed.

Lemma basename_from_plain p : forall cur,
  has_slash p = false -> basename_from p cur = String.append cur p.
Proof.
  induction p as [|a p IH]; intros cur Hp; simpl.
  - by rewrite append_empty_r.
  - simpl in Hp. apply orb_false_elim in Hp as [Ha Hp]. rewrite Ha.
    rewrite (IH _ Hp). apply append_assoc_char.
Qed.

Lemma basename_from_dir dir base : forall cur,
  has_slash base = false ->
  basename_from (String.append dir (String "/"%char base)) cur = base.
Proof.
  induction dir as [|a dir IH]; intros cur Hb; simpl.
  - by rewrite (basename_from_plain base EmptyString Hb).
  - destruct (Ascii.eqb a "/"%char); by apply IH.
Qed.

(** X17.  The directory of the file never reaches the parse service, and parse
    diagnostics are data: the name sent has no slash in it; a file given
    with a directory is parsed as the file given by its base name alone; and
    when the service answers, [parse_uast] without [unicode] returns the
    tree and the list of errors of the answer as they are, whatever the
    list holds, while an exception of the call is raised unchanged. *)
Theorem parse_uast_strips_directory `{ParseApi} (stub : ProtocolServiceStub)
    (code dir base : string) (unicode : bool) (language : option string) :
  has_slash base = false ->
  let filename := String.append dir (String "/"%char base) in
  basename filename = base /\
  basename base = base /\
  parse_uast stub code filename unicode language = parse_uast stub code base unicode language /\
  (forall name, has_slash (basename name) = false) /\
  (forall response,
     Parse stub (mkParseRequest base code language) = Ok response ->
     parse_uast stub code filename false language = Ok (uast response, errors response)) /\
  (forall e,
     Parse stub (mkParseRequest base code language) = Raise e ->
     parse_uast stub code filename unicode language = Raise e).
Proof.
  intros Hb filename.
  assert (Hdir : basename filename = base) by (by apply basename_from_dir).
  assert (Hplain : basename base = base).
  { unfold basename. by rewrite (basename_from_plain base EmptyString Hb). }
  split; [done|]. split; [done|]. split.
  { unfold parse_uast. by rewrite Hdir, Hplain. }
  split.
  { intros name. by apply basename_from_no_slash. }
  split.
  - intros response Hp. unfold parse_uast. by rewrite Hdir, Hp.
  - intros e Hp. unfold parse_uast. by rewrite Hdir, Hp.
Qed.

Lemma parse_uast_strips_directory_witness :
  let stub := mkProtocolServiceStub (mkChannel 0 "localhost:10301") in
  has_slash "main.py" = false /\
  basename "/repo/src/main.py" = "main.py" /\
  @parse_uast sample_parse stub "x = (" "/repo/src/main.py" false None =
    Ok ("main.py", ["unexpected token"]).
Proof.
  intros stub.
  assert (Hb : has_slash "main.py" = false) by reflexivity.
  split; [exact Hb|].
  destruct (@parse_uast_strips_directory sample_parse stub "x = (" "/repo/src" "main.py"
              false None Hb) as (H1 & _ & _ & _ & H5 & _).
  split; [exact H1|]. exact (H5 _ eq_refl).
Defined.

(** ** The life of a context manager *)

Lemma shutdown_closes_opened t s c :
  session_inv s -> opened c (trace s) ->
  closed_count c (trace (snd (shutdown t s))) = 1.
Proof.
  intros Hinv Hop. pose proof (shutdown_inv t s Hinv) as Hinv1.
  revert Hinv1. rewrite shutdown_eq. simpl. intros Hinv1.
  assert (Hop1 : opened c ((trace s ++ [EvLog LogShuttingDown])
                            ++ map EvClosed (_data_request_channels s))).
  { apply opened_app. left. apply opened_app. by left. }
  destruct (inv_accounted _ Hinv1 c Hop1) as [Hin|Hcl]; [|done].
  simpl in Hin. by apply elem_of_nil in Hin.
Qed.

Section ContextManagerLife.
Import ContextManager.
Context `{HostEnv}.

Ltac cm_unfold :=
  unfold mbind, mret, CM_bind, CM_ret, self_get, self_set, self_attr, cm_raise,
    history, host_call.

(** X18.  [__exit__] stops at the first thing that fails and undoes nothing:
    without a listener (the block was never entered) it raises the
    [AttributeError] of the missing attribute and makes no outside call; when
    [listener.stop()] raises, the repository and the session are not shut
    down; when the repository's [shutdown()] raises, the session is not shut
    down.  In each case the SDK handle is unset and the session is left as
    it was. *)
Theorem exit_stops_at_first_failure (t : Tid) (self : Self) (h : list HostEvent) :
  (listener self = None ->
     __exit__ t (self, h) =
       (Raise (no_attribute "listener"), (set_lookout_sdk None self, h))) /\
  (forall l e, listener self = Some l -> host_fault h HListenerStop = Some e ->
     __exit__ t (self, h) =
       (Raise e, (set_lookout_sdk None self, h ++ [HListenerStop]))) /\
  (forall l r e, listener self = Some l -> host_fault h HListenerStop = None ->
     model_repository self = Some r ->
     host_fault (h ++ [HListenerStop]) HModelRepoShutdown = Some e ->
     __exit__ t (self, h) =
       (Raise e, (set_lookout_sdk None self, (h ++ [HListenerStop]) ++ [HModelRepoShutdown]))) /\
  data_service (set_lookout_sdk None self) = data_service self /\
  _lookout_sdk (set_lookout_sdk None self) = None.
Proof.
  split; [|split; [|split; [|done]]].
  - intros Hl. unfold __exit__. cm_unfold. simpl. by rewrite Hl.
  - intros l e Hl Hf. unfold __exit__. cm_unfold. simpl. rewrite Hl. simpl. by rewrite Hf.
  - intros l r e Hl Hf Hr Hf2. unfold __exit__. cm_unfold. simpl.
    rewrite Hl. simpl. rewrite Hf. simpl. rewrite Hr. simpl. by rewrite Hf2.
Qed.

(** X19.  When nothing fails, [__exit__] stops the listener, shuts the repository
    down and then shuts the session down: if the session was in a reachable
    state, every channel that any thread opened on it has been closed
    exactly once, its registry is empty and no thread has anything in its
    slot. *)
Theorem exit_shuts_session_down (t : Tid) (self : Self) (h : list HostEvent)
    (l : EventListener) (r : ModelRepository) (ds : State) :
  listener self = Some l -> model_repository self = Some r -> data_service self = Some ds ->
  host_fault h HListenerStop = None ->
  host_fault (h ++ [HListenerStop]) HModelRepoShutdown = None ->
  reachable ds ->
  let ds' := snd (shutdown t ds) in
  __exit__ t (self, h) =
    (Ok tt, (set_data_service (Some ds') (set_lookout_sdk None self),
             (h ++ [HListenerStop]) ++ [HModelRepoShutdown])) /\
  _data_request_channels ds' = [] /\
  (forall t', slot_empty t' ds') /\
  (forall t' c, EvOpened t' c ∈ trace ds -> closed_count c (trace ds') = 1).
Proof.
  intros Hl Hr Hds Hf1 Hf2 Hreach ds'.
  split.
  { unfold __exit__, data_service_shutdown. cm_unfold. simpl.
    rewrite Hl. simpl. rewrite Hf1. simpl. rewrite Hr. simpl. rewrite Hf2. simpl.
    by rewrite Hds. }
  split; [subst ds'; by rewrite shutdown_eq|]. split.
  - intros t'. subst ds'. rewrite shutdown_eq. unfold slot_empty, local_of. simpl.
    by rewrite lookup_empty.
  - intros t' c Hop. apply shutdown_closes_opened; [by apply reachable_inv|by exists t'].
Qed.

(** X20.  [__enter__] sets the SDK handle last: when it raises, the handle is as
    it was, so that after a failed entry of a new object [review()] and
    [push()] still refuse to run. *)
Theorem enter_failure_keeps_handle (c c' : Ctx) (e : Exception) :
  __enter__ c = (Raise e, c') ->
  _lookout_sdk (fst c') = _lookout_sdk (fst c) /\
  (_lookout_sdk (fst c) = None ->
   forall fr to git_dir bblfsh log_level cfg,
     review fr to git_dir bblfsh log_level cfg c' = (Raise review_error, c') /\
     push fr to git_dir bblfsh log_level cfg c' = (Raise push_error, c')).
Proof.
  intros Henter.
  assert (Hsdk : _lookout_sdk (fst c') = _lookout_sdk (fst c)).
  { revert Henter. destruct c as [self h]. unfold __enter__, find_port, check_port_free.
    cm_unfold. simpl.
    repeat (match goal with
            | |- context [match host_fault ?h ?ev with _ => _ end] =>
                destruct (host_fault h ev); simpl; [by intros [= _ <-]|]
            | |- context [if ?b then _ else _] => destruct b; simpl
            end); by intros [= ]. }
  split; [done|]. intros Hnone fr to git_dir bblfsh log_level cfg.
  destruct c' as [self' h']. simpl in *. rewrite Hnone in Hsdk.
  split; unfold review, push; cm_unfold; simpl; by rewrite Hsdk.
Qed.

(** X21.  What [__enter__] sets up when it returns: the repository for the
    arguments of the constructor, a new session for the configured address,
    the manager, a listener on [0.0.0.0:port] with one worker, where [port]
    is the port found by the constructor if it is still free and a newly
    found one otherwise, and the SDK handle; the outside calls are made in
    the order of the source, the repository being initialised only if
    [init] is set. *)
Theorem enter_sets_up (self self' : Self) (h : list HostEvent) (c' : Ctx) :
  let args := _sql_alchemy_model_args self in
  let h1 := (h ++ [HCreateModelRepo args]) ++
            (if init self then [HModelRepoInit] else []) ++ [HNewManager] in
  let free := check_port_free_value h1 (_port self) in
  let h2 := (h1 ++ [HCheckPortFree (_port self)]) ++ (if free then [] else [HFindPort]) in
  let p := if free then _port self
           else find_port_value (h1 ++ [HCheckPortFree (_port self)]) in
  let address := String.append "0.0.0.0:" (pretty p) in
  __enter__ (self, h) = (Ok self', c') ->
  self' = fst c' /\
  fst c' =
    mkSelf _ (analyzer self) (init self) p (data_request_address self) args
      (Some LookoutSDK_new) (Some (mkModelRepository args))
      (Some (DataService__init__ (data_request_address self) session_faults))
      (Some AnalyzerManager_new) (Some (mkEventListener address 1)) /\
  snd c' = h2 ++ [HNewListener address 1; HListenerStart; HNewLookoutSDK].
Proof.
  intros args h1 free h2 p address. subst args h1 free h2 p address.
  unfold __enter__, find_port, check_port_free. cm_unfold. simpl.
  repeat (match goal with
          | |- context [match host_fault ?h ?ev with _ => _ end] =>
              destruct (host_fault h ev); simpl; [by intros [= ]|]
          | |- context [if init self then _ else _] => destruct (init self) eqn:Hinit; simpl
          | |- context [if negb ?b then _ else _] => destruct b eqn:?; simpl
          end).
  all: intros [= <- <-]; simpl; rewrite <- ?app_assoc; simpl;
    repeat match goal with
           | Hb : check_port_free_value ?hh ?pp = _
             |- context [check_port_free_value ?hh' ?pp] =>
               replace hh' with hh by (by rewrite <- ?app_assoc); rewrite Hb
           end;
    unfold set_lookout_sdk, set_listener, set_port, set_manager, set_data_service,
      set_model_repository; simpl; rewrite <- ?app_assoc; simpl; rewrite ?Hinit; done.
Qed.

End ContextManagerLife.

Lemma exit_stops_at_first_failure_witness :
  let H := SampleFaults.failing SampleFaults.is_listener_stop in
  let ds := snd (get_data 0 (DataService__init__ "localhost:10301" [])) in
  let l := ContextManager.mkEventListener "0.0.0.0:4000" 1 in
  let args := ContextManager.mkNamespace "sqlite:///db" "fs" "1G" "6h" [] in
  let self := @ContextManager.mkSelf H "MyAnalyzer" true 4000 "localhost:10301" args
                (Some ContextManager.LookoutSDK_new)
                (Some (ContextManager.mkModelRepository args)) (Some ds)
                (Some ContextManager.AnalyzerManager_new) (Some l) in
  @ContextManager.listener H self = Some l /\
  @ContextManager.host_fault H [] ContextManager.HListenerStop = Some SampleFaults.host_error /\
  @ContextManager.__exit__ H 0 (self, []) =
    (Raise SampleFaults.host_error,
     (@ContextManager.set_lookout_sdk H None self, [ContextManager.HListenerStop])) /\
  @ContextManager.data_service H (@ContextManager.set_lookout_sdk H None self) = Some ds.
Proof.
  intros H ds l args self.
  assert (Hl : @ContextManager.listener H self = Some l) by reflexivity.
  assert (Hf : @ContextManager.host_fault H [] ContextManager.HListenerStop
               = Some SampleFaults.host_error) by reflexivity.
  split; [exact Hl|]. split; [exact Hf|].
  destruct (@exit_stops_at_first_failure H 0 self []) as (_ & Hstop & _ & Hds & _).
  split; [exact (Hstop l _ Hl Hf)|]. rewrite Hds. reflexivity.
Defined.

Lemma exit_shuts_session_down_witness :
  let H := ContextManager.sample_host in
  let ds := run [(0, OpGetData); (1, OpGetBblfsh)] (DataService__init__ "localhost:10301" []) in
  let l := ContextManager.mkEventListener "0.0.0.0:4000" 1 in
  let args := ContextManager.mkNamespace "sqlite:///db" "fs" "1G" "6h" [] in
  let r := ContextManager.mkModelRepository args in
  let self := @ContextManager.mkSelf H "MyAnalyzer" true 4000 "localhost:10301" args
                (Some ContextManager.LookoutSDK_new) (Some r) (Some ds)
                (Some ContextManager.AnalyzerManager_new) (Some l) in
  let ds' := snd (shutdown 7 ds) in
  @ContextManager.listener H self = Some l /\
  @ContextManager.model_repository H self = Some r /\
  @ContextManager.data_service H self = Some ds /\
  @ContextManager.host_fault H [] ContextManager.HListenerStop = None /\
  @ContextManager.host_fault H ([] ++ [ContextManager.HListenerStop])
     ContextManager.HModelRepoShutdown = None /\
  reachable ds /\
  fst (@ContextManager.__exit__ H 7 (self, [])) = Ok tt /\
  _data_request_channels ds' = [] /\
  (forall t' c, EvOpened t' c ∈ trace ds -> closed_count c (trace ds') = 1).
Proof.
  intros H ds l args r self ds'.
  assert (Hl : @ContextManager.listener H self = Some l) by reflexivity.
  assert (Hr : @ContextManager.model_repository H self = Some r) by reflexivity.
  assert (Hds : @ContextManager.data_service H self = Some ds) by reflexivity.
  assert (Hf1 : @ContextManager.host_fault H [] ContextManager.HListenerStop = None)
    by reflexivity.
  assert (Hf2 : @ContextManager.host_fault H ([] ++ [ContextManager.HListenerStop])
                  ContextManager.HModelRepoShutdown = None) by reflexivity.
  assert (Hreach : reachable ds).
  { exists "localhost:10301", [], [(0, OpGetData); (1, OpGetBblfsh)]. reflexivity. }
  split; [exact Hl|]. split; [exact Hr|]. split; [exact Hds|]. split; [exact Hf1|].
  split; [exact Hf2|]. split; [exact Hreach|].
  destruct (@exit_shuts_session_down H 7 self [] l r ds Hl Hr Hds Hf1 Hf2 Hreach)
    as (H1 & H2 & _ & H4).
  split; [by rewrite H1|]. split; [exact H2|exact H4].
Defined.

Lemma enter_failure_keeps_handle_witness :
  let H := SampleFaults.failing SampleFaults.is_listener_start in
  let args := ContextManager.mkNamespace "sqlite:///db" "fs" "1G" "6h" [] in
  let self := @ContextManager.mkSelf H "MyAnalyzer" true 4000 "localhost:10301" args
                None None None None None in
  let c := (self, [ContextManager.HFindPort]) in
  let c' := snd (@ContextManager.__enter__ H c) in
  @ContextManager.__enter__ H c = (Raise SampleFaults.host_error, c') /\
  @ContextManager._lookout_sdk H (fst c') = None /\
  @ContextManager.review H "HEAD~1" "HEAD" "." None None None c' =
    (Raise ContextManager.review_error, c').
Proof.
  intros H args self c c'.
  assert (He : @ContextManager.__enter__ H c = (Raise SampleFaults.host_error, c'))
    by (vm_compute; reflexivity).
  split; [exact He|].
  destruct (@enter_failure_keeps_handle H c c' SampleFaults.host_error He) as [Hsdk Hrev].
  split; [by rewrite Hsdk|].
  destruct (Hrev eq_refl "HEAD~1" "HEAD" "." None None None) as [Hreview _]. exact Hreview.
Defined.

Lemma enter_sets_up_witness :
  let H := SampleFaults.port_taken in
  let args := ContextManager.mkNamespace "sqlite:///db" "fs" "1G" "6h" [] in
  let self := @ContextManager.mkSelf H "MyAnalyzer" true 4000 "localhost:10301" args
                None None None None None in
  let r := @ContextManager.__enter__ H (self, [ContextManager.HFindPort]) in
  exists self' c',
    r = (Ok self', c') /\
    @ContextManager._port H (fst c') = 4005 /\
    @ContextManager.listener H (fst c') =
      Some (ContextManager.mkEventListener "0.0.0.0:4005" 1).
Proof.
  intros H args self r.
  destruct r as [[self'|e] c'] eqn:Hr; [|by vm_compute in Hr].
  exists self', c'. split; [reflexivity|].
  destruct (@enter_sets_up H self self' [ContextManager.HFindPort] c' Hr) as (_ & Hself & _).
  rewrite Hself. split; by vm_compute.
Defined.

(** ** Channels that the session has lost *)

Lemma py_list_remove_subset x l r y :
  py_list_remove x l = Some r -> y ∈ r -> y ∈ l.
Proof.
  revert r. induction l as [|z l IH]; intros r; simpl; [done|].
  destruct (decide (z = x)) as [->|Hne].
  - intros [= <-] Hy. by right.
  - destruct (py_list_remove x l) as [r'|]; [|done].
    intros [= <-] Hy. apply elem_of_cons in Hy as [->|Hy]; [by left|].
    right. by apply (IH r').
Qed.

Lemma closed_count_opening c t c' :
  closed_count c [EvOpened t c'; EvLog (LogOpened c')] = 0.
Proof. reflexivity. Qed.

Lemma unreferenced_exec s c t o :
  (c ∉ _data_request_channels s) ->
  (forall t', channel (local_of t' s) <> Some c) ->
  chan_id c < next_channel_id s ->
  (c ∉ _data_request_channels (exec t o s)) /\
  (forall t', channel (local_of t' (exec t o s)) <> Some c) /\
  chan_id c < next_channel_id (exec t o s) /\
  closed_count c (trace (exec t o s)) = closed_count c (trace s).
Proof.
  intros Hreg Hslot Hid.
  assert (Hnew : c <> mkChannel (next_channel_id s) (_data_request_address s)).
  { intros ->. simpl in Hid. lia. }
  assert (Hins : forall l' a b n f tr cs, channel l' <> Some c ->
            forall t', channel (local_of t'
                                  (mkState (<[t := l']> (_data_request_local s)) a b n f tr cs))
                       <> Some c).
  { intros l' a b n f tr cs Hl' t'. unfold local_of. simpl.
    destruct (decide (t = t')) as [->|Hne].
    - by rewrite lookup_insert_eq.
    - rewrite lookup_insert_ne by done. apply Hslot. }
  destruct o; simpl.
  - case_get_data t s; simpl.
    + done.
    + split; [done|]. split; [|done]. apply Hins. simpl. apply Hslot.
    + done.
    + split; [|split; [|split; [lia|]]].
      * intros Hin. apply elem_of_app in Hin as [Hin|Hin]; [done|].
        apply list_elem_of_singleton in Hin. done.
      * apply Hins. simpl. congruence.
      * rewrite closed_count_app, closed_count_opening. lia.
  - case_get_bblfsh t s; simpl.
    + done.
    + split; [done|]. split; [|done]. apply Hins. simpl. apply Hslot.
    + done.
    + split; [|split; [|split; [lia|]]].
      * intros Hin. apply elem_of_app in Hin as [Hin|Hin]; [done|].
        apply list_elem_of_singleton in Hin. done.
      * apply Hins. simpl. congruence.
      * rewrite closed_count_app, closed_count_opening. lia.
  - case_close_channel t s; simpl.
    + split; [|split; [|split; [done|]]].
      * intros Hin. apply Hreg. by apply (py_list_remove_subset c0 _ l c).
      * by apply Hins.
      * rewrite closed_count_app, closed_count_close.
        destruct (decide (c0 = c)) as [->|Hne]; [|lia].
        exfalso. by apply (Hslot t).
    + done.
    + done.
  - rewrite shutdown_eq. simpl.
    split; [by intros Hin; apply elem_of_nil in Hin|]. split.
    + intros t'. unfold local_of. simpl. by rewrite lookup_empty.
    + split; [done|]. rewrite !closed_count_app, closed_count_log.
      rewrite closed_count_map_not_in by done. lia.
  - split; [done|]. split; [|done].
    intros t'. unfold thread_exit, local_of. simpl. destruct (decide (t = t')) as [->|Hne].
    + by rewrite lookup_delete_eq.
    + rewrite lookup_delete_ne by done. apply Hslot.
Qed.

(** X22.  A channel that the session has lost is never closed: a channel handed
    out earlier that is neither in the registry nor in any slot stays so
    and is closed by no later call, [shutdown()] included. *)
Theorem lost_channel_never_closed (s : State) (c : Channel) (ops : list (nat * Op)) :
  (c ∉ _data_request_channels s) ->
  (forall t, channel (local_of t s) <> Some c) ->
  chan_id c < next_channel_id s ->
  closed_count c (trace (run ops s)) = closed_count c (trace s) /\
  (c ∉ _data_request_channels (run ops s)) /\
  (forall t, channel (local_of t (run ops s)) <> Some c).
Proof.
  revert s. induction ops as [|[t o] ops IH]; intros s Hreg Hslot Hid; [done|].
  simpl. destruct (unreferenced_exec s c t o Hreg Hslot Hid) as (Hreg' & Hslot' & Hid' & Hcl).
  destruct (IH (exec t o s) Hreg' Hslot' Hid') as (Hcl' & ? & ?).
  split; [by rewrite Hcl', Hcl|done].
Qed.

(** The channel that [lost_channel_schedule] leaves behind stays open
    through a [shutdown()]. *)
Lemma lost_channel_never_closed_witness :
  let c := mkChannel 0 "localhost:10301" in
  let s := mkState ∅ [] "localhost:10301" 1 []
             [EvLog LogShuttingDown; EvOpened 2 c; EvLog (LogOpened c)]
             [(1, MShutdown); (2, MGetData)] in
  Interleaving.run_schedule Interleaving.lost_channel_schedule
    (DataService__init__ "localhost:10301" [], ∅) = Some (s, ∅) /\
  (c ∉ _data_request_channels s) /\
  (forall t, channel (local_of t s) <> Some c) /\
  chan_id c < next_channel_id s /\
  opened c (trace s) /\
  closed_count c (trace (run [(2, OpGetData); (1, OpShutdown)] s)) = 0.
Proof.
  intros c s.
  assert (Hreg : c ∉ _data_request_channels s) by (intros Hin; by apply elem_of_nil in Hin).
  assert (Hslot : forall t, channel (local_of t s) <> Some c).
  { intros t. unfold local_of. simpl. by rewrite lookup_empty. }
  assert (Hid : chan_id c < next_channel_id s) by (simpl; lia).
  split; [by vm_compute|]. split; [exact Hreg|]. split; [exact Hslot|]. split; [exact Hid|].
  split; [exists 2; right; left|].
  destruct (lost_channel_never_closed s c [(2, OpGetData); (1, OpShutdown)] Hreg Hslot Hid)
    as [Hcl _].
  rewrite Hcl. reflexivity.
Defined.
